(** * Volcanic Interpretation Workbench: the data-reshaping core of
    [app/data_utils.py], embedded and checked against its specification.

    Conventions of the embedding.
    - A Python call that may raise is a value of [result]: [Ok v] for a normal
      return, [Raise e] for the exception [e] reaching the caller.
    - A calendar date (a pandas [Timestamp] read by [pd.read_csv(...,
      parse_dates=...)] from the columns [Reference Date] and [Pair Date]) is
      its day number, a [Z] counting days from 1970-01-01, so that
      [(second_date - first_date).dt.days] is a subtraction.
    - A float is a binary64 number ([float], with the operations of
      [SpecFloat]); [NaN] / [None] / [NaT] in a cell is [None] of an [option],
      so that a value [Some x] is a number, not NaN. The constants of the
      coherence chart, which [global_variables] would give, are exact
      rationals ([Qc]).
    - A pandas [DataFrame] with a row axis, a column axis and a 2-D block of
      cells is [DataFrame]: the two label lists, and the finite map of the
      cells that are not null. *)

From Stdlib Require Import ZArith QArith Qcanon Lia Ascii String.
From Stdlib Require SpecFloat.
From stdpp Require Import base numbers option list sorting gmap fin_maps strings pretty.

Local Open Scope Z_scope.

(** ** Exceptions and results *)

Inductive exn : Type :=
| ValueError
| TypeError
| IndexError
| KeyError
| RuntimeError
| FileNotFoundError
| ZeroDivisionError
| UnboundLocalError
| NotImplementedError
| ConnectionError
| OverflowError
| AttributeError
| ReadTimeout.

Global Instance exn_eq_dec : EqDecision exn.
Proof. solve_decision. Defined.

Inductive result (A : Type) : Type :=
| Ok (a : A)
| Raise (e : exn).
Arguments Ok {A} a.
Arguments Raise {A} e.

(** Sequencing: an exception of the first call skips the rest
    (written [x ← r; k] below). *)
Global Instance result_bind : MBind result :=
  λ A B k r, match r with
             | Ok a => k a
             | Raise e => Raise e
             end.
Global Instance result_ret : MRet result := λ A a, Ok a.

Definition raises {A} (r : result A) : Prop := ∃ e, r = Raise e.
Definition returns {A} (r : result A) : Prop := ∃ a, r = Ok a.

(** ** Numbers *)

(** A [float64] of numpy and a [float] of Python: a binary64 number of
    IEEE 754, with the operations of the Standard Library's [SpecFloat],
    which round to the nearest number, a tie going to the even one. *)
Definition float : Type := SpecFloat.spec_float.

Global Instance float_eq_dec : EqDecision float.
Proof. unfold float. solve_decision. Defined.

Module Float.
Import SpecFloat.

Definition prec : Z := 53.
Definition emax : Z := 1024.

Definition nan : float := S754_nan.
Definition is_nan (x : float) : bool := if x is S754_nan then true else false.
Definition is_infinite (x : float) : bool := if x is S754_infinity _ then true else false.
Definition is_zero (x : float) : bool := if x is S754_zero _ then true else false.

(** The double nearest to the integer [n]; an infinity when [n] lies beyond
    the largest double. *)
Definition of_Z (n : Z) : float := binary_normalize prec emax n 0 false.

Definition add : float → float → float := SFadd prec emax.
Definition sub : float → float → float := SFsub prec emax.
Definition mul : float → float → float := SFmul prec emax.
Definition div : float → float → float := SFdiv prec emax.

(** [x <= y]; false when one of them is NaN. *)
Definition leb : float → float → bool := SFleb.

Definition max (x y : float) : float := if leb x y then y else x.

(** The double nearest to the quotient [m / n] of two integers, [n] not 0:
    the division rounds once, whatever the size of [m] and [n]. A zero
    quotient has the sign of [n]. *)
Definition div_Z (m n : Z) : float :=
  match m with
  | Z0 => S754_zero (n <? 0)
  | _ => SFdiv prec emax (S754_finite (m <? 0) (Z.to_pos (Z.abs m)) 0)
                         (S754_finite (n <? 0) (Z.to_pos (Z.abs n)) 0)
  end.

(** The double nearest to [n / d], for [n] and [d] that a double holds
    exactly: the value of a decimal literal, [ratio 5064 100] for [50.64]. *)
Definition ratio (n : Z) (d : positive) : float := div (of_Z n) (of_Z (Z.pos d)).

(** The integer nearest to [n / d], for [0 <= n] and [0 < d], a tie going to
    the even one. *)
Definition nearest_even (n d : Z) : Z :=
  let q := n / d in
  match 2 * (n mod d) ?= d with
  | Lt => q
  | Gt => q + 1
  | Eq => if Z.even q then q else q + 1
  end.

(** [numpy.rint]: the nearest integer, a tie going to the even one; the sign
    of a zero result is the sign of [x]. *)
Definition rint (x : float) : float :=
  match x with
  | S754_finite s m e =>
      if 0 <=? e then x
      else match nearest_even (Z.pos m) (2 ^ (- e)) with
           | Z0 => S754_zero s
           | n => of_Z (if s then - n else n)
           end
  | _ => x
  end.

(** [round(x, ndigits)] of Python on a float, for [0 <= ndigits]: the double
    nearest to the decimal with [ndigits] digits that is nearest to the exact
    value of [x], a tie going to the even digit. *)
Definition round (ndigits : Z) (x : float) : float :=
  match x with
  | S754_finite s m e =>
      let p := 10 ^ ndigits in
      let n := if 0 <=? e then Z.pos m * 2 ^ e * p
               else nearest_even (Z.pos m * p) (2 ^ (- e)) in
      match n with
      | Z0 => S754_zero s
      | _ => div_Z (if s then - n else n) p
      end
  | _ => x
  end.

End Float.

(** A number of Python, as [json.loads] gives it: an [int] of any size or a
    [float]. *)
Inductive number : Type :=
| PyInt (n : Z)
| PyFloat (x : float).

(** The conversion of an operand to a double: an [OverflowError] ("int too
    large to convert to float") for an integer beyond the largest double. *)
Definition to_float (a : number) : result float :=
  match a with
  | PyFloat x => Ok x
  | PyInt n =>
      if Float.is_infinite (Float.of_Z n) then Raise OverflowError
      else Ok (Float.of_Z n)
  end.

(** [a + b]: exact on two integers, the sum of the two doubles otherwise. *)
Definition py_add (a b : number) : result number :=
  match a, b with
  | PyInt m, PyInt n => Ok (PyInt (m + n))
  | _, _ =>
      x ← to_float a;
      y ← to_float b;
      Ok (PyFloat (Float.add x y))
  end.

(** Whether a number is zero; an integer is zero exactly when its double
    is. *)
Definition number_is_zero (a : number) : bool :=
  match a with
  | PyInt n => bool_decide (n = 0)
  | PyFloat x => Float.is_zero x
  end.

(** [a / b]: always a float. Two integers are divided exactly and the
    quotient rounded once ("integer division result too large for a float"
    is an [OverflowError]); otherwise both operands are converted, then a
    zero divisor is a [ZeroDivisionError]. *)
Definition py_truediv (a b : number) : result float :=
  match a, b with
  | PyInt m, PyInt n =>
      if decide (n = 0) then Raise ZeroDivisionError
      else if Float.is_infinite (Float.div_Z m n) then Raise OverflowError
      else Ok (Float.div_Z m n)
  | _, _ =>
      x ← to_float a;
      y ← to_float b;
      if number_is_zero b then Raise ZeroDivisionError
      else Ok (Float.div x y)
  end.

(** The values added from the left, as [total += x] in a loop does. *)
Fixpoint add_all (total : number) (l : list number) : result number :=
  match l with
  | [] => Ok total
  | x :: l => total ← py_add total x; add_all total l
  end.

(** ** Calendar dates *)

Module Date.

(** Day number of the proleptic Gregorian date [y]-[m]-[d]. *)
Definition of_ymd (y m d : Z) : Z :=
  let y' := if decide (m ≤ 2) then y - 1 else y in
  let era := y' / 400 in
  let yoe := y' - era * 400 in
  let mp := (m + 9) mod 12 in
  let doy := (153 * mp + 2) / 5 + d - 1 in
  let doe := yoe * 365 + yoe / 4 - yoe / 100 + doy in
  era * 146097 + doe - 719468.

(** The inverse: year, month and day of a day number. *)
Definition to_ymd (z : Z) : Z * Z * Z :=
  let z := z + 719468 in
  let era := z / 146097 in
  let doe := z - era * 146097 in
  let yoe := (doe - doe / 1460 + doe / 36524 - doe / 146096) / 365 in
  let doy := doe - (365 * yoe + yoe / 4 - yoe / 100) in
  let mp := (5 * doy + 2) / 153 in
  let d := doy - (153 * mp + 2) / 5 + 1 in
  let m := if decide (mp < 10) then mp + 3 else mp - 9 in
  let y := yoe + era * 400 in
  (if decide (m ≤ 2) then y + 1 else y, m, d).

Definition digit (n : Z) : string :=
  String (Ascii.ascii_of_nat (Z.to_nat (48 + n mod 10))) EmptyString.

(** Decimal digits of a natural number, most significant first, on at least
    [width] digits. *)
Fixpoint digits (width : nat) (n : Z) : string :=
  match width with
  | O => ""
  | S w => digits w (n / 10) +:+ digit n
  end.

Definition month_abbr (m : Z) : string :=
  match m with
  | 1 => "Jan" | 2 => "Feb" | 3 => "Mar" | 4 => "Apr"
  | 5 => "May" | 6 => "Jun" | 7 => "Jul" | 8 => "Aug"
  | 9 => "Sep" | 10 => "Oct" | 11 => "Nov" | _ => "Dec"
  end.

(** [strftime('%b %d, %Y')] of a Timestamp; a pandas Timestamp lies between
    the years 1677 and 2262, so [%Y] has four digits. *)
Definition strftime_b_d_Y (z : Z) : string :=
  let '(y, m, d) := to_ymd z in
  month_abbr m +:+ " " +:+ digits 2 d +:+ ", " +:+ digits 4 y.

End Date.

(** ** Long-form tables *)

(** One row of a coherence or InSAR-pair CSV after [pd.read_csv] and the
    renaming of its columns to [first_date], [second_date] and the value
    ([coherence] or [insar_pair]). *)
Record PairRecord : Type := mkPair {
  first_date : Z;
  second_date : Z;
  value : option float
}.

(** The same row once [plot_coherence] has added the [delta_days] column. *)
Record LongRow : Type := mkLong {
  pair : PairRecord;
  delta_days : Z
}.

(** [coh_long['delta_days'] = (coh_long.second_date - coh_long.first_date).dt.days] *)
Definition add_delta_days (coh_long : list PairRecord) : list LongRow :=
  map (λ r, mkLong r (second_date r - first_date r)) coh_long.

(** ** Wide matrices *)

Record DataFrame (V : Type) : Type := mkDF {
  index : list Z;
  columns : list Z;
  cells : gmap (Z * Z) V
}.
Arguments mkDF {V} _ _ _.
Arguments index {V} _.
Arguments columns {V} _.
Arguments cells {V} _.

(** The cell at row label [d] and column label [c]; [None] is null. *)
Definition cell {V} (df : DataFrame V) (d c : Z) : option V := cells df !! (d, c).

(** The sorted distinct labels of a column of the long table: an axis of the
    pivoted frame. *)
Definition axis_labels (l : list Z) : list Z := merge_sort (≤) (remove_dups l).

(** The row and column labels of a row of the long table, and the cell it
    fills when its value is not null. *)
Definition pivot_key (r : LongRow) : Z * Z := (delta_days r, second_date (pair r)).
Definition pivot_entry {V} (values : PairRecord → option V) (r : LongRow)
  : option (Z * Z * V) :=
  (λ v, (pivot_key r, v)) <$> values (pair r).

(** [long.pivot(index='delta_days', columns='second_date', values=...)]:
    one row per distinct [delta_days], one column per distinct [second_date],
    both sorted; a repeated (delta_days, second_date) key is a [ValueError]
    ("Index contains duplicate entries, cannot reshape"). *)
Definition pivot {V} (values : PairRecord → option V) (long : list LongRow)
  : result (DataFrame V) :=
  if decide (NoDup (map pivot_key long)) then
    Ok {| index := axis_labels (map delta_days long);
          columns := axis_labels (map (λ r, second_date (pair r)) long);
          cells := list_to_map (omap (pivot_entry values) long) |}
  else Raise ValueError.

(** [df.loc[d, :] = np.NaN]: every cell of row [d] becomes null; a label that
    the row axis does not have yet is appended to it. *)
Definition set_row_nan {V} (d : Z) (df : DataFrame V) : DataFrame V :=
  {| index := if decide (d ∈ index df) then index df else index df ++ [d];
     columns := columns df;
     cells := filter (λ kv, kv.1.1 ≠ d) (cells df) |}.

(** [df.sort_index(inplace=True)]: rows follow their labels. *)
Definition sort_index {V} (df : DataFrame V) : DataFrame V :=
  {| index := merge_sort (≤) (index df);
     columns := columns df;
     cells := cells df |}.

(** [round(x, decimals)] of numpy on a [float64]: [x] is multiplied by the
    power of ten, brought to the nearest integer by [rint] and divided again,
    each step rounded; for a negative [decimals] it is divided first. The
    power of ten is exact up to [10 ^ 22]; the code passes 2. *)
Definition round_decimals (decimals : Z) (x : float) : float :=
  if 0 <=? decimals then
    let f := Float.of_Z (10 ^ decimals) in
    Float.div (Float.rint (Float.mul x f)) f
  else
    let f := Float.of_Z (10 ^ (- decimals)) in
    Float.mul (Float.rint (Float.div x f)) f.

(** [df.round(decimals)]; null cells stay null. *)
Definition round_df (decimals : Z) (df : DataFrame float) : DataFrame float :=
  {| index := index df;
     columns := columns df;
     cells := round_decimals decimals <$> cells df |}.


(** ** Series and the reductions used to find the edges *)

(** A pandas [Series]: labels with their values, null as [None]. *)
Definition Series (V : Type) : Type := list (Z * option V).

Definition Qcmax (a b : Qc) : Qc := if decide (a ≤ b)%Qc then b else a.

(** The maximum of the values that are not null; null when there is none
    ([skipna=True], the default of [DataFrame.max]). *)
Definition max_skipna (l : list (option float)) : option float :=
  foldr (λ o acc, match o, acc with
                  | Some x, Some y => Some (Float.max x y)
                  | Some x, None => Some x
                  | None, _ => acc
                  end) None l.

(** [df.max(axis='columns')]: one value per row label. *)
Definition max_columns (df : DataFrame float) : Series float :=
  map (λ d, (d, max_skipna (map (λ c, cell df d c) (columns df)))) (index df).

(** [df.max(axis='index')]: one value per column label. *)
Definition max_index (df : DataFrame float) : Series float :=
  map (λ c, (c, max_skipna (map (λ d, cell df d c) (index df)))) (columns df).

(** The labels of a series whose value is not null, in order. *)
Definition valid_labels {V} (s : Series V) : list Z :=
  omap (λ lv, if lv.2 is Some _ then Some lv.1 else None) s.

(** [Series.first_valid_index()] and [Series.last_valid_index()]: [None] when
    every value is null. *)
Definition first_valid_index {V} (s : Series V) : option Z := head (valid_labels s).
Definition last_valid_index {V} (s : Series V) : option Z := last (valid_labels s).

(** [df.loc[row_mask, col_mask]] with the two boolean masks given as
    predicates on the labels. *)
Definition loc_mask {V} (rows cols : Z → bool) (df : DataFrame V) : DataFrame V :=
  {| index := filter (λ d, rows d = true) (index df);
     columns := filter (λ c, cols c = true) (columns df);
     cells := filter (λ kv, rows kv.1.1 = true ∧ cols kv.1.2 = true) (cells df) |}.

(** [index <= bound] on the integer row axis: against [None] every comparison
    is false. *)
Definition le_bound (d : Z) (bound : option Z) : bool :=
  if bound is Some b then d <=? b else false.

(** [cw_col >= bound], [cw_col <= bound] on the datetime column axis: a
    [None] bound is a [TypeError] ("Invalid comparison between
    dtype=datetime64[ns] and NoneType"). *)
Definition datetime_bound (bound : option Z) : result Z :=
  if bound is Some b then Ok b else Raise TypeError.

(** The trimming of [pivot_and_clean] (from [cw_last_col = ...] to the
    [.loc[...]] under "trim empty edges"): rows from label 0 to the last row
    with a value, columns from the first to the last column with a value. *)
Definition trim_edges (coh_wide : DataFrame float) : result (DataFrame float) :=
  let cw_last_col := last_valid_index (max_columns coh_wide) in
  let cw_first_ind := first_valid_index (max_index coh_wide) in
  let cw_last_ind := last_valid_index (max_index coh_wide) in
  let rows d := (0 <=? d) && le_bound d cw_last_col in
  lo ← datetime_bound cw_first_ind;
  hi ← datetime_bound cw_last_ind;
  Ok (loc_mask rows (λ c, (lo <=? c) && (c <=? hi)) coh_wide).

(** [pivot_and_clean(coh_long)] *)
Definition pivot_and_clean (coh_long : list LongRow) : result (DataFrame float) :=
  coh_wide ← pivot value coh_long;
  (* include zero baseline even though it will never be valid *)
  let coh_wide := set_row_nan 0 coh_wide in
  let coh_wide := sort_index coh_wide in
  let coh_wide := round_df 2 coh_wide in
  trim_edges coh_wide.

Definition has_value {V} (df : DataFrame V) (d c : Z) : bool :=
  if cell df d c is Some _ then true else false.

(** [df.dropna(how='all').index]: the labels of the rows that have a value,
    and [df.dropna(axis=1, how='all').columns] for the columns. *)
Definition dropna_all_index {V} (df : DataFrame V) : list Z :=
  filter (λ d, existsb (has_value df d) (columns df) = true) (index df).
Definition dropna_all_columns {V} (df : DataFrame V) : list Z :=
  filter (λ c, existsb (λ d, has_value df d c) (index df) = true) (columns df).

(** [labels[0]] and [labels[-1]]: an [IndexError] on an empty axis. *)
Definition first_label (labels : list Z) : result Z :=
  if head labels is Some x then Ok x else Raise IndexError.
Definition last_label (labels : list Z) : result Z :=
  if last labels is Some x then Ok x else Raise IndexError.

(** [df.loc[r0:r1, c0:c1]]: label slices, both ends included. Both axes are
    increasing where the reshaper slices, so a slice is the range of labels. *)
Definition loc_slice {V} (r0 r1 c0 c1 : Z) (df : DataFrame V) : DataFrame V :=
  loc_mask (λ d, (r0 <=? d) && (d <=? r1)) (λ c, (c0 <=? c) && (c <=? c1)) df.

(** The trimming of [pivot_and_clean_insar]. *)
Definition trim_edges_insar (insar_wide : DataFrame float) : result (DataFrame float) :=
  first_valid_row_index ← first_label (dropna_all_index insar_wide);
  last_valid_row_index ← last_label (dropna_all_index insar_wide);
  first_valid_col_index ← first_label (dropna_all_columns insar_wide);
  last_valid_col_index ← last_label (dropna_all_columns insar_wide);
  Ok (loc_slice first_valid_row_index last_valid_row_index
                first_valid_col_index last_valid_col_index insar_wide).

(** [pivot_and_clean_insar(insar_long)] *)
Definition pivot_and_clean_insar (insar_long : list LongRow) : result (DataFrame float) :=
  insar_wide ← pivot value insar_long;
  (* include zero baseline even though it will never be valid *)
  let insar_wide := set_row_nan 0 insar_wide in
  let insar_wide := sort_index insar_wide in
  let insar_wide := round_df 2 insar_wide in
  trim_edges_insar insar_wide.

(** [df[cols]]: the listed columns in the listed order; a [KeyError] when one
    of them is not a column of [df]. *)
Definition getitem_columns {V} (cols : list Z) (df : DataFrame V) : result (DataFrame V) :=
  if decide (Forall (λ c, c ∈ columns df) cols) then
    Ok {| index := index df;
          columns := cols;
          cells := filter (λ kv, kv.1.2 ∈ cols) (cells df) |}
  else Raise KeyError.

(** [coh_long.drop(coh_long[coh_long.second_date < coh_long.first_date].index)] *)
Definition drop_reversed (coh_long : list LongRow) : list LongRow :=
  filter (λ r, ¬ second_date (pair r) < first_date (pair r)) coh_long.

(** [pivot_and_clean_dates(coh_long, coh_wide)] *)
Definition pivot_and_clean_dates {V} (coh_long : list LongRow) (coh_wide : DataFrame V)
  : result (DataFrame string) :=
  let coh_long := drop_reversed coh_long in
  date_wide ← pivot (λ r, Some (first_date r)) coh_long;
  let date_wide :=
    {| index := index date_wide;
       columns := columns date_wide;
       cells := Date.strftime_b_d_Y <$> cells date_wide |} in
  (* remove some columns so that date_wide has the same columns as coh_wide *)
  let common_cols : gset Z :=
    list_to_set (columns date_wide) ∩ list_to_set (columns coh_wide) in
  let common_cols := merge_sort (≤) (elements common_cols) in
  getitem_columns common_cols date_wide.

(** ** Reading the long tables *)

Section readers.
(** [pd.read_csv(path, parse_dates=...)] followed by the renaming of the
    three columns: the rows of the file at [path], or [None] when there is
    no such file. *)
Variable read_csv : string → option (list PairRecord).

(** [(coh.second_date < coh.first_date) & coh.coherence.notnull()] *)
Definition wrong_order (r : PairRecord) : bool :=
  (second_date r <? first_date r) && (if value r is Some _ then true else false).

(** [_read_coherence(coherence_csv)] *)
Definition _read_coherence (coherence_csv : option string)
  : result (option (list PairRecord)) :=
  match coherence_csv with
  | None => Ok None
  | Some path =>
      match read_csv path with
      | None => Raise FileNotFoundError
      | Some coh =>
          if existsb wrong_order coh then Raise RuntimeError
          else Ok (Some coh)
      end
  end.

(** [_read_insar_pair(insar_pair_csv)]; [os.path.exists] is [read_csv]
    finding the file. *)
Definition _read_insar_pair (insar_pair_csv : option string)
  : result (option (list PairRecord)) :=
  match insar_pair_csv with
  | None => Ok None
  | Some path =>
      match read_csv path with
      | None => Ok None
      | Some insar =>
          if existsb wrong_order insar then Raise RuntimeError
          else Ok (Some insar)
      end
  end.
End readers.

(** ** [parse_dates] *)

(** A Python [str] is the string of its code points; the embedding covers the
    code points below 256. *)

(** [s[i:j]] for [0 <= i <= j]: shorter than [j - i] when [s] ends early. *)
Definition slice (i j : nat) (s : string) : string := String.substring i (j - i) s.

(** [c.isdigit()] for one character: the ten decimal digits and the
    superscripts one, two and three. *)
Definition char_isdigit (c : ascii) : bool :=
  let n := Ascii.nat_of_ascii c in
  ((48 <=? n) && (n <=? 57) || (n =? 178) || (n =? 179) || (n =? 185))%nat.

Fixpoint all_chars (p : ascii → bool) (s : string) : bool :=
  match s with
  | EmptyString => true
  | String c s' => p c && all_chars p s'
  end.

(** [s.isdigit()]: false on the empty string. *)
Definition isdigit (s : string) : bool :=
  negb (String.length s =? 0)%nat && all_chars char_isdigit s.

(** [f'{d[:4]}/{d[4:6]}/{d[6:]}'] *)
Definition format_date (d : string) : string :=
  slice 0 4 d +:+ "/" +:+ slice 4 6 d +:+ "/" +:+ slice 6 (String.length d) d.

(** [start_date.isdigit() and len(start_date) == 8] *)
Definition eight_digits (d : string) : bool :=
  isdigit d && (String.length d =? 8)%nat.

(** [parse_dates(input_string)]: whatever is raised inside the [try] leaves
    as a [ValueError]. *)
Definition parse_dates (input_string : string) : result string :=
  let body : result string :=
    if (String.length input_string <? 19)%nat then Raise ValueError
    else
      let start_date := slice 0 8 input_string in
      let end_date := slice 12 20 input_string in
      if negb (eight_digits start_date) then Raise ValueError
      else if negb (eight_digits end_date) then Raise ValueError
      else Ok (format_date start_date +:+ " - " +:+ format_date end_date) in
  match body with
  | Ok r => Ok r
  | Raise _ => Raise ValueError
  end.

(** ** Seismic events *)

(** One line of the event catalogue's text answer, with the columns the
    workbench reads ([#EventID], [Time], [Latitude], [Longitude]); [Time] is
    the instant that [pd.to_datetime] reads from the catalogue's UTC time
    stamp, in nanoseconds. *)
Record QuakeEvent : Type := mkEvent {
  EventID : string;
  Time : Z;
  Latitude : float;
  Longitude : float
}.

(** The outcome of [requests.get(url, params=params, timeout=10)]: a
    [ConnectionError], which a connection that times out is too; a
    [ReadTimeout], when the server is reached and then does not answer in
    time, which is not a [ConnectionError]; or an answer, with the events of
    its text. *)
Inductive http_outcome : Type :=
| ConnectionFailed
| ReadTimedOut
| Response (status_code : Z) (text : list QuakeEvent).

Record QuakeRow : Type := mkQuake {
  event : QuakeEvent;
  Time_Delta : Z;
  quake_colour : string
}.

(** The table returned to the caller: its column names and its rows. *)
Record QuakeFrame : Type := mkQuakes {
  quake_columns : list string;
  quake_rows : list QuakeRow
}.

Definition ns_per_day : Z := 86400 * 1000000000.

(** [-(pd.to_datetime(Time) - now).dt.days]: [.dt.days] is the floor of the
    difference in days. *)
Definition time_delta (now time : Z) : Z := - ((time - now) / ns_per_day).

(** [np.select(condlist, choicelist)]: the choice of the first condition that
    holds, the default when none does. *)
Fixpoint np_select {A} (condlist : list bool) (choicelist : list A) (default : A) : A :=
  match condlist, choicelist with
  | c :: condlist, v :: choicelist =>
      if c then v else np_select condlist choicelist default
  | _, _ => default
  end.

Definition colour_of (Time_Delta : Z) : string :=
  let conditions :=
    [ Time_Delta <=? 2;
      (2 <? Time_Delta) && (Time_Delta <=? 7);
      (7 <? Time_Delta) && (Time_Delta <=? 31);
      31 <? Time_Delta ] in
  let values := ["red"; "orange"; "yellow"; "white"] in
  np_select conditions values "0".

(** The two column assignments [df['Time_Delta'] = ...] and
    [df['quake_colour'] = ...] of both query functions. On a frame without
    rows [pd.to_datetime] gives a column without time zone, and subtracting
    the clock, which has one, is a [TypeError]. *)
Definition colour_events (now : Z) (events : list QuakeEvent) : result QuakeFrame :=
  if events is [] then Raise TypeError
  else
    Ok {| quake_columns :=
            ["#EventID"; "Time"; "Latitude"; "Longitude"; "Time_Delta"; "quake_colour"];
          quake_rows :=
            map (λ e, let td := time_delta now (Time e) in mkQuake e td (colour_of td))
                events |}.

(** [df = pd.DataFrame(); df['#EventID'] = None] *)
Definition no_events : QuakeFrame :=
  {| quake_columns := ["#EventID"]; quake_rows := [] |}.

(** [get_latest_quakes_chis_fsdn()] with the clock and the outcome of the
    request as arguments. [df] is bound in the [if] and in the [except] only. *)
Definition get_latest_quakes_chis_fsdn (now : Z) (request : http_outcome)
  : result QuakeFrame :=
  match request with
  | Response status_code text =>
      if decide (status_code = 200) then colour_events now text
      else (* return df *) Raise UnboundLocalError
  | ConnectionFailed => Ok no_events
  | ReadTimedOut => Raise ReadTimeout
  end.

(** [c1 & c2 & c3 & c4]: the event lies within one degree of latitude and two
    degrees of longitude of the centre, the bounds computed in doubles. *)
Definition in_box (center_latitude center_longitude : float) (e : QuakeEvent) : bool :=
  let c1 := Float.leb (Float.sub center_latitude (Float.of_Z 1)) (Latitude e) in
  let c2 := Float.leb (Latitude e) (Float.add center_latitude (Float.of_Z 1)) in
  let c3 := Float.leb (Float.sub center_longitude (Float.of_Z 2)) (Longitude e) in
  let c4 := Float.leb (Longitude e) (Float.add center_longitude (Float.of_Z 2)) in
  c1 && c2 && c3 && c4.

(** [get_latest_quakes_chis_fsdn_site(initial_target, target_centres)] *)
Definition get_latest_quakes_chis_fsdn_site
    (now : Z) (request : http_outcome)
    (initial_target : string) (target_centres : gmap string (float * float))
  : result QuakeFrame :=
  match target_centres !! initial_target with
  | None => Raise KeyError
  | Some (center_latitude, center_longitude) =>
      (* Initialize df to an empty df to ensure it is always defined *)
      let df := {| quake_columns := []; quake_rows := [] |} in
      match request with
      | Response status_code text =>
          if decide (status_code = 200) then
            colour_events now
              (List.filter (in_box center_latitude center_longitude) text)
          else Ok df
      | ConnectionFailed => Ok no_events
      | ReadTimedOut => Raise ReadTimeout
      end
  end.

(** ** Centroids *)

(** The loop [for x, y in coords: total_x += x; total_y += y]. *)
Fixpoint add_points (totals : number * number) (coords : list (number * number))
  : result (number * number) :=
  match coords with
  | [] => Ok totals
  | (x, y) :: coords =>
      total_x ← py_add totals.1 x;
      total_y ← py_add totals.2 y;
      add_points (total_x, total_y) coords
  end.

(** [calculate_centroid(coords)] *)
Definition calculate_centroid (coords : list (number * number))
  : result (list number) :=
  let num_points := length coords in
  '(total_x, total_y) ← add_points (PyInt 0, PyInt 0) coords;
  centroid_x ← py_truediv total_x (PyInt (Z.of_nat num_points));
  centroid_y ← py_truediv total_y (PyInt (Z.of_nat num_points));
  Ok [PyFloat centroid_x; PyFloat centroid_y].

(** A GeoJSON geometry: its [type] and its [coordinates], rings of points for
    a polygon, one position for a point. *)
Inductive Coordinates : Type :=
| Rings (rings : list (list (number * number)))
| Position (xy : list number).

Record Geometry : Type := mkGeometry {
  geometry_type : string;
  coordinates : Coordinates
}.

Record Feature : Type := mkFeature {
  feature_id : string;
  name_en : string;
  geometry : Geometry
}.

(** [calculate_and_append_centroids(geojson_dict)]: the features in order,
    each geometry replaced by the centroid of its first ring,
    [geometry['coordinates'][0]]; on a point that is a number, of which
    [calculate_centroid] cannot take the length. *)
Fixpoint calculate_and_append_centroids (features : list Feature)
  : result (list Feature) :=
  match features with
  | [] => Ok []
  | feature :: rest =>
      ring ← match coordinates (geometry feature) with
             | Rings (ring :: _) => Ok ring
             | Rings [] | Position [] => Raise IndexError
             | Position (_ :: _) => Raise TypeError
             end;
      centroid ← calculate_centroid ring;
      let feature :=
        mkFeature (feature_id feature) (name_en feature)
                  (mkGeometry "Point" (Position centroid)) in
      rest ← calculate_and_append_centroids rest;
      Ok (feature :: rest)
  end.


(** ** The summary table *)

(** A cell of the summary table. *)
Inductive Cell : Type :=
| Str (s : string)
| Flag (b : bool)
| Null.

Record SummaryTable : Type := mkSummary {
  summary_columns : list string;
  summary_rows : list (list Cell)
}.

(** The answer of [requests.get(f"http://{url}/targets/{site}")]: a failed
    connection, or the two fields read from the decoded body
    ([last_slc_datetime] is a string or null). *)
Inductive target_outcome : Type :=
| TargetConnectionFailed
| TargetInfo (last_slc_datetime : option string) (last_slc_beam_mode : string).

(** A row of [targets_df] while the table is built. *)
Record TargetRow : Type := mkTarget {
  target_id : string;
  Site : string;
  Unrest : Cell;
  Latest_SAR_Image : Cell
}.

(** [re.search('Edgecumbe', s)] *)
Fixpoint contains (pattern s : string) : bool :=
  String.prefix pattern s ||
  match s with
  | EmptyString => false
  | String _ s' => contains pattern s'
  end.

(** [id.str.contains('^A|Edgecumbe')] *)
Definition is_volcano_id (id : string) : bool :=
  String.prefix "A" id || contains "Edgecumbe" id.

Section summary.
(** The rows [(Site, Unrest)] of [app/Data/unrest_table.csv], the target
    API, the date [dt.today().date()] and [dt.strptime(s, "%Y-%m-%d")]. *)
Variable unrest_table_df : list (string * bool).
Variable get_target : string → target_outcome.
Variable today : Z.
Variable strptime_Ymd : string → result Z.

Definition date_difference (date_string : string) : result Z :=
  date ← strptime_Ymd date_string;
  Ok (today - date).

(** [pd.merge(targets_df, unrest_table_df, on='Site', how='left')] for one
    row of the left table. *)
Definition merge_left (feature : Feature) : list TargetRow :=
  let site := name_en feature in
  let matches := List.filter (λ u, bool_decide (u.1 = site)) unrest_table_df in
  match matches with
  | [] => [mkTarget (feature_id feature) site Null Null]
  | _ => map (λ u, mkTarget (feature_id feature) site (Flag u.2) Null) matches
  end.

(** [targets_df.loc[site_index, 'Latest SAR Image'] = v] where [site_index]
    is the first row whose [id] is [site]. *)
Fixpoint set_latest (site : string) (v : Cell) (rows : list TargetRow)
  : list TargetRow :=
  match rows with
  | [] => []
  | row :: rows =>
      if decide (target_id row = site)
      then mkTarget (target_id row) (Site row) (Unrest row) v :: rows
      else row :: set_latest site v rows
  end.

(** The body of [for site in targets_df['id']]; the state is the table and
    whether the column [Latest SAR Image] exists yet. *)
Definition visit_site (site : string) (st : list TargetRow * bool)
  : result (list TargetRow * bool) :=
  let '(rows, has_column) := st in
  match get_target site with
  | TargetConnectionFailed => Ok (set_latest site Null rows, true)
  | TargetInfo (Some datetime) last_slc_beam_mode =>
      let last_slc_date := slice 0 10 datetime in
      days ← date_difference last_slc_date;
      let format_output :=
        last_slc_beam_mode +:+ " - " +:+ last_slc_date +:+ " ("
          +:+ pretty days +:+ " days ago)" in
      Ok (set_latest site (Str format_output) rows, true)
  | TargetInfo None _ => Ok (rows, has_column)
  end.

Fixpoint visit_sites (sites : list string) (st : list TargetRow * bool)
  : result (list TargetRow * bool) :=
  match sites with
  | [] => Ok st
  | site :: sites => st ← visit_site site st; visit_sites sites st
  end.

(** [pd.json_normalize(data, record_path=['features'])]: anything that is
    neither a list nor a dict, [None] included, is a [NotImplementedError]. *)
Definition json_normalize (data : option (list Feature)) : result (list Feature) :=
  match data with
  | None => Raise NotImplementedError
  | Some features => Ok features
  end.

(** [targets_df[['Site', 'Latest SAR Image', 'Unrest']]] *)
Definition select_summary (rows : list TargetRow) (has_column : bool)
  : result SummaryTable :=
  if has_column then
    Ok {| summary_columns := ["Site"; "Latest SAR Image"; "Unrest"];
          summary_rows :=
            map (λ r, [Str (Site r); Latest_SAR_Image r; Unrest r]) rows |}
  else Raise KeyError.

(** [build_summary_table(targs_geojson)] *)
Definition build_summary_table (targs_geojson : option (list Feature))
  : result SummaryTable :=
  let body : result (list TargetRow * bool) :=
    targets_df ← json_normalize targs_geojson;
    let targets_df := List.filter (λ f, is_volcano_id (feature_id f)) targets_df in
    let targets_df := concat (map merge_left targets_df) in
    '(targets_df, has_column) ← visit_sites (map target_id targets_df) (targets_df, false);
    let targets_df :=
      merge_sort (λ a b, String.le (target_id a) (target_id b)) targets_df in
    Ok (targets_df, has_column) in
  match body with
  | Ok (targets_df, has_column) => select_summary targets_df has_column
  | Raise NotImplementedError =>
      Ok {| summary_columns := ["Site"; "Latest SAR Image"; "Unrest"];
            summary_rows := [replicate 3 (Str "API Connection Error")] |}
  | Raise e => Raise e
  end.
End summary.

(** ** Invariants of wide matrices *)

(** Both axes of a wide matrix are increasing: [pivot] sorts the columns and
    [sort_index] the rows. *)
Definition sorted_axes {V} (df : DataFrame V) : Prop :=
  Sorted (≤) (index df) ∧ Sorted (≤) (columns df).

(** The invariant of the data model on the matrix: a cell that holds a value
    lies at a temporal baseline [delta_days >= 0]. *)
Definition valid_baselines {V} (df : DataFrame V) : Prop :=
  ∀ d c, d ∈ index df → c ∈ columns df → has_value df d c = true → 0 ≤ d.

(** The same invariant on the long table, as [_read_coherence] and
    [_read_insar_pair] enforce it. *)
Definition ordered_dates (long : list PairRecord) : Prop :=
  ∀ r, r ∈ long → value r ≠ None → first_date r ≤ second_date r.

(** The masks of a [.loc] keep every cell that holds a value. *)
Definition covers {V} (rows cols : Z → bool) (df : DataFrame V) : Prop :=
  ∀ d c, d ∈ index df → c ∈ columns df → has_value df d c = true →
         rows d = true ∧ cols c = true.

(** No value at a negative baseline, on a long table with its [delta_days]
    column. *)
Definition valid_long (long : list LongRow) : Prop :=
  ∀ r, r ∈ long → value (pair r) ≠ None → 0 ≤ delta_days r.

(** The (delta_days, second_date) keys of a long table are distinct. *)
Definition distinct_keys (long : list LongRow) : Prop :=
  NoDup (map pivot_key long).

(** The frame that both reshapers trim: the pivoted frame with the zero
    baseline included, the rows sorted and the values rounded. *)
Definition cleaned (W : DataFrame float) : DataFrame float :=
  round_df 2 (sort_index (set_row_nan 0 W)).

(** ** Example tables *)

(** The coherence CSV rows [(2020-01-01, 2020-01-13, 0.9)]. *)
Definition single_pair : list PairRecord :=
  [mkPair (Date.of_ymd 2020 1 1) (Date.of_ymd 2020 1 13) (Some (Float.ratio 9 10))].

(** The InSAR-pair CSV rows [(2020-01-01, 2020-01-13, 1.0)]. *)
Definition single_insar_pair : list PairRecord :=
  [mkPair (Date.of_ymd 2020 1 1) (Date.of_ymd 2020 1 13) (Some (Float.of_Z 1))].

(** A coherence table with a pair in reverse order whose coherence is null,
    which [_read_coherence] accepts: (2020-01-01, 2020-01-10, 0.5),
    (2020-01-20, 2020-01-15, null), (2020-01-05, 2020-01-20, 0.5). *)
Definition reversed_null_pair : list PairRecord :=
  [ mkPair (Date.of_ymd 2020 1 1) (Date.of_ymd 2020 1 10) (Some (Float.ratio 1 2));
    mkPair (Date.of_ymd 2020 1 20) (Date.of_ymd 2020 1 15) None;
    mkPair (Date.of_ymd 2020 1 5) (Date.of_ymd 2020 1 20) (Some (Float.ratio 1 2)) ].

(** ** Marker colours, as the specification words them *)

(** Red up to 2 days, orange from 3 to 7, yellow from 8 to 31, white
    beyond. *)
Definition marker_colour (age_days : Z) : string :=
  if decide (age_days ≤ 2) then "red"
  else if decide (3 ≤ age_days ≤ 7) then "orange"
  else if decide (8 ≤ age_days ≤ 31) then "yellow"
  else "white".

(** A row of the returned table carries the age of its event and the colour
    of that age. *)
Definition coloured_by_age (now : Z) (row : QuakeRow) : Prop :=
  Time_Delta row = time_delta now (Time (event row)) ∧
  quake_colour row = marker_colour (Time_Delta row).

(** The sentinel table of [build_summary_table]. *)
Definition api_connection_error : SummaryTable :=
  {| summary_columns := ["Site"; "Latest SAR Image"; "Unrest"];
     summary_rows :=
       [[Str "API Connection Error"; Str "API Connection Error";
         Str "API Connection Error"]] |}.

(** A wide matrix before trimming: the rows 0 and 12, the columns 2020-01-01
    and 2020-01-13, one value at (12, 2020-01-13). *)
Definition untrimmed_matrix : DataFrame float :=
  {| index := [0; 12];
     columns := [Date.of_ymd 2020 1 1; Date.of_ymd 2020 1 13];
     cells := {[ (12, Date.of_ymd 2020 1 13) := Float.ratio 9 10 ]} |}.

(** A matrix outside the data model: it holds a value at the negative
    baseline -5, in the column 2020-01-10. *)
Definition negative_baseline_matrix : DataFrame float :=
  {| index := [-5; 0; 3];
     columns := [Date.of_ymd 2020 1 10; Date.of_ymd 2020 1 20];
     cells := {[ (-5, Date.of_ymd 2020 1 10) := Float.ratio 1 2;
                 (3, Date.of_ymd 2020 1 20) := Float.ratio 1 2 ]} |}.

(** A table that the readers refuse: a value on a pair in reverse order. *)
Definition reversed_valued_pair : list PairRecord :=
  [mkPair (Date.of_ymd 2020 1 13) (Date.of_ymd 2020 1 1) (Some (Float.ratio 9 10))].

(** The rows of [targets_df] before the sites are visited: the volcanoes of
    the GeoJSON, joined with the unrest table. *)
Definition merged_rows (unrest_table_df : list (string * bool))
    (features : list Feature) : list TargetRow :=
  concat (map (merge_left unrest_table_df)
              (List.filter (λ f, is_volcano_id (feature_id f)) features)).

(** ** Paths of the CSV files *)

(** [s.rsplit(sep, 1)] when [sep] occurs in [s]: the text before its last
    occurrence and the text after it; [None] when [sep] does not occur, where
    Python returns the one-element list [[s]]. *)
Fixpoint rsplit1 (sep : ascii) (s : string) : option (string * string) :=
  match s with
  | EmptyString => None
  | String c s' =>
      match rsplit1 sep s' with
      | Some (before, after) => Some (String c before, after)
      | None => if decide (c = sep) then Some (EmptyString, s') else None
      end
  end.

(** [site, beam = target_id.rsplit('_', 1)]: unpacking a one-element list is
    a [ValueError]. *)
Definition site_and_beam (target_id : string) : result (string * string) :=
  match rsplit1 "_" target_id with
  | Some site_beam => Ok site_beam
  | None => Raise ValueError
  end.

(** [_coherence_csv(target_id)] *)
Definition _coherence_csv (target_id : string) : result (option string) :=
  if decide (target_id = "API Response Error") then Ok None
  else
    '(site, beam) ← site_and_beam target_id;
    Ok (Some ("app/Data/" +:+ site +:+ "/" +:+ beam +:+ "/CoherenceMatrix.csv")).

(** [_insar_pair_csv(target_id)] *)
Definition _insar_pair_csv (target_id : string) : result (option string) :=
  if decide (target_id = "API Response Error") then Ok None
  else
    '(site, beam) ← site_and_beam target_id;
    Ok (Some ("app/Data/" +:+ site +:+ "/" +:+ beam +:+ "/InSAR_Pair_All.csv")).

(** [_baseline_csv(target_id)] *)
Definition _baseline_csv (target_id : string) : result (option string) :=
  if decide (target_id = "API Response Error") then Ok None
  else
    '(site, beam) ← site_and_beam target_id;
    Ok (Some ("app/Data/" +:+ site +:+ "/" +:+ beam +:+ "/bperp_all")).

(** The string has no underscore. *)
Definition no_underscore (s : string) : Prop :=
  all_chars (λ c, bool_decide (c ≠ "_"%char)) s = true.

(** ** The beam selector *)

Module Api.
(** An item of the [beams] route and an item of the [targets] route of the
    API, with the keys that [populate_beam_selector] reads; the [geometry] of
    a target may be null. *)
Record Beam : Type := mkBeam {
  short_name : string;
  target_label : string
}.

Record Target : Type := mkTarget {
  label : string;
  name_en : string;
  geometry : option (list (list (number * number)))
}.

(** What [get_api_response(vrrc_api_ip, route)] returns: the decoded list,
    or the dictionary [{'API Response Error': [...]}] after a
    [RequestException]. *)
Inductive Response (A : Type) : Type :=
| Items (items : list A)
| Error.
Arguments Items {A} items.
Arguments Error {A}.
End Api.

(** The entry [beam_dict['API Response Error'] = [50.64, -123.60]]. *)
Definition api_error_key : string := "API Response Error".
Definition api_error_centre : list float :=
  [Float.ratio 5064 100; Float.ratio (-12360) 100].

(** The inner loop [for target in targets_response_dict]: the last target
    with the label of the beam becomes [matching_target]. *)
Definition match_target (beam : Api.Beam) (targets : list Api.Target)
    (matching_target : option Api.Target) : option Api.Target :=
  foldl (λ m target,
           if decide (Api.label target = Api.target_label beam)
           then Some target else m)
        matching_target targets.

Section selector.
(** The builtin [sum] of Python on a list of numbers. Its result on floats
    depends on the version of Python (the plain sum from the left, or a
    compensated sum from version 3.12 on), so it is left open here. *)
Variable sum : list number → result number.

(** [calc_polygon_centroid(coordinates)] *)
Definition calc_polygon_centroid (coordinates : list (number * number))
  : result (float * float) :=
  let x_coords := map fst coordinates in
  let y_coords := map snd coordinates in
  total_x ← sum x_coords;
  centroid_x ← py_truediv total_x (PyInt (Z.of_nat (length coordinates)));
  total_y ← sum y_coords;
  centroid_y ← py_truediv total_y (PyInt (Z.of_nat (length coordinates)));
  Ok (Float.round 2 centroid_x, Float.round 2 centroid_y).

(** One turn of [for beam in beam_response_dict] with a decoded beam. The
    state is [beam_dict] and the variable [matching_target], which outlives
    the turn; a [TypeError] inside the [try] stores the error entry. *)
Definition beam_turn (targets : Api.Response Api.Target) (beam : Api.Beam)
    (st : gmap string (list float) * option Api.Target)
  : result (gmap string (list float) * option Api.Target) :=
  let '(beam_dict, matching_target) := st in
  let beam_string := Api.short_name beam in
  match targets with
  | Api.Error =>
      (* target['label'] on the key of the error dictionary, a string *)
      Ok (<[api_error_key := api_error_centre]> beam_dict, matching_target)
  | Api.Items targets =>
      let matching_target := match_target beam targets matching_target in
      match matching_target with
      | None => Raise UnboundLocalError
      | Some target =>
          let site_string := Api.name_en target in
          let site_beam_string := site_string +:+ "_" +:+ beam_string in
          match Api.geometry target with
          | None =>
              Ok (<[api_error_key := api_error_centre]> beam_dict, matching_target)
          | Some [] => Raise IndexError
          | Some (target_coordinates :: _) =>
              match calc_polygon_centroid target_coordinates with
              | Ok (centroid_x, centroid_y) =>
                  Ok (<[site_beam_string := [centroid_y; centroid_x]]> beam_dict,
                      matching_target)
              | Raise TypeError =>
                  Ok (<[api_error_key := api_error_centre]> beam_dict,
                      matching_target)
              | Raise e => Raise e
              end
          end
      end
  end.

Fixpoint beam_turns (targets : Api.Response Api.Target) (beams : list Api.Beam)
    (st : gmap string (list float) * option Api.Target)
  : result (gmap string (list float) * option Api.Target) :=
  match beams with
  | [] => Ok st
  | beam :: beams => st ← beam_turn targets beam st; beam_turns targets beams st
  end.

(** [populate_beam_selector(vrrc_api_ip)] with the two answers of
    [get_api_response] as arguments. *)
Definition populate_beam_selector
    (beam_response_dict : Api.Response Api.Beam)
    (targets_response_dict : Api.Response Api.Target)
  : result (gmap string (list float)) :=
  match beam_response_dict with
  | Api.Error =>
      (* beam['short_name'] on the key of the error dictionary, a string *)
      Ok (<[api_error_key := api_error_centre]> ∅)
  | Api.Items beams =>
      '(beam_dict, _) ← beam_turns targets_response_dict beams (∅, None);
      Ok beam_dict
  end.

(** An entry of the selector: the error entry, or, under the name of a
    target of the list and the short name of a beam of the list, the centre
    of the first ring of that target, the second coordinate first: of each
    coordinate the [sum] over the points of the ring, divided by the number
    of points and rounded to two decimals as [round] of Python does. *)
Definition selector_entry (beams : list Api.Beam) (targets : list Api.Target)
    (k : string) (v : list float) : Prop :=
  (k = "API Response Error" ∧ v = [Float.ratio 5064 100; Float.ratio (-12360) 100]) ∨
  ∃ beam target ring rings total_x total_y mean_x mean_y,
    beam ∈ beams ∧ target ∈ targets ∧
    k = Api.name_en target +:+ "_" +:+ Api.short_name beam ∧
    Api.geometry target = Some (ring :: rings) ∧
    sum (ring.*1) = Ok total_x ∧ sum (ring.*2) = Ok total_y ∧
    py_truediv total_x (PyInt (Z.of_nat (length ring))) = Ok mean_x ∧
    py_truediv total_y (PyInt (Z.of_nat (length ring))) = Ok mean_y ∧
    v = [Float.round 2 mean_y; Float.round 2 mean_x].
End selector.

(** ** Configuration *)

(** [d[key]] on a dictionary: a [KeyError] for a key that is absent. *)
Definition getitem {V} (d : gmap string V) (key : string) : result V :=
  match d !! key with
  | Some v => Ok v
  | None => Raise KeyError
  end.

Definition env_variables : list string :=
  [ "AWS_BUCKET_NAME"; "AWS_RAW_BUCKET"; "AWS_TILES_URL";
    "API_VRRC_IP"; "WORKBENCH_HOST"; "WORKBENCH_PORT" ].

(** [get_config_params()]; [environ] is the environment once [load_dotenv()]
    has run, and [os.getenv] gives [None] for a variable that is not set. *)
Definition get_config_params (environ : gmap string string)
  : gmap string (option string) :=
  foldl (λ config_params var_name,
           <[var_name := environ !! var_name]> config_params)
        ∅ env_variables.

(** ** [scripts/create_InSAR_pair_sqs.py] *)

Module Sqs.
(** The command line, as [parse_args] returns it, and the message that
    [sqs.send_message] is called with. *)
Record Args : Type := mkArgs {
  site : string;
  beam : string;
  startDate : string;
  endDate : string
}.

Record Message : Type := mkMessage {
  QueueUrl : option string;
  DelaySeconds : Z;
  MessageAttributes : list (string * string);
  MessageBody : string
}.

(** [main()] with the environment, the parsed arguments and the queue
    client as arguments. *)
Definition main {Response : Type} (environ : gmap string string) (args : Args)
    (send_message : Message → result Response) : result Response :=
  let config := get_config_params environ in
  queue_url ← getitem config "AWS_INSAR_PROCESS_QUEUE";
  let message_attributes :=
    [ ("referenceDate", startDate args); ("pairDate", endDate args);
      ("site", site args); ("beam", beam args) ] in
  send_message
    {| QueueUrl := queue_url;
       DelaySeconds := 10;
       MessageAttributes := message_attributes;
       MessageBody :=
         "This is a message indicating which InSAR pairs "
         +:+ "            "
         +:+ "should be generated by a call to to the duap InSAR Processor" |}.
End Sqs.

(** ** [scripts/get_latest_insar_pairs.py] *)

(** The local files: the directories that exist and the content of the
    files, path by path. The operations below do not fail for want of a
    permission or because a file stands where a directory is needed. *)
Record FileSystem (C : Type) : Type := mkFS {
  dirs : gset string;
  files : gmap string C
}.
Arguments mkFS {C} _ _.
Arguments dirs {C} _.
Arguments files {C} _.

(** [os.path.exists(path)] *)
Definition path_exists {C} (path : string) (fs : FileSystem C) : bool :=
  bool_decide (path ∈ dirs fs) || bool_decide (is_Some (files fs !! path)).

(** The directories above [path]: what stands before each of its slashes. *)
Fixpoint parents_from (before rest : string) : list string :=
  match rest with
  | EmptyString => []
  | String c rest' =>
      (if bool_decide (c = "/"%char) && negb (bool_decide (before = ""))
       then [before] else [])
      ++ parents_from (before +:+ String c "") rest'
  end.

(** [os.makedirs(path)]: the directory and those above it that are missing. *)
Definition makedirs {C} (path : string) (fs : FileSystem C) : FileSystem C :=
  {| dirs := list_to_set (path :: parents_from "" path) ∪ dirs fs;
     files := files fs |}.

(** The body of the two loops for one site and one beam. [bucket] is the
    object store behind [s3.download_file]: an object that it does not have
    is the [ClientError] that the function prints and passes over. *)
Definition download_pair {C} (bucket : gmap string C) (site beam : string)
    (fs : FileSystem C) : FileSystem C :=
  let dir := "app/Data/" +:+ site +:+ "/" +:+ beam in
  let fs := if path_exists dir fs then fs else makedirs dir fs in
  let filename := "app/Data/" +:+ site +:+ "/" +:+ beam +:+ "/InSAR_Pair_All.csv" in
  match bucket !! (site +:+ "/" +:+ beam +:+ "/InSAR_Pair_All.csv") with
  | Some content => {| dirs := dirs fs; files := <[filename := content]> (files fs) |}
  | None => fs
  end.

(** [get_latest_insar_pairs()] with the bucket, the decoded [beamList.yml]
    (the beams of each site) and the local files as arguments. *)
Definition get_latest_insar_pairs {C} (bucket : gmap string C)
    (beam_list : list (string * list string)) (fs : FileSystem C) : FileSystem C :=
  foldl (λ fs '(site, beams),
           foldl (λ fs beam, download_pair bucket site beam fs) fs beams)
        fs beam_list.

(** ** The baseline chart *)

Module Baseline.
(** A row of the baseline table that [_read_baseline] returns. *)
Record Row : Type := mkRow {
  first_date : Z;
  second_date : Z;
  bperp : option float
}.
End Baseline.

(** [_read_baseline(baseline_csv)]; [read_bperp] stands for [pd.read_csv]
    and the conversion of the two date columns, [None] when there is no file
    at the path. *)
Definition _read_baseline (read_bperp : string → option (list Baseline.Row))
    (baseline_csv : option string) : option (list Baseline.Row) :=
  match baseline_csv with
  | None => None
  | Some path => read_bperp path
  end.

(** A [go.Scatter] trace and a [go.Figure]. *)
Record Trace : Type := mkTrace {
  trace_x : list Z;
  trace_y : list (option float);
  trace_mode : string
}.

Record Figure : Type := mkFigure {
  figure_data : list Trace;
  yaxis_title : option string
}.

(** [go.Figure()] *)
Definition empty_figure : Figure := {| figure_data := []; yaxis_title := None |}.

(** A row of [df_baseline_edge] after the two merges. *)
Record Edge : Type := mkEdge {
  edge_first_date : Z;
  edge_second_date : Z;
  bperp_reference_date : option float;
  bperp_pair_date : option float
}.

(** [pd.merge(left, df_baseline[['second_date', 'bperp']], left_on=key,
    right_on='second_date', how='left')] for one row of the left table: one
    row for each baseline row whose [second_date] is the key, in their
    order, and one row with a null [bperp] when there is none. *)
Definition merge_bperp (df_baseline : list Baseline.Row) (key : Z)
  : list (option float) :=
  match List.filter (λ b, bool_decide (Baseline.second_date b = key)) df_baseline with
  | [] => [None]
  | matches => map Baseline.bperp matches
  end.

(** The rows of [df_baseline_edge] that [plot_baseline] draws. *)
Definition baseline_edges (df_baseline : list Baseline.Row)
    (df_cohfull : list PairRecord) : list Edge :=
  let df_baseline_edge :=
    List.filter (λ r, if value r is Some _ then true else false) df_cohfull in
  let df_baseline_edge :=
    r ← df_baseline_edge;
    reference ← merge_bperp df_baseline (first_date r);
    mret (first_date r, second_date r, reference) in
  let df_baseline_edge :=
    '(first, second, reference) ← df_baseline_edge;
    pair_bperp ← merge_bperp df_baseline second;
    mret (mkEdge first second reference pair_bperp) in
  List.filter (λ e, if bperp_reference_date e is Some _ then true else false)
              df_baseline_edge.

(** [plot_baseline(df_baseline, df_cohfull)] *)
Definition plot_baseline (df_baseline : option (list Baseline.Row))
    (df_cohfull : option (list PairRecord)) : Figure :=
  match df_baseline, df_cohfull with
  | Some df_baseline, Some df_cohfull =>
      let bperp_scatter_fig :=
        mkTrace (map Baseline.second_date df_baseline)
                (map Baseline.bperp df_baseline) "markers" in
      let df_baseline_edge := baseline_edges df_baseline df_cohfull in
      let edge_x :=
        e ← df_baseline_edge; [edge_first_date e; edge_second_date e] in
      let edge_y :=
        e ← df_baseline_edge; [bperp_reference_date e; bperp_pair_date e] in
      let bperp_line_fig := mkTrace edge_x edge_y "lines" in
      {| figure_data := [bperp_line_fig; bperp_scatter_fig];
         yaxis_title := Some "Perpendicular Baseline (m)" |}
  | _, _ => empty_figure
  end.

(** ** Map markers *)

(** The tooltip that [read_targets_geojson] attaches to a feature: the site
    and the "Unrest Observed" flag, red when true and green when false. *)
Record Tooltip : Type := mkTooltip {
  tooltip_site : string;
  unrest_observed : bool
}.

Record TargetFeature : Type := mkTargetFeature {
  target_feature : Feature;
  tooltip : Tooltip
}.

(** The outcome of the request for [/targets/geojson/]: a failed connection
    or the features of the decoded GeoJSON. *)
Inductive geojson_outcome : Type :=
| GeoConnectionFailed
| GeoJson (features : list Feature).

(** [unrest_table_df.loc[unrest_table_df['Site'] == name]['Unrest'].values] *)
Definition unrest_values (unrest_table_df : list (string * bool)) (name : string)
  : list bool :=
  map snd (List.filter (λ u, bool_decide (u.1 = name)) unrest_table_df).

(** [read_targets_geojson()] with the unrest table and the outcome of the
    request as arguments. *)
Definition read_targets_geojson (unrest_table_df : list (string * bool))
    (request : geojson_outcome) : result (option (list TargetFeature)) :=
  match request with
  | GeoConnectionFailed => Ok None
  | GeoJson features =>
      features ← calculate_and_append_centroids features;
      Ok (Some
        (map (λ feature,
                let unrest_bool :=
                  match unrest_values unrest_table_df (name_en feature) with
                  | unrest :: _ => unrest
                  | [] => false
                  end in
                mkTargetFeature feature (mkTooltip (feature_id feature) unrest_bool))
             features))
  end.

(** An item of [geometry['coordinates']]: a number of a position or a ring
    of a polygon. *)
Inductive Coordinate : Type :=
| Number (x : number)
| Ring (ring : list (number * number)).

Definition coordinate_items (c : Coordinates) : list Coordinate :=
  match c with
  | Rings rings => map Ring rings
  | Position xy => map Number xy
  end.

(** [l[i]]: an [IndexError] past the end. *)
Definition list_getitem {A} (l : list A) (i : nat) : result A :=
  match l !! i with
  | Some x => Ok x
  | None => Raise IndexError
  end.

(** The text of a marker: the tooltip of its feature, or a plain text. *)
Inductive MarkerChildren : Type :=
| FeatureTooltip (t : Tooltip)
| TextTooltip (text : string).

(** A [dash_leaflet.Marker]; [icon] is the asset behind its [iconUrl]. *)
Record Marker : Type := mkMarker {
  position : list Coordinate;
  icon : string;
  children : MarkerChildren;
  marker_id : string
}.

(** The truth value that Python gives a cell in [if]: [nan] is true. *)
Definition truthy (c : Cell) : bool :=
  match c with
  | Flag b => b
  | Null => true
  | Str s => negb (bool_decide (s = ""))
  end.

Global Instance Cell_eq_dec : EqDecision Cell.
Proof. solve_decision. Defined.

(** [summary_table_df[name]] by position: a [KeyError] when the table has no
    such column. *)
Fixpoint column_position (name : string) (columns : list string) : option nat :=
  match columns with
  | [] => None
  | column :: columns =>
      if decide (column = name) then Some 0%nat
      else S <$> column_position name columns
  end.

Definition summary_column (name : string) (summary_table_df : SummaryTable)
  : result (list Cell) :=
  match column_position name (summary_columns summary_table_df) with
  | Some i => Ok (map (λ row, default Null (row !! i)) (summary_rows summary_table_df))
  | None => Raise KeyError
  end.

(** [summary_table_df.loc[summary_table_df['Site'] == name]['Unrest'].values[0]] *)
Definition summary_unrest (summary_table_df : SummaryTable) (name : string)
  : result Cell :=
  sites ← summary_column "Site" summary_table_df;
  unrest ← summary_column "Unrest" summary_table_df;
  list_getitem
    (map snd (List.filter (λ row, bool_decide (row.1 = Str name)) (zip sites unrest)))
    0.

(** The loop [for feature in targets_geojson['features']] of the two marker
    functions: [wanted] is the test on the id, [keep] the test on [cond2]. *)
Fixpoint point_features (wanted : string → bool) (keep : Cell → bool)
    (summary_table_df : SummaryTable) (features : list TargetFeature)
  : result (list TargetFeature) :=
  match features with
  | [] => Ok []
  | feature :: features =>
      let f := target_feature feature in
      if wanted (feature_id f) then
        let cond1 := bool_decide (geometry_type (geometry f) = "Point") in
        cond2 ← summary_unrest summary_table_df (name_en f);
        rest ← point_features wanted keep summary_table_df features;
        Ok (if cond1 && keep cond2 then feature :: rest else rest)
      else point_features wanted keep summary_table_df features
  end.

(** [Marker(position=[coordinates[1], coordinates[0]], icon=..., children=
    Tooltip(html.P(tooltip)), id=f"marker_{name_en}")] *)
Definition feature_marker (icon : string) (point : TargetFeature) : result Marker :=
  let f := target_feature point in
  let coords := coordinate_items (coordinates (geometry f)) in
  latitude ← list_getitem coords 1;
  longitude ← list_getitem coords 0;
  Ok (mkMarker [latitude; longitude] icon (FeatureTooltip (tooltip point))
               ("marker_" +:+ name_en f)).

Fixpoint feature_markers (icon : string) (points : list TargetFeature)
  : result (list Marker) :=
  match points with
  | [] => Ok []
  | point :: points =>
      marker ← feature_marker icon point;
      markers ← feature_markers icon points;
      Ok (marker :: markers)
  end.

Section markers.
Variable unrest_table_df : list (string * bool).
Variable get_target : string → target_outcome.
Variable today : Z.
Variable strptime_Ymd : string → result Z.

(** The common shape of [get_green_volcanoes] and [get_red_volcanoes]:
    [targets_geojson['features']] on [None] is the [TypeError] that both
    catch. *)
Definition volcano_markers (wanted : string → bool) (keep : Cell → bool)
    (icon error_id : string) (request : geojson_outcome) : result (list Marker) :=
  targets_geojson ← read_targets_geojson unrest_table_df request;
  summary_table_df ←
    build_summary_table unrest_table_df get_target today strptime_Ymd
      (map target_feature <$> targets_geojson);
  match targets_geojson with
  | None =>
      (* position=[0., 0.] *)
      Ok [mkMarker [Number (PyFloat (Float.of_Z 0)); Number (PyFloat (Float.of_Z 0))]
                   icon (TextTooltip "API Error") error_id]
  | Some features =>
      points ← point_features wanted keep summary_table_df features;
      feature_markers icon points
  end.

(** [get_green_volcanoes()] *)
Definition get_green_volcanoes : geojson_outcome → result (list Marker) :=
  volcano_markers (λ id, String.prefix "A" id) (λ cond2, negb (truthy cond2))
                  "green_volcano_transparent.png" "TypeError_green".

(** [get_red_volcanoes()] *)
Definition get_red_volcanoes : geojson_outcome → result (list Marker) :=
  volcano_markers (λ id, String.prefix "A" id || bool_decide (id = "Edgecumbe"))
                  (λ cond2, truthy cond2)
                  "red_volcano_transparent.png" "TypeError_red".
End markers.

(** What the unrest table tells of a site, as the tooltip shows it: the
    first value listed, false for a site that is not listed. *)
Definition tooltip_unrest (unrest_table_df : list (string * bool)) (name : string)
  : bool :=
  match unrest_values unrest_table_df name with
  | unrest :: _ => unrest
  | [] => false
  end.

(** The same as the markers read it from the summary table, where a site
    that is not listed has a null cell, which [if] takes for true. *)
Definition marker_unrest (unrest_table_df : list (string * bool)) (name : string)
  : bool :=
  match unrest_values unrest_table_df name with
  | unrest :: _ => unrest
  | [] => true
  end.

(** The marker of a feature of [read_targets_geojson]: at its coordinates in
    reverse, latitude first, with its tooltip. *)
Definition point_marker (unrest_table_df : list (string * bool)) (icon : string)
    (f : Feature) : Marker :=
  mkMarker (rev (coordinate_items (coordinates (geometry f)))) icon
           (FeatureTooltip
              (mkTooltip (feature_id f) (tooltip_unrest unrest_table_df (name_en f))))
           ("marker_" +:+ name_en f).

(** The marker of both functions when the API cannot be reached. *)
Definition api_error_marker (icon error_id : string) : Marker :=
  mkMarker [Number (PyFloat (Float.of_Z 0)); Number (PyFloat (Float.of_Z 0))]
           icon (TextTooltip "API Error") error_id.

(** ** The coherence chart *)

(** A [go.Heatmap] of the chart: the matrix [z] with its two axes, the matrix
    of start dates shown on hover, and the name of the value in the hover
    text. *)
Record Heatmap : Type := mkHeatmap {
  heat_z : DataFrame float;
  heat_customdata : DataFrame string;
  heat_value_name : string
}.

(** A row of the figure of [make_subplots]: its traces, the range of its
    baseline axis and the range of its date axis, in days. [None] is a range
    that is not set and, within a date range, the date [NaT]. *)
Record Subplot : Type := mkSubplot {
  subplot_traces : list Heatmap;
  yaxis_range : option (Qc * Qc);
  xaxis_range : option (option Qc * option Qc)
}.

(** [columns.min()] and [columns.max()]: [NaT] on an empty axis. *)
Definition index_min (labels : list Z) : option Z :=
  foldr (λ x acc, Some (if acc is Some y then Z.min x y else x)) None labels.
Definition index_max (labels : list Z) : option Z :=
  foldr (λ x acc, Some (if acc is Some y then Z.max x y else x)) None labels.

(** [int(x)]: towards zero. *)
Definition int (x : Qc) : Z := Z.quot (Qnum x) (Zpos (Qden x)).

Section chart.
(** The constants of [global_variables] that the rows and the ranges of the
    chart depend on: the number of rows, which [make_subplots] wants
    positive, and three numbers. *)
Variable YEAR_AXES_COUNT : positive.
Variables BASELINE_MAX DAYS_PER_YEAR MAX_YEARS : Qc.

Definition baseline_limits (year : nat) : Qc * Qc :=
  if decide (year = 0%nat) then (0, BASELINE_MAX)%Qc
  else
    let centre := Qc_of_Z (int (Qc_of_Z (Z.of_nat year) * DAYS_PER_YEAR)) in
    (centre + BASELINE_MAX / Qc_of_Z 2 * Qc_of_Z (-1),
     centre + BASELINE_MAX / Qc_of_Z 2 * Qc_of_Z 1)%Qc.

(** The dates are days, the [Timedelta] of [DAYS_PER_YEAR * MAX_YEARS] days
    a number of days. *)
Definition second_date_limits (columns : list Z) : option Qc * option Qc :=
  match index_min columns, index_max columns with
  | Some first, Some last =>
      (Some (Qcmax (Qc_of_Z first) (Qc_of_Z last - DAYS_PER_YEAR * MAX_YEARS)
             - Qc_of_Z 4),
       Some (Qc_of_Z last + Qc_of_Z 4))%Qc
  | _, _ => (None, None)
  end.

(** The assignment of the [delta_days] column in [plot_coherence]. The date
    columns of a table that was read from a CSV without rows are not of a
    date type, and the [.dt] of their difference is an [AttributeError]. *)
Definition delta_days_column (long : list PairRecord) : result (list LongRow) :=
  if long is [] then Raise AttributeError else Ok (add_delta_days long).

(** [plot_coherence(coh_long, insar_long)]: the rows of the figure from the
    bottom, row [year + 1] at position [year]. The layout that
    [update_layout] sets is the same for every input and is left out. *)
Definition plot_coherence (coh_long insar_long : option (list PairRecord))
  : result (list Subplot) :=
  let fig := replicate (Pos.to_nat YEAR_AXES_COUNT) (mkSubplot [] None None) in
  match coh_long with
  | None => Ok fig
  | Some coh_long =>
      coh_long ← delta_days_column coh_long;
      coh_wide ← pivot_and_clean coh_long;
      date_wide ← pivot_and_clean_dates coh_long coh_wide;
      insar ← match insar_long with
              | Some insar_long =>
                  insar_long ← delta_days_column insar_long;
                  insar_wide ← pivot_and_clean_insar insar_long;
                  insar_date_wide ← pivot_and_clean_dates insar_long insar_wide;
                  Ok (Some (mkHeatmap insar_wide insar_date_wide "Value"))
              | None => Ok None
              end;
      Ok (map (λ year,
                 mkSubplot
                   (option_list insar ++ [mkHeatmap coh_wide date_wide "Coherence"])
                   (Some (baseline_limits year))
                   (Some (second_date_limits (columns coh_wide))))
              (seq 0 (Pos.to_nat YEAR_AXES_COUNT)))
  end.
End chart.

(** A table has a value on a pair of distinct dates. *)
Definition has_valued_pair (long : list PairRecord) : Prop :=
  ∃ r, r ∈ long ∧ value r ≠ None ∧ first_date r ≠ second_date r.

(** The keys (second_date - first_date, second_date) of a table, which are
    its pairs of dates, are distinct. *)
Definition distinct_pairs (long : list PairRecord) : Prop :=
  distinct_keys (add_delta_days long).

(** ** Example inputs *)

(** The rows of [single_pair] twice: a pair of dates that is repeated. *)
Definition repeated_pair : list PairRecord := single_pair ++ single_pair.

(** A table whose one pair, (2020-01-01, 2020-01-13), has no value. *)
Definition null_pair : list PairRecord :=
  [mkPair (Date.of_ymd 2020 1 1) (Date.of_ymd 2020 1 13) None].

(** An event five days before the instant 0, at latitude 50.0 and longitude
    -123.0, and the centre of a site at that place. *)
Definition garibaldi_quake : QuakeEvent :=
  mkEvent "20240101.0000001" (- 5 * ns_per_day) (Float.of_Z 50) (Float.of_Z (-123)).
Definition garibaldi_centres : gmap string (float * float) :=
  {[ "Garibaldi" := (Float.of_Z 50, Float.of_Z (-123)) ]}.

(** A ring of two points, (-124.0, 49.0) and (-122.0, 51.0). *)
Definition garibaldi_ring : list (number * number) :=
  [ (PyFloat (Float.of_Z (-124)), PyFloat (Float.of_Z 49));
    (PyFloat (Float.of_Z (-122)), PyFloat (Float.of_Z 51)) ].

(** The polygon of a volcano in the GeoJSON of the targets. *)
Definition garibaldi : Feature :=
  mkFeature "A001" "Garibaldi"
    (mkGeometry "Polygon"
       (Rings [garibaldi_ring])).

(** A target of the API, a beam of that target and a beam of a target that
    the API does not list. *)
Definition garibaldi_target : Api.Target :=
  Api.mkTarget "A001" "Garibaldi"
    (Some [garibaldi_ring]).
Definition garibaldi_beam : Api.Beam := Api.mkBeam "3M1" "A001".
Definition stray_beam : Api.Beam := Api.mkBeam "3M2" "A999".

(** The builtin [sum] of Python before 3.12: the values added from the left,
    starting at 0. *)
Definition sum_from_left : list number → result number := add_all (PyInt 0).

(** A bucket with the InSAR pairs of one site and beam, the [beamList.yml]
    that names them, and a disk without files. *)
Definition garibaldi_bucket : gmap string (list PairRecord) :=
  {[ "Garibaldi/3M1/InSAR_Pair_All.csv" := single_insar_pair ]}.
Definition garibaldi_beams : list (string * list string) := [("Garibaldi", ["3M1"])].
Definition empty_disk : FileSystem (list PairRecord) := mkFS ∅ ∅.

(** * Properties *)

(** ** Sorted axes *)

Section sorted_labels.
Implicit Types l : list Z.

Lemma filter_ext_elem (P Q : Z → Prop) `{!∀ x, Decision (P x), !∀ x, Decision (Q x)} l :
  (∀ x, x ∈ l → P x ↔ Q x) → filter P l = filter Q l.
Proof.
  induction l as [|x l IH]; intros HPQ; [done|].
  rewrite !filter_cons. rewrite IH by (intros y Hy; apply HPQ; by right).
  assert (P x ↔ Q x) as Hx by (apply HPQ; by left).
  destruct (decide (P x)), (decide (Q x)); tauto.
Qed.

Lemma filter_all (P : Z → Prop) `{!∀ x, Decision (P x)} l :
  (∀ x, x ∈ l → P x) → filter P l = l.
Proof.
  induction l as [|x l IH]; intros HP; [done|].
  rewrite filter_cons_True by (apply HP; by left).
  f_equal. apply IH. intros y Hy. apply HP. by right.
Qed.

Lemma StronglySorted_filter_le (P : Z → Prop) `{!∀ x, Decision (P x)} l :
  StronglySorted (≤) l → StronglySorted (≤) (filter P l).
Proof.
  induction 1 as [|x l Hl IH Hx]; [constructor|].
  rewrite filter_cons. destruct (decide (P x)); [|done].
  constructor; [done|].
  apply Forall_forall. intros y [_ Hy]%list_elem_of_filter.
  by eapply Forall_forall in Hx.
Qed.

Lemma sorted_head_le l h x :
  StronglySorted (≤) l → head l = Some h → x ∈ l → h ≤ x.
Proof.
  destruct 1 as [|y l Hl Hy]; [done|]. intros [= ->] Hx.
  apply elem_of_cons in Hx as [->|Hx]; [lia|].
  by eapply Forall_forall in Hy.
Qed.

Lemma sorted_le_last l t x :
  StronglySorted (≤) l → last l = Some t → x ∈ l → x ≤ t.
Proof.
  intros Hl [l' ->]%last_Some Hx.
  apply elem_of_app in Hx as [Hx|Hx].
  - eapply StronglySorted_app_1_elem_of; [done..|]. by left.
  - apply list_elem_of_singleton in Hx as ->. lia.
Qed.

Lemma StronglySorted_merge_sort_le l : StronglySorted (≤) (merge_sort (≤) l).
Proof. apply (StronglySorted_merge_sort _). Qed.

Lemma elem_of_merge_sort_le l x : x ∈ merge_sort (≤) l ↔ x ∈ l.
Proof. by rewrite merge_sort_Permutation. Qed.

Lemma elem_of_axis_labels l x : x ∈ axis_labels l ↔ x ∈ l.
Proof. unfold axis_labels. by rewrite elem_of_merge_sort_le, elem_of_remove_dups. Qed.
End sorted_labels.

(** ** Trimming *)

Section trimming.
Context {V : Type}.
Implicit Types df : DataFrame V.

Lemma cell_loc_mask rows cols df d c :
  cell (loc_mask rows cols df) d c =
    if rows d && cols c then cell df d c else None.
Proof.
  unfold cell, loc_mask; simpl.
  destruct (rows d && cols c) eqn:Hm.
  - apply andb_true_iff in Hm as [Hr Hc].
    destruct (cells df !! (d, c)) as [v|] eqn:Hv.
    + by apply map_lookup_filter_Some_2.
    + apply map_lookup_filter_None_2. left. done.
  - apply map_lookup_filter_None_2. right. intros v _ [Hr Hc]; simpl in *.
    rewrite Hr, Hc in Hm. done.
Qed.

Lemma has_value_loc_mask rows cols df d c :
  has_value (loc_mask rows cols df) d c = rows d && cols c && has_value df d c.
Proof.
  unfold has_value. rewrite cell_loc_mask.
  by destruct (rows d && cols c).
Qed.

Lemma existsb_elem_of {A} (p : A → bool) (l : list A) :
  existsb p l = true ↔ ∃ x, x ∈ l ∧ p x = true.
Proof.
  rewrite existsb_exists. by setoid_rewrite list_elem_of_In.
Qed.

Lemma dropna_all_index_loc_mask rows cols df :
  covers rows cols df →
  dropna_all_index (loc_mask rows cols df) = dropna_all_index df.
Proof.
  intros Hcov. unfold dropna_all_index. simpl.
  rewrite list_filter_filter.
  apply filter_ext_elem. intros d Hd.
  rewrite !existsb_elem_of. split.
  - intros [[c [[_ Hc]%list_elem_of_filter Hv]] _].
    rewrite has_value_loc_mask in Hv.
    apply andb_true_iff in Hv as [_ Hv]. eauto.
  - intros (c & Hc & Hv).
    destruct (Hcov d c) as [Hr Hcc]; [done..|].
    split; [|done]. exists c. split.
    + by apply list_elem_of_filter.
    + rewrite has_value_loc_mask, Hr, Hcc. done.
Qed.

Lemma dropna_all_columns_loc_mask rows cols df :
  covers rows cols df →
  dropna_all_columns (loc_mask rows cols df) = dropna_all_columns df.
Proof.
  intros Hcov. unfold dropna_all_columns. simpl.
  rewrite list_filter_filter.
  apply filter_ext_elem. intros c Hc.
  rewrite !existsb_elem_of. split.
  - intros [[d [[_ Hd]%list_elem_of_filter Hv]] _].
    rewrite has_value_loc_mask in Hv.
    apply andb_true_iff in Hv as [_ Hv]. eauto.
  - intros (d & Hd & Hv).
    destruct (Hcov d c) as [Hr Hcc]; [done..|].
    split; [|done]. exists d. split.
    + by apply list_elem_of_filter.
    + rewrite has_value_loc_mask, Hr, Hcc. done.
Qed.

Lemma loc_mask_idemp rows cols df :
  loc_mask rows cols (loc_mask rows cols df) = loc_mask rows cols df.
Proof.
  unfold loc_mask; simpl. f_equal.
  - apply filter_all. by intros d [? _]%list_elem_of_filter.
  - apply filter_all. by intros c [? _]%list_elem_of_filter.
  - apply map_filter_id. by intros [d c] v [_ ?]%map_lookup_filter_Some.
Qed.

Lemma elem_of_dropna_all_index df d :
  d ∈ dropna_all_index df ↔
  d ∈ index df ∧ ∃ c, c ∈ columns df ∧ has_value df d c = true.
Proof.
  unfold dropna_all_index. rewrite list_elem_of_filter, existsb_elem_of. tauto.
Qed.

Lemma elem_of_dropna_all_columns df c :
  c ∈ dropna_all_columns df ↔
  c ∈ columns df ∧ ∃ d, d ∈ index df ∧ has_value df d c = true.
Proof.
  unfold dropna_all_columns. rewrite list_elem_of_filter, existsb_elem_of. tauto.
Qed.
End trimming.

(** ** The edges of a matrix *)

Lemma max_skipna_valid {A} (f : A → option float) (l : list A) :
  (if max_skipna (map f l) is Some _ then true else false) =
  existsb (λ a, if f a is Some _ then true else false) l.
Proof.
  induction l as [|a l IH]; [done|]. simpl.
  destruct (f a); simpl; [|done].
  by destruct (max_skipna (map f l)).
Qed.

Lemma valid_labels_map {V} (f : Z → option V) (l : list Z) :
  valid_labels (map (λ d, (d, f d)) l) =
  filter (λ d, (if f d is Some _ then true else false) = true) l.
Proof.
  unfold valid_labels.
  induction l as [|d l IH]; [done|]. rewrite filter_cons, <-IH. simpl.
  by destruct (f d).
Qed.

Lemma valid_labels_max_columns (df : DataFrame float) :
  valid_labels (max_columns df) = dropna_all_index df.
Proof.
  unfold max_columns, dropna_all_index.
  rewrite (valid_labels_map (λ d, max_skipna (map (λ c, cell df d c) (columns df)))).
  apply filter_ext_elem. intros d _.
  by rewrite max_skipna_valid.
Qed.

Lemma valid_labels_max_index (df : DataFrame float) :
  valid_labels (max_index df) = dropna_all_columns df.
Proof.
  unfold max_index, dropna_all_columns.
  rewrite (valid_labels_map (λ c, max_skipna (map (λ d, cell df d c) (index df)))).
  apply filter_ext_elem. intros c _.
  by rewrite max_skipna_valid.
Qed.

(** What [trim_edges] returns, in terms of the rows and columns that hold a
    value. *)
Lemma trim_edges_eq (M : DataFrame float) :
  trim_edges M =
    match head (dropna_all_columns M), last (dropna_all_columns M) with
    | Some lo, Some hi =>
        Ok (loc_mask (λ d, (0 <=? d) && le_bound d (last (dropna_all_index M)))
                     (λ c, (lo <=? c) && (c <=? hi)) M)
    | _, _ => Raise TypeError
    end.
Proof.
  unfold trim_edges, first_valid_index, last_valid_index.
  rewrite valid_labels_max_columns, valid_labels_max_index.
  destruct (head (dropna_all_columns M)); simpl; [|done].
  by destruct (last (dropna_all_columns M)).
Qed.

Lemma trim_edges_insar_eq (M : DataFrame float) :
  trim_edges_insar M =
    match head (dropna_all_index M), last (dropna_all_index M),
          head (dropna_all_columns M), last (dropna_all_columns M) with
    | Some r0, Some r1, Some c0, Some c1 => Ok (loc_slice r0 r1 c0 c1 M)
    | _, _, _, _ => Raise IndexError
    end.
Proof.
  unfold trim_edges_insar, first_label, last_label.
  destruct (head (dropna_all_index M)); simpl; [|done].
  destruct (last (dropna_all_index M)); simpl; [|done].
  destruct (head (dropna_all_columns M)); simpl; [|done].
  by destruct (last (dropna_all_columns M)).
Qed.

Section edges.
Variable M : DataFrame float.
Hypothesis Hsorted : sorted_axes M.

Lemma dropna_all_index_sorted : StronglySorted (≤) (dropna_all_index M).
Proof.
  apply StronglySorted_filter_le, Sorted_StronglySorted; [apply _|apply Hsorted].
Qed.

Lemma dropna_all_columns_sorted : StronglySorted (≤) (dropna_all_columns M).
Proof.
  apply StronglySorted_filter_le, Sorted_StronglySorted; [apply _|apply Hsorted].
Qed.

(** The box from the first to the last valid row and column holds every
    value. *)
Lemma bounding_box_covers r0 r1 c0 c1 :
  head (dropna_all_index M) = Some r0 →
  last (dropna_all_index M) = Some r1 →
  head (dropna_all_columns M) = Some c0 →
  last (dropna_all_columns M) = Some c1 →
  covers (λ d, (r0 <=? d) && (d <=? r1)) (λ c, (c0 <=? c) && (c <=? c1)) M.
Proof.
  intros Hr0 Hr1 Hc0 Hc1 d c Hd Hc Hv.
  assert (d ∈ dropna_all_index M) as Hd' by (apply elem_of_dropna_all_index; eauto).
  assert (c ∈ dropna_all_columns M) as Hc' by (apply elem_of_dropna_all_columns; eauto).
  pose proof (sorted_head_le _ _ _ dropna_all_index_sorted Hr0 Hd').
  pose proof (sorted_le_last _ _ _ dropna_all_index_sorted Hr1 Hd').
  pose proof (sorted_head_le _ _ _ dropna_all_columns_sorted Hc0 Hc').
  pose proof (sorted_le_last _ _ _ dropna_all_columns_sorted Hc1 Hc').
  split; apply andb_true_iff; split; apply Z.leb_le; lia.
Qed.

(** With no value at a negative baseline, so do the masks of [trim_edges]. *)
Lemma trim_edges_covers c0 c1 :
  valid_baselines M →
  head (dropna_all_columns M) = Some c0 →
  last (dropna_all_columns M) = Some c1 →
  covers (λ d, (0 <=? d) && le_bound d (last (dropna_all_index M)))
         (λ c, (c0 <=? c) && (c <=? c1)) M.
Proof.
  intros Hpos Hc0 Hc1 d c Hd Hc Hv.
  assert (d ∈ dropna_all_index M) as Hd' by (apply elem_of_dropna_all_index; eauto).
  assert (c ∈ dropna_all_columns M) as Hc' by (apply elem_of_dropna_all_columns; eauto).
  destruct (last (dropna_all_index M)) as [r1|] eqn:Hr1.
  - pose proof (Hpos d c Hd Hc Hv).
    pose proof (sorted_le_last _ _ _ dropna_all_index_sorted Hr1 Hd').
    pose proof (sorted_head_le _ _ _ dropna_all_columns_sorted Hc0 Hc').
    pose proof (sorted_le_last _ _ _ dropna_all_columns_sorted Hc1 Hc').
    simpl. split; apply andb_true_iff; split; apply Z.leb_le; lia.
  - apply last_None in Hr1. rewrite Hr1 in Hd'. by apply elem_of_nil in Hd'.
Qed.
End edges.

(** A matrix returned by the coherence trimming is a fixed point of it, when
    no value lies at a negative baseline. *)
Lemma trim_edges_idempotent (M M' : DataFrame float) :
  sorted_axes M → valid_baselines M →
  trim_edges M = Ok M' → trim_edges M' = Ok M'.
Proof.
  intros Hsorted Hpos. rewrite trim_edges_eq.
  destruct (head (dropna_all_columns M)) as [c0|] eqn:Hc0; [|done].
  destruct (last (dropna_all_columns M)) as [c1|] eqn:Hc1; [|done].
  intros [= <-].
  pose proof (trim_edges_covers M Hsorted c0 c1 Hpos Hc0 Hc1) as Hcov.
  rewrite trim_edges_eq.
  rewrite (dropna_all_columns_loc_mask _ _ _ Hcov),
          (dropna_all_index_loc_mask _ _ _ Hcov), Hc0, Hc1.
  by rewrite loc_mask_idemp.
Qed.

(** A matrix returned by the InSAR-pair trimming is a fixed point of it. *)
Lemma trim_edges_insar_idempotent (M M' : DataFrame float) :
  sorted_axes M →
  trim_edges_insar M = Ok M' → trim_edges_insar M' = Ok M'.
Proof.
  intros Hsorted. rewrite trim_edges_insar_eq.
  destruct (head (dropna_all_index M)) as [r0|] eqn:Hr0; [|done].
  destruct (last (dropna_all_index M)) as [r1|] eqn:Hr1; [|done].
  destruct (head (dropna_all_columns M)) as [c0|] eqn:Hc0; [|done].
  destruct (last (dropna_all_columns M)) as [c1|] eqn:Hc1; [|done].
  intros [= <-].
  pose proof (bounding_box_covers M Hsorted r0 r1 c0 c1 Hr0 Hr1 Hc0 Hc1) as Hcov.
  rewrite trim_edges_insar_eq. unfold loc_slice.
  rewrite (dropna_all_columns_loc_mask _ _ _ Hcov),
          (dropna_all_index_loc_mask _ _ _ Hcov), Hr0, Hr1, Hc0, Hc1.
  by rewrite loc_mask_idemp.
Qed.

(** C4. Trimming is idempotent: on a wide matrix (both axes increasing), the
    matrix that the InSAR-pair trimming returns is returned unchanged when it
    is trimmed again, and so is the matrix that the coherence trimming returns
    when the matrix obeys the invariant of the data model (no value at a
    negative temporal baseline). *)
Theorem trimming_idempotent (M M' : DataFrame float) :
  sorted_axes M →
  (valid_baselines M → trim_edges M = Ok M' → trim_edges M' = Ok M') ∧
  (trim_edges_insar M = Ok M' → trim_edges_insar M' = Ok M').
Proof.
  intros Hsorted. split.
  - intros Hpos. by apply trim_edges_idempotent.
  - by apply trim_edges_insar_idempotent.
Qed.

(** ** The pivot *)

Section pivot.
Context {V : Type} (values : PairRecord → option V).

Lemma entries_keys_sublist (long : list LongRow) :
  (omap (pivot_entry values) long).*1 `sublist_of` map pivot_key long.
Proof.
  induction long as [|r long IH]; [done|]. simpl.
  unfold pivot_entry at 1. destruct (values (pair r)); simpl.
  - by apply sublist_skip.
  - by apply sublist_cons.
Qed.

Lemma pivot_Ok (long : list LongRow) :
  NoDup (map pivot_key long) → ∃ W, pivot values long = Ok W.
Proof. intros Hnd. unfold pivot. rewrite decide_True by done. eauto. Qed.

Lemma pivot_inv (long : list LongRow) (W : DataFrame V) :
  pivot values long = Ok W →
  NoDup (map pivot_key long) ∧
  index W = axis_labels (map delta_days long) ∧
  columns W = axis_labels (map (λ r, second_date (pair r)) long) ∧
  cells W = list_to_map (omap (pivot_entry values) long).
Proof.
  unfold pivot. case_decide; [|done]. by intros [= <-].
Qed.

(** A cell of the pivoted frame holds the value of a row of the long
    table. *)
Lemma cell_pivot_Some (long : list LongRow) (W : DataFrame V) d c v :
  pivot values long = Ok W →
  cell W d c = Some v ↔
  ∃ r, r ∈ long ∧ delta_days r = d ∧ second_date (pair r) = c ∧
       values (pair r) = Some v.
Proof.
  intros (Hnd & _ & _ & Hcells)%pivot_inv. unfold cell. rewrite Hcells.
  rewrite <-elem_of_list_to_map
    by exact (sublist_NoDup _ _ Hnd (entries_keys_sublist long)).
  rewrite list_elem_of_omap. unfold pivot_entry, pivot_key. split.
  - intros (r & Hr & He). destruct (values (pair r)) as [v'|] eqn:Hv; [|done].
    simpl in He. injection He as <- <- <-. eauto.
  - intros (r & Hr & <- & <- & Hv). exists r. by rewrite Hv.
Qed.

Lemma pivot_index (long : list LongRow) (W : DataFrame V) d :
  pivot values long = Ok W →
  d ∈ index W ↔ ∃ r, r ∈ long ∧ delta_days r = d.
Proof.
  intros (_ & -> & _)%pivot_inv.
  rewrite elem_of_axis_labels, list_elem_of_fmap.
  split; [intros (r & -> & ?)|intros (r & ? & <-)]; eauto.
Qed.

Lemma pivot_columns (long : list LongRow) (W : DataFrame V) c :
  pivot values long = Ok W →
  c ∈ columns W ↔ ∃ r, r ∈ long ∧ second_date (pair r) = c.
Proof.
  intros (_ & _ & -> & _)%pivot_inv.
  rewrite elem_of_axis_labels, list_elem_of_fmap.
  split; [intros (r & -> & ?)|intros (r & ? & <-)]; eauto.
Qed.

Lemma pivot_columns_sorted (long : list LongRow) (W : DataFrame V) :
  pivot values long = Ok W → Sorted (≤) (columns W).
Proof.
  intros (_ & _ & -> & _)%pivot_inv. apply (Sorted_merge_sort _).
Qed.
End pivot.

(** ** The zero baseline *)

Section zero_baseline.
Lemma cleaned_index W d : d ∈ index (cleaned W) ↔ d = 0 ∨ d ∈ index W.
Proof.
  unfold cleaned; simpl. rewrite elem_of_merge_sort_le.
  case_decide as H0; [|rewrite elem_of_app, list_elem_of_singleton; tauto].
  split; [by right|]. by intros [->|?].
Qed.

Lemma cleaned_cell W d c :
  cell (cleaned W) d c =
    if decide (d = 0) then None else round_decimals 2 <$> cell W d c.
Proof.
  unfold cleaned, cell; simpl. rewrite lookup_fmap.
  case_decide as Hd.
  - rewrite map_lookup_filter_None_2; [done|].
    right. intros v _ Hne. by apply Hne.
  - destruct (cells W !! (d, c)) as [v|] eqn:Hv.
    + by rewrite (map_lookup_filter_Some_2 _ _ _ v).
    + rewrite map_lookup_filter_None_2; [done|by left].
Qed.

Lemma cleaned_has_value W d c :
  has_value (cleaned W) d c = true ↔ d ≠ 0 ∧ has_value W d c = true.
Proof.
  unfold has_value at 1. rewrite cleaned_cell. unfold has_value.
  case_decide; destruct (cell W d c); simpl; intuition congruence.
Qed.

Lemma cleaned_sorted W : Sorted (≤) (columns W) → sorted_axes (cleaned W).
Proof. split; [apply (Sorted_merge_sort _)|done]. Qed.

Context (long : list LongRow) (W : DataFrame float).
Hypothesis Hpivot : pivot value long = Ok W.

Lemma cleaned_value d c :
  d ∈ index (cleaned W) → c ∈ columns (cleaned W) →
  has_value (cleaned W) d c = true ↔
  d ≠ 0 ∧ ∃ r, r ∈ long ∧ delta_days r = d ∧ second_date (pair r) = c ∧
               value (pair r) ≠ None.
Proof.
  intros _ _. rewrite cleaned_has_value. unfold has_value.
  split; intros [Hd Hv]; (split; [done|]).
  - destruct (cell W d c) as [v|] eqn:Hc; [|done].
    apply (cell_pivot_Some _ _ _ _ _ _ Hpivot) in Hc as (r & ? & ? & ? & Hr).
    exists r. by rewrite Hr.
  - destruct Hv as (r & Hr & Hd' & Hc & Hv).
    destruct (value (pair r)) as [v|] eqn:Hv'; [|done].
    rewrite (proj2 (cell_pivot_Some _ _ _ d c v Hpivot)); [done|eauto].
Qed.

Lemma cleaned_valid_baselines : valid_long long → valid_baselines (cleaned W).
Proof.
  intros Hlong d c Hd Hc Hv.
  apply cleaned_value in Hv; [|done..].
  destruct Hv as (Hd0 & r & Hr & <- & Hc' & Hv). by apply Hlong.
Qed.

Lemma cleaned_axes : sorted_axes (cleaned W).
Proof. eapply cleaned_sorted, pivot_columns_sorted, Hpivot. Qed.

(** A valued pair of distinct dates gives the frame a valid row and a valid
    column. *)
Lemma cleaned_valid_row r :
  r ∈ long → value (pair r) ≠ None → delta_days r ≠ 0 →
  delta_days r ∈ dropna_all_index (cleaned W) ∧
  second_date (pair r) ∈ dropna_all_columns (cleaned W).
Proof.
  intros Hr Hv Hd.
  assert (delta_days r ∈ index (cleaned W)) as Hi.
  { apply cleaned_index. right. apply (pivot_index _ _ _ _ Hpivot). eauto. }
  assert (second_date (pair r) ∈ columns (cleaned W)) as Hc.
  { apply (pivot_columns _ _ _ _ Hpivot). eauto. }
  assert (has_value (cleaned W) (delta_days r) (second_date (pair r)) = true) as Hh.
  { apply cleaned_value; [done..|]. split; [done|]. by exists r. }
  split.
  - apply elem_of_dropna_all_index. eauto.
  - apply elem_of_dropna_all_columns. eauto.
Qed.

Lemma dropna_all_index_pos d :
  valid_long long → d ∈ dropna_all_index (cleaned W) → 0 < d.
Proof.
  intros Hlong (Hd & c & Hc & Hv)%elem_of_dropna_all_index.
  pose proof (cleaned_valid_baselines Hlong d c Hd Hc Hv).
  apply cleaned_has_value in Hv as [? _]. lia.
Qed.
End zero_baseline.

(** ** The two reshapers *)

Lemma pivot_and_clean_eq long W :
  pivot value long = Ok W → pivot_and_clean long = trim_edges (cleaned W).
Proof. intros HW. unfold pivot_and_clean. by rewrite HW. Qed.

Lemma pivot_and_clean_insar_eq long W :
  pivot value long = Ok W →
  pivot_and_clean_insar long = trim_edges_insar (cleaned W).
Proof. intros HW. unfold pivot_and_clean_insar. by rewrite HW. Qed.

Lemma pivot_and_clean_inv long M :
  pivot_and_clean long = Ok M →
  ∃ W, pivot value long = Ok W ∧
       trim_edges (cleaned W) = Ok M.
Proof.
  unfold pivot_and_clean. destruct (pivot value long) as [W|]; [|done]. eauto.
Qed.

Lemma pivot_and_clean_insar_inv long M :
  pivot_and_clean_insar long = Ok M →
  ∃ W, pivot value long = Ok W ∧
       trim_edges_insar (cleaned W) = Ok M.
Proof.
  unfold pivot_and_clean_insar. destruct (pivot value long) as [W|]; [|done]. eauto.
Qed.

Lemma head_is_Some_elem {A} (l : list A) x : x ∈ l → is_Some (head l).
Proof. destruct l; [by intros ?%elem_of_nil|by eexists]. Qed.

Lemma last_is_Some_elem {A} (l : list A) x : x ∈ l → is_Some (last l).
Proof.
  intros Hx. destruct (last l) eqn:Hl; [by eexists|].
  apply last_None in Hl as ->. by apply elem_of_nil in Hx.
Qed.

(** [pivot_and_clean] returns a matrix as soon as the keys are distinct and
    one pair of distinct dates has a value. *)
Lemma pivot_and_clean_returns long r :
  distinct_keys long →
  r ∈ long → value (pair r) ≠ None → delta_days r ≠ 0 →
  returns (pivot_and_clean long).
Proof.
  intros Hnd Hr Hv Hd.
  destruct (pivot_Ok value long Hnd) as [W HW].
  destruct (cleaned_valid_row long W HW r Hr Hv Hd) as [_ Hc].
  unfold returns. rewrite (pivot_and_clean_eq _ _ HW), trim_edges_eq.
  destruct (head_is_Some_elem _ _ Hc) as [c0 ->].
  destruct (last_is_Some_elem _ _ Hc) as [c1 ->]. eauto.
Qed.

Lemma pivot_and_clean_insar_returns long r :
  distinct_keys long →
  r ∈ long → value (pair r) ≠ None → delta_days r ≠ 0 →
  returns (pivot_and_clean_insar long).
Proof.
  intros Hnd Hr Hv Hd.
  destruct (pivot_Ok value long Hnd) as [W HW].
  destruct (cleaned_valid_row long W HW r Hr Hv Hd) as [Hi Hc].
  unfold returns. rewrite (pivot_and_clean_insar_eq _ _ HW), trim_edges_insar_eq.
  destruct (head_is_Some_elem _ _ Hi) as [r0 ->].
  destruct (last_is_Some_elem _ _ Hi) as [r1 ->].
  destruct (head_is_Some_elem _ _ Hc) as [c0 ->].
  destruct (last_is_Some_elem _ _ Hc) as [c1 ->]. eauto.
Qed.

(** The coherence matrix keeps the zero baseline, all null, whenever the long
    table has no value at a negative baseline. *)
Lemma pivot_and_clean_zero_row long M :
  valid_long long →
  pivot_and_clean long = Ok M →
  0 ∈ index M ∧ ∀ c, cell M 0 c = None.
Proof.
  intros Hlong (W & HW & Htrim)%pivot_and_clean_inv.
  rewrite trim_edges_eq in Htrim.
  destruct (head (dropna_all_columns _)) as [c0|] eqn:Hc0; [|done].
  destruct (last (dropna_all_columns _)) as [c1|] eqn:Hc1; [|done].
  injection Htrim as <-. split.
  - apply list_elem_of_filter. split; [|apply cleaned_index; by left].
    apply head_Some_elem_of, elem_of_dropna_all_columns in Hc0
      as (Hc & d & Hd & Hv).
    assert (d ∈ dropna_all_index (cleaned W))
      as Hd' by (apply elem_of_dropna_all_index; eauto).
    destruct (last_is_Some_elem _ _ Hd') as [r1 Hr1]. rewrite Hr1. simpl.
    apply last_Some_elem_of in Hr1.
    pose proof (dropna_all_index_pos long W HW r1 Hlong Hr1).
    apply Z.leb_le. lia.
  - intros c. rewrite cell_loc_mask, cleaned_cell.
    rewrite decide_True by done. by destruct (_ && _).
Qed.

(** The InSAR-pair matrix never has it: its first row is the first row that
    holds a value, and that row lies at a positive baseline. *)
Lemma pivot_and_clean_insar_no_zero_row long M :
  valid_long long →
  pivot_and_clean_insar long = Ok M →
  0 ∉ index M.
Proof.
  intros Hlong (W & HW & Htrim)%pivot_and_clean_insar_inv.
  rewrite trim_edges_insar_eq in Htrim.
  destruct (head (dropna_all_index _)) as [r0|] eqn:Hr0; [|done].
  destruct (last (dropna_all_index _)) as [r1|]; [|done].
  destruct (head (dropna_all_columns _)) as [c0|]; [|done].
  destruct (last (dropna_all_columns _)) as [c1|]; [|done].
  injection Htrim as <-.
  intros [Hm _]%list_elem_of_filter.
  apply head_Some_elem_of in Hr0.
  pose proof (dropna_all_index_pos long W HW r0 Hlong Hr0).
  apply andb_true_iff in Hm as [Hm%Z.leb_le _]. lia.
Qed.

(** The matrices that the reshapers return are trimmed matrices: trimming
    them again changes nothing. *)
Lemma pivot_and_clean_trimmed long M :
  valid_long long → pivot_and_clean long = Ok M → trim_edges M = Ok M.
Proof.
  intros Hlong (W & HW & Htrim)%pivot_and_clean_inv.
  eapply trim_edges_idempotent; [|by apply (cleaned_valid_baselines long W)|done].
  by apply (cleaned_axes long W).
Qed.

Lemma pivot_and_clean_insar_trimmed long M :
  pivot_and_clean_insar long = Ok M → trim_edges_insar M = Ok M.
Proof.
  intros (W & HW & Htrim)%pivot_and_clean_insar_inv.
  eapply trim_edges_insar_idempotent; [|done].
  by apply (cleaned_axes long W).
Qed.

(** [add_delta_days] turns the order of the dates into the sign of the
    baseline. *)
Lemma add_delta_days_valid recs :
  ordered_dates recs → valid_long (add_delta_days recs).
Proof.
  intros Hrecs r (p & -> & Hp)%list_elem_of_fmap Hv. simpl in *.
  specialize (Hrecs p Hp Hv). lia.
Qed.

(** ** The reshapers on the example tables *)

(** C3. The coherence rows [(2020-01-01, 2020-01-13, 0.9)] give the matrix
    with the rows 0 and 12 and the column 2020-01-13, whose only cell with a
    value is (12, 2020-01-13) = 0.90; the row 0 is null. *)
Theorem single_pair_matrix :
  ∃ M, pivot_and_clean (add_delta_days single_pair) = Ok M ∧
       index M = [0; 12] ∧
       columns M = [Date.of_ymd 2020 1 13] ∧
       cells M = {[ (12, Date.of_ymd 2020 1 13) := Float.ratio 90 100 ]} ∧
       ∀ c, cell M 0 c = None.
Proof.
  eexists. split; [vm_compute; reflexivity|].
  match goal with
  | |- index ?M = _ ∧ _ =>
      assert (cells M = {[ (12, Date.of_ymd 2020 1 13) := Float.ratio 90 100 ]})
        as HM by (vm_compute; reflexivity)
  end.
  split; [done|]. split; [done|]. split; [exact HM|].
  intros c. unfold cell. etrans; [exact (f_equal (λ m, m !! (0, c)) HM)|].
  by apply lookup_singleton_ne.
Qed.

(** C1. The InSAR-pair reshaper on the rows [(2020-01-01, 2020-01-13, 1.0)]
    returns a matrix whose only row is [delta_days = 12]: the zero baseline
    that the function inserts is trimmed away again, so the matrix has no row
    [delta_days = 0]. *)
Theorem insar_matrix_lacks_zero_row :
  ∃ M, pivot_and_clean_insar (add_delta_days single_insar_pair) = Ok M ∧
       index M = [12] ∧ 0 ∉ index M.
Proof.
  eexists. split; [vm_compute; reflexivity|]. split; [done|].
  simpl. by intros [=]%list_elem_of_singleton.
Qed.

(** ** The reference-date matrix *)

Section dates.
Context {V : Type} (long : list LongRow) (coh_wide : DataFrame V).

Lemma pivot_and_clean_dates_inv D :
  pivot_and_clean_dates long coh_wide = Ok D →
  ∃ P, pivot (λ r, Some (first_date r)) (drop_reversed long) = Ok P ∧
       index D = index P ∧
       columns D =
         merge_sort (≤) (elements
           (list_to_set (columns P) ∩ list_to_set (columns coh_wide) : gset Z)) ∧
       cells D =
         filter (λ kv, kv.1.2 ∈ columns D) (Date.strftime_b_d_Y <$> cells P).
Proof.
  unfold pivot_and_clean_dates.
  destruct (pivot _ (drop_reversed long)) as [P|]; [|done]. simpl.
  unfold getitem_columns. case_decide; [|done].
  intros [= <-]. exists P. done.
Qed.

(** The function returns whenever the keys of the long table are
    distinct. *)
Lemma pivot_and_clean_dates_returns :
  distinct_keys long → returns (pivot_and_clean_dates long coh_wide).
Proof.
  intros Hnd. unfold returns, pivot_and_clean_dates. 
  destruct (pivot_Ok (λ r, Some (first_date r)) (drop_reversed long)) as [P ->].
  { eapply sublist_NoDup; [exact Hnd|]. apply fmap_sublist, sublist_filter. }
  simpl. unfold getitem_columns. rewrite decide_True; [eauto|].
  apply Forall_forall. intros c. simpl.
  rewrite elem_of_merge_sort_le, elem_of_elements, elem_of_intersection,
    !elem_of_list_to_set. tauto.
Qed.

Context (D : DataFrame string).
Hypothesis HD : pivot_and_clean_dates long coh_wide = Ok D.

(** Its columns: the second dates of the kept rows that are columns of the
    value matrix, in increasing order. *)
Lemma pivot_and_clean_dates_columns c :
  c ∈ columns D ↔
  (∃ r, r ∈ long ∧ first_date (pair r) ≤ second_date (pair r) ∧
        second_date (pair r) = c) ∧
  c ∈ columns coh_wide.
Proof.
  destruct (pivot_and_clean_dates_inv D HD) as (P & HP & _ & -> & _).
  rewrite elem_of_merge_sort_le, elem_of_elements, elem_of_intersection,
    !elem_of_list_to_set.
  rewrite (pivot_columns _ _ _ c HP). unfold drop_reversed.
  setoid_rewrite list_elem_of_filter.
  split; intros [(r & Hr & Hc) Hcw]; (split; [|done]); exists r.
  - destruct Hr. split_and!; [done|lia|done].
  - destruct Hc as [? ?]. split_and!; [lia|done..].
Qed.

Lemma pivot_and_clean_dates_sorted : Sorted (≤) (columns D).
Proof.
  destruct (pivot_and_clean_dates_inv D HD) as (P & _ & _ & -> & _).
  apply (Sorted_merge_sort _).
Qed.

Lemma pivot_and_clean_dates_subset c : c ∈ columns D → c ∈ columns coh_wide.
Proof. by intros [_ ?]%pivot_and_clean_dates_columns. Qed.

(** Its cells: the first date of the pair, as [Mon dd, yyyy]. *)
Lemma pivot_and_clean_dates_cell d c s :
  cell D d c = Some s →
  ∃ r, r ∈ long ∧ delta_days r = d ∧ second_date (pair r) = c ∧
       first_date (pair r) ≤ second_date (pair r) ∧
       s = Date.strftime_b_d_Y (first_date (pair r)).
Proof.
  destruct (pivot_and_clean_dates_inv D HD) as (P & HP & _ & _ & Hcells).
  unfold cell. rewrite Hcells.
  intros [Hs _]%map_lookup_filter_Some.
  rewrite lookup_fmap in Hs.
  destruct (cells P !! (d, c)) as [z|] eqn:Hz; [|done].
  injection Hs as <-.
  apply (cell_pivot_Some _ _ _ _ _ _ HP) in Hz as (r & Hr & ? & ? & Hz).
  injection Hz as <-.
  unfold drop_reversed in Hr. apply list_elem_of_filter in Hr as [? ?].
  exists r. split_and!; [done..|lia|done].
Qed.

(** The two matrices have the same columns when every column of the value
    matrix is the second date of some pair in order. *)
Lemma pivot_and_clean_dates_same_columns :
  Sorted (≤) (columns coh_wide) → NoDup (columns coh_wide) →
  (∀ c, c ∈ columns coh_wide →
        ∃ r, r ∈ long ∧ first_date (pair r) ≤ second_date (pair r) ∧
             second_date (pair r) = c) →
  columns D = columns coh_wide.
Proof.
  intros Hsorted Hnd Hall.
  apply (Sorted_unique (≤)); [apply pivot_and_clean_dates_sorted|done|].
  apply NoDup_Permutation; [|done|].
  - destruct (pivot_and_clean_dates_inv D HD) as (P & _ & _ & -> & _).
    rewrite merge_sort_Permutation. apply NoDup_elements.
  - intros c. rewrite pivot_and_clean_dates_columns. split; [tauto|]. auto.
Qed.
End dates.

(** The reference dates of the example: the pair (2020-01-01, 2020-01-13)
    shows "Jan 01, 2020" at (12, 2020-01-13). *)
Example single_pair_date_matrix :
  ∃ coh_wide date_wide,
    pivot_and_clean (add_delta_days single_pair) = Ok coh_wide ∧
    pivot_and_clean_dates (add_delta_days single_pair) coh_wide = Ok date_wide ∧
    columns date_wide = columns coh_wide ∧
    cell date_wide 12 (Date.of_ymd 2020 1 13) = Some "Jan 01, 2020".
Proof.
  eexists _, _. split; [vm_compute; reflexivity|].
  split; [vm_compute; reflexivity|]. split; [done|]. by vm_compute.
Qed.

(** C8. On a coherence table that [_read_coherence] accepts, with a pair in
    reverse order and a null coherence, the reference-date matrix lacks a
    column of the coherence matrix: the two do not have the same columns. *)
Theorem date_matrix_misses_column :
  _read_coherence (λ _, Some reversed_null_pair) (Some "CoherenceMatrix.csv")
    = Ok (Some reversed_null_pair) ∧
  ∃ coh_wide date_wide,
    pivot_and_clean (add_delta_days reversed_null_pair) = Ok coh_wide ∧
    pivot_and_clean_dates (add_delta_days reversed_null_pair) coh_wide
      = Ok date_wide ∧
    columns coh_wide =
      [Date.of_ymd 2020 1 10; Date.of_ymd 2020 1 15; Date.of_ymd 2020 1 20] ∧
    columns date_wide = [Date.of_ymd 2020 1 10; Date.of_ymd 2020 1 20].
Proof.
  split; [done|].
  eexists _, _. split; [vm_compute; reflexivity|].
  split; [vm_compute; reflexivity|]. done.
Qed.

(** ** Reading the long tables *)

Lemma existsb_wrong_order (t : list PairRecord) :
  existsb wrong_order t = true ↔
  ∃ r, r ∈ t ∧ value r ≠ None ∧ second_date r < first_date r.
Proof.
  rewrite existsb_elem_of. unfold wrong_order.
  split; intros (r & Hr & H); exists r; (split; [done|]).
  - apply andb_true_iff in H as [?%Z.ltb_lt ?]. by destruct (value r).
  - destruct H as [? ?]. apply andb_true_iff. split; [by apply Z.ltb_lt|].
    by destruct (value r).
Qed.

Lemma ordered_dates_existsb (t : list PairRecord) :
  ordered_dates t → existsb wrong_order t = false.
Proof.
  intros Ht. apply not_true_is_false.
  intros (r & Hr & Hv & Hlt)%existsb_wrong_order.
  specialize (Ht r Hr Hv). lia.
Qed.

(** C2. A coherence or InSAR-pair table with a record that has a value and
    [second_date < first_date] is refused with a [RuntimeError]; a table where
    every record with a value has [second_date >= first_date] is returned as
    it was read. *)
Theorem read_checks_date_order
    (read_csv : string → option (list PairRecord))
    (path : string) (t : list PairRecord) :
  read_csv path = Some t →
  ((∃ r, r ∈ t ∧ value r ≠ None ∧ second_date r < first_date r) →
   _read_coherence read_csv (Some path) = Raise RuntimeError ∧
   _read_insar_pair read_csv (Some path) = Raise RuntimeError) ∧
  (ordered_dates t →
   _read_coherence read_csv (Some path) = Ok (Some t) ∧
   _read_insar_pair read_csv (Some path) = Ok (Some t)).
Proof.
  intros Hread. unfold _read_coherence, _read_insar_pair. rewrite Hread. split.
  - intros Hbad%existsb_wrong_order. by rewrite Hbad.
  - intros Hok%ordered_dates_existsb. by rewrite Hok.
Qed.

(** ** Seismic events *)

Lemma colour_of_marker_colour (age_days : Z) :
  colour_of age_days = marker_colour age_days.
Proof.
  unfold colour_of, marker_colour. simpl.
  repeat case_decide;
    repeat match goal with
           | |- context [?a <=? ?b] => destruct (Z.leb_spec a b)
           | |- context [?a <? ?b] => destruct (Z.ltb_spec a b)
           end; simpl; try done; lia.
Qed.

(** On an answer with events, every event gets its row, in order, with its
    age and the colour of that age. *)
Lemma colour_events_rows now (text : list QuakeEvent) :
  text ≠ [] →
  ∃ df, colour_events now text = Ok df ∧
        event <$> quake_rows df = text ∧
        Forall (coloured_by_age now) (quake_rows df).
Proof.
  intros Hne. unfold colour_events. destruct text as [|e0 text]; [done|].
  eexists. split; [done|]. split.
  - cbn [quake_rows]. rewrite <- list_fmap_compose. apply list_fmap_id.
  - apply Forall_forall. intros row (e & -> & _)%list_elem_of_fmap.
    split; [done|]. apply colour_of_marker_colour.
Qed.

(** C5. Every event of a successful answer (status 200) has its row in the
    returned table, in the order of the answer, coloured by its age in whole
    days: red up to 2 days, orange from 3 to 7, yellow from 8 to 31, white
    beyond. For the query around a site these are the events in the box of
    the site. Events 1, 5, 15 and 40 days old are red, orange, yellow and
    white. *)
Theorem quake_colour_by_age (now : Z) (text : list QuakeEvent)
    (initial_target : string) (target_centres : gmap string (float * float)) :
  (text ≠ [] →
   ∃ df, get_latest_quakes_chis_fsdn now (Response 200 text) = Ok df ∧
         event <$> quake_rows df = text ∧
         Forall (coloured_by_age now) (quake_rows df)) ∧
  (∀ lat lon,
     target_centres !! initial_target = Some (lat, lon) →
     List.filter (in_box lat lon) text ≠ [] →
     ∃ df, get_latest_quakes_chis_fsdn_site now (Response 200 text)
             initial_target target_centres = Ok df ∧
           event <$> quake_rows df = List.filter (in_box lat lon) text ∧
           Forall (coloured_by_age now) (quake_rows df)) ∧
  colour_of (time_delta now (now - 1 * ns_per_day)) = "red" ∧
  colour_of (time_delta now (now - 5 * ns_per_day)) = "orange" ∧
  colour_of (time_delta now (now - 15 * ns_per_day)) = "yellow" ∧
  colour_of (time_delta now (now - 40 * ns_per_day)) = "white".
Proof.
  assert (∀ k, time_delta now (now - k * ns_per_day) = k) as Hage.
  { intros k. unfold time_delta.
    replace (now - k * ns_per_day - now) with (- k * ns_per_day) by lia.
    rewrite Z.div_mul by done. lia. }
  split_and!.
  - intros Hne. by apply colour_events_rows.
  - intros lat lon Hc Hne. unfold get_latest_quakes_chis_fsdn_site. rewrite Hc.
    by apply colour_events_rows.
  - by rewrite Hage.
  - by rewrite Hage.
  - by rewrite Hage.
  - by rewrite Hage.
Qed.

(** C6. Outside an answer with status 200, [get_latest_quakes_chis_fsdn]
    reaches [return df] with [df] unbound: the caller gets an
    [UnboundLocalError], not a table. *)
Theorem quakes_non_200_raises (now status_code : Z) (text : list QuakeEvent) :
  status_code ≠ 200 →
  get_latest_quakes_chis_fsdn now (Response status_code text)
    = Raise UnboundLocalError.
Proof.
  intros Hstatus. unfold get_latest_quakes_chis_fsdn. by rewrite decide_False.
Qed.

(** Both functions return a table without rows when the connection fails. *)
Lemma quakes_connection_failed now initial_target target_centres :
  get_latest_quakes_chis_fsdn now ConnectionFailed = Ok no_events ∧
  (is_Some (target_centres !! initial_target) →
   get_latest_quakes_chis_fsdn_site now ConnectionFailed initial_target target_centres
     = Ok no_events) ∧
  quake_rows no_events = [].
Proof.
  split_and!; [done| |done].
  intros [[lat lon] Hc]. unfold get_latest_quakes_chis_fsdn_site. by rewrite Hc.
Qed.

(** ** The summary table *)

(** C7. With a null GeoJSON, [build_summary_table] returns the table with the
    columns Site, Latest SAR Image and Unrest and one row, "API Connection
    Error" in each cell. *)
Theorem build_summary_table_null
    (unrest_table_df : list (string * bool)) (get_target : string → target_outcome)
    (today : Z) (strptime_Ymd : string → result Z) :
  build_summary_table unrest_table_df get_target today strptime_Ymd None
    = Ok api_connection_error ∧
  summary_columns api_connection_error = ["Site"; "Latest SAR Image"; "Unrest"] ∧
  summary_rows api_connection_error = [replicate 3 (Str "API Connection Error")].
Proof. done. Qed.

(** ** Centroids *)









(** ** [parse_dates] *)

Section strings.
Implicit Types s a r : string.

Lemma length_append a r :
  String.length (a +:+ r) = (String.length a + String.length r)%nat.
Proof. induction a as [|c a IH]; simpl; [done|]. by rewrite IH. Qed.

Lemma length_substring s : ∀ n m,
  String.length (String.substring n m s) = (m `min` (String.length s - n))%nat.
Proof.
  induction s as [|c s IH]; intros [|n] [|m]; simpl; try done;
    rewrite IH; lia.
Qed.

Lemma substring_app_exact a r :
  String.substring 0 (String.length a) (a +:+ r) = a.
Proof.
  induction a as [|c a IH]; simpl; [by destruct r|]. by rewrite IH.
Qed.

Lemma substring_exact a : String.substring 0 (String.length a) a = a.
Proof. induction a as [|c a IH]; simpl; [done|]. by rewrite IH. Qed.

Lemma substring_skip a r n m :
  String.substring (String.length a + n) m (a +:+ r) = String.substring n m r.
Proof. induction a as [|c a IH]; simpl; done. Qed.

Lemma slice_length_ge i j s :
  String.length (slice i j s) = (j - i)%nat → (i < j)%nat →
  (j ≤ String.length s)%nat.
Proof. unfold slice. rewrite length_substring. lia. Qed.

Lemma eight_digits_length a : eight_digits a = true → String.length a = 8%nat.
Proof.
  unfold eight_digits. intros [_ H]%andb_true_iff. by apply Nat.eqb_eq.
Qed.

(** The shape of a formatted date. *)
Lemma format_date_ymd (y m d : string) :
  String.length y = 4%nat → String.length m = 2%nat → String.length d = 2%nat →
  format_date (y +:+ m +:+ d) = y +:+ "/" +:+ m +:+ "/" +:+ d.
Proof.
  intros Hy Hm Hd. unfold format_date, slice.
  rewrite !length_append, Hy, Hm, Hd. simpl Nat.sub.
  rewrite <-Hy at 1. rewrite substring_app_exact.
  replace 4%nat with (String.length y + 0)%nat at 1 by lia.
  rewrite substring_skip. rewrite <-Hm at 1. rewrite substring_app_exact.
  replace 6%nat with (String.length y + (String.length m + 0))%nat by lia.
  rewrite !substring_skip. rewrite <-Hd at 1. by rewrite substring_exact.
Qed.

(** The two slices of a string made of a first date, four characters and
    a second date. *)
Lemma slices_of_pair a sep b rest :
  String.length a = 8%nat → String.length sep = 4%nat → String.length b = 8%nat →
  slice 0 8 (a +:+ sep +:+ b +:+ rest) = a ∧
  slice 12 20 (a +:+ sep +:+ b +:+ rest) = b.
Proof.
  intros Ha Hsep Hb. unfold slice. simpl Nat.sub. split.
  - rewrite <-Ha at 1. apply substring_app_exact.
  - replace 12%nat with (String.length a + (String.length sep + 0))%nat by lia.
    rewrite !substring_skip. rewrite <-Hb at 1. apply substring_app_exact.
Qed.
End strings.

Lemma parse_dates_eq (s : string) :
  parse_dates s =
    if (String.length s <? 19)%nat || negb (eight_digits (slice 0 8 s))
       || negb (eight_digits (slice 12 20 s))
    then Raise ValueError
    else Ok (format_date (slice 0 8 s) +:+ " - " +:+ format_date (slice 12 20 s)).
Proof.
  unfold parse_dates.
  destruct (String.length s <? 19)%nat; [done|].
  destruct (eight_digits (slice 0 8 s)); [|done].
  by destruct (eight_digits (slice 12 20 s)).
Qed.

(** C9. [parse_dates] raises, and then a [ValueError], exactly when the
    string has fewer than 19 characters or one of the slices [0:8] and
    [12:20] is not made of eight digits; when both are, it returns the two
    slices as [yyyy/mm/dd - yyyy/mm/dd]. The characters 8 to 11 and those
    after the second date play no part, and the digits need not form a date
    of the calendar. *)
Theorem parse_dates_spec (s : string) :
  (raises (parse_dates s) ↔
     (String.length s < 19)%nat ∨
     eight_digits (slice 0 8 s) = false ∨
     eight_digits (slice 12 20 s) = false) ∧
  (∀ e, parse_dates s = Raise e → e = ValueError) ∧
  (eight_digits (slice 0 8 s) = true → eight_digits (slice 12 20 s) = true →
   parse_dates s =
     Ok (format_date (slice 0 8 s) +:+ " - " +:+ format_date (slice 12 20 s))) ∧
  (∀ y1 m1 d1 sep y2 m2 d2 rest : string,
     String.length y1 = 4%nat → String.length m1 = 2%nat → String.length d1 = 2%nat →
     String.length sep = 4%nat →
     String.length y2 = 4%nat → String.length m2 = 2%nat → String.length d2 = 2%nat →
     isdigit (y1 +:+ m1 +:+ d1) = true → isdigit (y2 +:+ m2 +:+ d2) = true →
     parse_dates ((y1 +:+ m1 +:+ d1) +:+ sep +:+ (y2 +:+ m2 +:+ d2) +:+ rest) =
       Ok ((y1 +:+ "/" +:+ m1 +:+ "/" +:+ d1) +:+ " - "
           +:+ (y2 +:+ "/" +:+ m2 +:+ "/" +:+ d2))).
Proof.
  assert (∀ t : string,
    eight_digits (slice 0 8 t) = true → eight_digits (slice 12 20 t) = true →
    parse_dates t =
      Ok (format_date (slice 0 8 t) +:+ " - " +:+ format_date (slice 12 20 t)))
    as Hok.
  { intros t H1 H2. rewrite parse_dates_eq, H1, H2.
    apply eight_digits_length, slice_length_ge in H2; [|lia].
    destruct (Nat.ltb_spec (String.length t) 19); [lia|done]. }
  split_and!.
  - rewrite parse_dates_eq. unfold raises.
    destruct (Nat.ltb_spec (String.length s) 19) as [Hlen|Hlen]; simpl.
    { split; [by left|eauto]. }
    destruct (eight_digits (slice 0 8 s)); simpl; [|split; eauto].
    destruct (eight_digits (slice 12 20 s)); simpl; [|split; eauto].
    split; [by intros [e ?]|]. intros [?|[?|?]]; [lia|done..].
  - intros e. rewrite parse_dates_eq. case_match; [|done]. by intros [= <-].
  - apply Hok.
  - intros y1 m1 d1 sep y2 m2 d2 rest Hy1 Hm1 Hd1 Hsep Hy2 Hm2 Hd2 Hdig1 Hdig2.
    assert (String.length (y1 +:+ m1 +:+ d1) = 8%nat) as Ha
      by (rewrite !length_append; lia).
    assert (String.length (y2 +:+ m2 +:+ d2) = 8%nat) as Hb
      by (rewrite !length_append; lia).
    destruct (slices_of_pair _ sep _ rest Ha Hsep Hb) as [Hs1 Hs2].
    rewrite Hok; rewrite ?Hs1, ?Hs2.
    + by rewrite !format_date_ymd.
    + unfold eight_digits. by rewrite Hdig1, Ha.
    + unfold eight_digits. by rewrite Hdig2, Hb.
Qed.

(** ** The theorems at concrete inputs *)

Lemma untrimmed_matrix_sorted : sorted_axes untrimmed_matrix.
Proof. split; repeat constructor; done. Qed.

Lemma untrimmed_matrix_valid : valid_baselines untrimmed_matrix.
Proof.
  intros d c Hd _ _. simpl in Hd.
  repeat (apply elem_of_cons in Hd as [->|Hd]); [done..|].
  by apply elem_of_nil in Hd.
Qed.

Lemma trimming_idempotent_witness :
  sorted_axes untrimmed_matrix ∧ valid_baselines untrimmed_matrix ∧
  (∃ M', trim_edges untrimmed_matrix = Ok M' ∧ trim_edges M' = Ok M') ∧
  (∃ M', trim_edges_insar untrimmed_matrix = Ok M' ∧ trim_edges_insar M' = Ok M').
Proof.
  split; [exact untrimmed_matrix_sorted|].
  split; [exact untrimmed_matrix_valid|]. split.
  - eexists. split; [vm_compute; reflexivity|].
    apply (proj1 (trimming_idempotent untrimmed_matrix _ untrimmed_matrix_sorted));
      [exact untrimmed_matrix_valid|vm_compute; reflexivity].
  - eexists. split; [vm_compute; reflexivity|].
    apply (proj2 (trimming_idempotent untrimmed_matrix _ untrimmed_matrix_sorted)).
    vm_compute; reflexivity.
Defined.

(** The invariant of the data model is needed for the coherence trimming:
    with a value at a negative baseline, the trimmed matrix keeps a column
    that has lost its only value, and trimming it again removes it. *)
Remark trim_edges_negative_baseline :
  sorted_axes negative_baseline_matrix ∧
  ∃ M' M'', trim_edges negative_baseline_matrix = Ok M' ∧
            trim_edges M' = Ok M'' ∧
            columns M' = [Date.of_ymd 2020 1 10; Date.of_ymd 2020 1 20] ∧
            columns M'' = [Date.of_ymd 2020 1 20].
Proof.
  split; [split; repeat constructor; done|].
  eexists _, _. split; [vm_compute; reflexivity|].
  split; [vm_compute; reflexivity|]. done.
Qed.

Lemma single_pair_ordered : ordered_dates single_pair.
Proof.
  intros r Hr _. apply list_elem_of_singleton in Hr as ->. done.
Qed.

Lemma read_checks_date_order_witness :
  (_read_coherence (λ _, Some reversed_valued_pair) (Some "CoherenceMatrix.csv")
     = Raise RuntimeError ∧
   _read_insar_pair (λ _, Some reversed_valued_pair) (Some "InSAR_Pair_All.csv")
     = Raise RuntimeError) ∧
  (_read_coherence (λ _, Some single_pair) (Some "CoherenceMatrix.csv")
     = Ok (Some single_pair) ∧
   _read_insar_pair (λ _, Some single_pair) (Some "CoherenceMatrix.csv")
     = Ok (Some single_pair)).
Proof.
  assert (∃ r, r ∈ reversed_valued_pair ∧ value r ≠ None ∧
               second_date r < first_date r) as Hbad.
  { eexists. split; [by left|]. split; done. }
  split; [split|].
  - apply (read_checks_date_order (λ _, Some reversed_valued_pair)
             "CoherenceMatrix.csv" _ eq_refl), Hbad.
  - apply (read_checks_date_order (λ _, Some reversed_valued_pair)
             "InSAR_Pair_All.csv" _ eq_refl), Hbad.
  - apply (read_checks_date_order (λ _, Some single_pair)
             "CoherenceMatrix.csv" _ eq_refl), single_pair_ordered.
Defined.

Lemma quake_colour_by_age_witness :
  (∃ df, get_latest_quakes_chis_fsdn 0 (Response 200 [garibaldi_quake]) = Ok df ∧
         event <$> quake_rows df = [garibaldi_quake] ∧
         Forall (coloured_by_age 0) (quake_rows df)) ∧
  (∃ df, get_latest_quakes_chis_fsdn_site 0 (Response 200 [garibaldi_quake])
           "Garibaldi" garibaldi_centres = Ok df ∧
         event <$> quake_rows df = [garibaldi_quake] ∧
         Forall (coloured_by_age 0) (quake_rows df)).
Proof.
  split.
  - apply (proj1 (quake_colour_by_age 0 [garibaldi_quake] "Garibaldi" garibaldi_centres)).
    discriminate.
  - apply (proj1 (proj2 (quake_colour_by_age 0 [garibaldi_quake] "Garibaldi"
                           garibaldi_centres))
             (Float.of_Z 50) (Float.of_Z (-123))).
    + reflexivity.
    + vm_compute. discriminate.
Defined.

Lemma quakes_non_200_raises_witness :
  get_latest_quakes_chis_fsdn 0 (Response 500 []) = Raise UnboundLocalError.
Proof. apply quakes_non_200_raises. done. Defined.

Lemma parse_dates_spec_witness :
  parse_dates "20220821_HH_20220914" = Ok "2022/08/21 - 2022/09/14" ∧
  raises (parse_dates "20220821_HH_2022091").
Proof.
  split.
  - apply (proj2 (proj2 (proj2 (parse_dates_spec "")))
             "2022" "08" "21" "_HH_" "2022" "09" "14" ""); reflexivity.
  - apply (proj1 (parse_dates_spec "20220821_HH_2022091")).
    right. right. reflexivity.
Defined.


(** * Further properties of the reshapers *)

(** ** What the reshapers return and when they raise *)

Lemma pivot_duplicate_keys {V} (values : PairRecord → option V) long :
  ¬ distinct_keys long → pivot values long = Raise ValueError.
Proof. intros Hdup. unfold pivot. by rewrite decide_False. Qed.

(** No row or column of the cleaned frame holds a value when the long table
    has no value off the zero baseline. *)
Lemma cleaned_all_null long W :
  pivot value long = Ok W →
  (∀ r, r ∈ long → value (pair r) ≠ None → delta_days r = 0) →
  dropna_all_index (cleaned W) = [] ∧ dropna_all_columns (cleaned W) = [].
Proof.
  intros HW Hnull.
  assert (∀ d c, d ∈ index (cleaned W) → c ∈ columns (cleaned W) →
                 has_value (cleaned W) d c = true → False) as Hno.
  { intros d c Hd Hc Hv.
    apply (cleaned_value long W HW d c Hd Hc) in Hv as (Hd0 & r & Hr & <- & _ & Hv).
    by apply Hd0, Hnull. }
  split.
  - destruct (dropna_all_index (cleaned W)) as [|d l] eqn:Hl; [done|].
    assert (d ∈ dropna_all_index (cleaned W)) as Hd by (rewrite Hl; by left).
    apply elem_of_dropna_all_index in Hd as (Hd & c & Hc & Hv).
    destruct (Hno d c Hd Hc Hv).
  - destruct (dropna_all_columns (cleaned W)) as [|c l] eqn:Hl; [done|].
    assert (c ∈ dropna_all_columns (cleaned W)) as Hc by (rewrite Hl; by left).
    apply elem_of_dropna_all_columns in Hc as (Hc & d & Hd & Hv).
    destruct (Hno d c Hd Hc Hv).
Qed.

(** X1. [pivot_and_clean] raises [ValueError] on a table with a repeated
    (delta_days, second_date) key; with distinct keys it raises [TypeError]
    when the table has rows but no pair of distinct dates has a value, and
    returns a matrix as soon as one has. *)
Theorem pivot_and_clean_outcome (long : list LongRow) :
  (¬ distinct_keys long → pivot_and_clean long = Raise ValueError) ∧
  (distinct_keys long → long ≠ [] →
   (∀ r, r ∈ long → value (pair r) ≠ None → delta_days r = 0) →
   pivot_and_clean long = Raise TypeError) ∧
  (distinct_keys long →
   (∃ r, r ∈ long ∧ value (pair r) ≠ None ∧ delta_days r ≠ 0) →
   returns (pivot_and_clean long)).
Proof.
  split_and!.
  - intros Hdup. unfold pivot_and_clean.
    by rewrite (pivot_duplicate_keys _ _ Hdup).
  - intros Hnd _ Hnull. destruct (pivot_Ok value long Hnd) as [W HW].
    rewrite (pivot_and_clean_eq _ _ HW), trim_edges_eq.
    destruct (cleaned_all_null long W HW Hnull) as [_ ->]. done.
  - intros Hnd (r & Hr & Hv & Hd). by eapply pivot_and_clean_returns.
Qed.

(** X2. [pivot_and_clean_insar] raises [ValueError] on a repeated key; with
    distinct keys it raises [IndexError] when the table has rows but no pair
    of distinct dates has a value, and returns a matrix as soon as one
    has. *)
Theorem pivot_and_clean_insar_outcome (long : list LongRow) :
  (¬ distinct_keys long → pivot_and_clean_insar long = Raise ValueError) ∧
  (distinct_keys long → long ≠ [] →
   (∀ r, r ∈ long → value (pair r) ≠ None → delta_days r = 0) →
   pivot_and_clean_insar long = Raise IndexError) ∧
  (distinct_keys long →
   (∃ r, r ∈ long ∧ value (pair r) ≠ None ∧ delta_days r ≠ 0) →
   returns (pivot_and_clean_insar long)).
Proof.
  split_and!.
  - intros Hdup. unfold pivot_and_clean_insar.
    by rewrite (pivot_duplicate_keys _ _ Hdup).
  - intros Hnd _ Hnull. destruct (pivot_Ok value long Hnd) as [W HW].
    rewrite (pivot_and_clean_insar_eq _ _ HW), trim_edges_insar_eq.
    destruct (cleaned_all_null long W HW Hnull) as [-> _]. done.
  - intros Hnd (r & Hr & Hv & Hd). by eapply pivot_and_clean_insar_returns.
Qed.

(** ** The cells and the edges of the returned matrices *)

(** A cell of the cleaned frame: the rounded value of a pair of distinct
    dates. *)
Lemma cleaned_cell_Some long W d c v :
  pivot value long = Ok W →
  cell (cleaned W) d c = Some v ↔
  ∃ r v0, r ∈ long ∧ delta_days r = d ∧ d ≠ 0 ∧ second_date (pair r) = c ∧
          value (pair r) = Some v0 ∧ v = round_decimals 2 v0.
Proof.
  intros HW. rewrite cleaned_cell. case_decide as Hd.
  - split; [done|]. by intros (r & v0 & _ & _ & ? & _).
  - destruct (cell W d c) as [v0|] eqn:Hc; simpl.
    + apply (cell_pivot_Some _ _ _ _ _ _ HW) in Hc as (r & Hr & Hd' & Hc & Hv).
      split.
      * intros [= <-]. by exists r, v0.
      * intros (r' & v1 & Hr' & Hd1 & _ & Hc1 & Hv1 & ->).
        assert (cell W d c = Some v1) as H1
          by (apply (cell_pivot_Some _ _ _ _ _ _ HW); eauto).
        assert (cell W d c = Some v0) as H0
          by (apply (cell_pivot_Some _ _ _ _ _ _ HW); eauto).
        congruence.
    + split; [done|]. intros (r & v0 & Hr & Hd' & _ & Hc' & Hv & _).
      assert (cell W d c = Some v0) as H0
        by (apply (cell_pivot_Some _ _ _ _ _ _ HW); eauto).
      congruence.
Qed.

Lemma cleaned_labels long W r :
  pivot value long = Ok W → r ∈ long →
  delta_days r ∈ index (cleaned W) ∧ second_date (pair r) ∈ columns (cleaned W).
Proof.
  intros HW Hr. split.
  - apply cleaned_index. right. apply (pivot_index _ _ _ _ HW). eauto.
  - apply (pivot_columns _ _ _ _ HW). eauto.
Qed.

(** A [.loc] whose masks keep every value keeps every cell. *)
Lemma cell_loc_mask_covers {V} rows cols (df : DataFrame V) d c :
  covers rows cols df → d ∈ index df → c ∈ columns df →
  cell (loc_mask rows cols df) d c = cell df d c.
Proof.
  intros Hcov Hd Hc. rewrite cell_loc_mask.
  destruct (cell df d c) as [v|] eqn:Hv; [|by destruct (_ && _)].
  destruct (Hcov d c Hd Hc) as [-> ->]; [|done].
  unfold has_value. by rewrite Hv.
Qed.

(** X3. The reshapers lose no value and invent none. A cell of the InSAR-pair
    matrix holds [v] exactly when a pair of distinct dates of the table with
    that baseline and that second date has a value that rounds to [v]; the
    same holds for the coherence matrix when the table has no value at a
    negative baseline. *)
Theorem reshaped_cells (long : list LongRow) (M : DataFrame float) (d c : Z) (v : float) :
  let from_table :=
    ∃ r v0, r ∈ long ∧ delta_days r = d ∧ d ≠ 0 ∧ second_date (pair r) = c ∧
            value (pair r) = Some v0 ∧ v = round_decimals 2 v0 in
  (pivot_and_clean_insar long = Ok M → cell M d c = Some v ↔ from_table) ∧
  (valid_long long → pivot_and_clean long = Ok M →
   cell M d c = Some v ↔ from_table).
Proof.
  simpl. split.
  - intros (W & HW & Htrim)%pivot_and_clean_insar_inv.
    rewrite <-(cleaned_cell_Some long W d c v HW).
    rewrite trim_edges_insar_eq in Htrim.
    destruct (head (dropna_all_index _)) as [r0|] eqn:Hr0; [|done].
    destruct (last (dropna_all_index _)) as [r1|] eqn:Hr1; [|done].
    destruct (head (dropna_all_columns _)) as [c0|] eqn:Hc0; [|done].
    destruct (last (dropna_all_columns _)) as [c1|] eqn:Hc1; [|done].
    injection Htrim as <-.
    pose proof (bounding_box_covers _ (cleaned_axes long W HW) _ _ _ _
                  Hr0 Hr1 Hc0 Hc1) as Hcov.
    unfold loc_slice. rewrite cell_loc_mask.
    destruct (cell (cleaned W) d c) as [v'|] eqn:Hv; [|by destruct (_ && _)].
    apply (cleaned_cell_Some long W d c v' HW) in Hv as Hv'.
    destruct Hv' as (r & v0 & Hr & <- & _ & <- & _).
    destruct (cleaned_labels long W r HW Hr) as [Hd Hc].
    destruct (Hcov _ _ Hd Hc) as [-> ->]; [|done].
    unfold has_value. by rewrite Hv.
  - intros Hlong (W & HW & Htrim)%pivot_and_clean_inv.
    rewrite <-(cleaned_cell_Some long W d c v HW).
    rewrite trim_edges_eq in Htrim.
    destruct (head (dropna_all_columns _)) as [c0|] eqn:Hc0; [|done].
    destruct (last (dropna_all_columns _)) as [c1|] eqn:Hc1; [|done].
    injection Htrim as <-.
    pose proof (trim_edges_covers _ (cleaned_axes long W HW) c0 c1
                  (cleaned_valid_baselines long W HW Hlong) Hc0 Hc1) as Hcov.
    rewrite cell_loc_mask.
    destruct (cell (cleaned W) d c) as [v'|] eqn:Hv; [|by destruct (_ && _)].
    apply (cleaned_cell_Some long W d c v' HW) in Hv as Hv'.
    destruct Hv' as (r & v0 & Hr & <- & _ & <- & _).
    destruct (cleaned_labels long W r HW Hr) as [Hd Hc].
    destruct (Hcov _ _ Hd Hc) as [-> ->]; [|done].
    unfold has_value. by rewrite Hv.
Qed.

Lemma head_filter_least (P : Z → Prop) `{!∀ x, Decision (P x)} (l : list Z) x :
  StronglySorted (≤) l → x ∈ l → P x → (∀ y, P y → x ≤ y) →
  head (filter P l) = Some x.
Proof.
  intros Hl Hx HP Hleast.
  assert (x ∈ filter P l) as Hx' by (by apply list_elem_of_filter).
  destruct (head_is_Some_elem _ _ Hx') as [h Hh]. rewrite Hh. f_equal.
  pose proof (sorted_head_le _ _ _ (StronglySorted_filter_le P l Hl) Hh Hx').
  apply head_Some_elem_of, list_elem_of_filter in Hh as [Hh _].
  specialize (Hleast h Hh). lia.
Qed.

Lemma last_filter_greatest (P : Z → Prop) `{!∀ x, Decision (P x)} (l : list Z) x :
  StronglySorted (≤) l → x ∈ l → P x → (∀ y, P y → y ≤ x) →
  last (filter P l) = Some x.
Proof.
  intros Hl Hx HP Hgreatest.
  assert (x ∈ filter P l) as Hx' by (by apply list_elem_of_filter).
  destruct (last_is_Some_elem _ _ Hx') as [h Hh]. rewrite Hh. f_equal.
  pose proof (sorted_le_last _ _ _ (StronglySorted_filter_le P l Hl) Hh Hx').
  apply last_Some_elem_of, list_elem_of_filter in Hh as [Hh _].
  specialize (Hgreatest h Hh). lia.
Qed.

Lemma range_mask lo hi d : (lo <=? d) && (d <=? hi) = true ↔ lo ≤ d ≤ hi.
Proof. rewrite andb_true_iff, !Z.leb_le. tauto. Qed.

Lemma sorted_axes_strong {V} (df : DataFrame V) :
  sorted_axes df → StronglySorted (≤) (index df) ∧ StronglySorted (≤) (columns df).
Proof. intros [? ?]. split; by apply (Sorted_StronglySorted _). Qed.

(** X5. The InSAR-pair matrix is the bounding box of the values: its first
    and last row and its first and last column each hold a value. When the
    table has no value at a negative baseline, the box starts above the zero
    baseline, so the matrix has no row [delta_days = 0]. *)
Theorem insar_matrix_bounding_box (long : list LongRow) (M : DataFrame float) :
  pivot_and_clean_insar long = Ok M →
  (∃ r0 r1 c0 c1,
     head (index M) = Some r0 ∧ last (index M) = Some r1 ∧
     head (columns M) = Some c0 ∧ last (columns M) = Some c1 ∧
     r0 ∈ dropna_all_index M ∧ r1 ∈ dropna_all_index M ∧
     c0 ∈ dropna_all_columns M ∧ c1 ∈ dropna_all_columns M) ∧
  (valid_long long → 0 ∉ index M).
Proof.
  intros HM. split; [|intros Hlong; by eapply pivot_and_clean_insar_no_zero_row].
  destruct (pivot_and_clean_insar_inv _ _ HM) as (W & HW & Htrim).
  rewrite trim_edges_insar_eq in Htrim.
  destruct (head (dropna_all_index _)) as [r0|] eqn:Hr0; [|done].
  destruct (last (dropna_all_index _)) as [r1|] eqn:Hr1; [|done].
  destruct (head (dropna_all_columns _)) as [c0|] eqn:Hc0; [|done].
  destruct (last (dropna_all_columns _)) as [c1|] eqn:Hc1; [|done].
  injection Htrim as <-.
  pose proof (cleaned_axes long W HW) as Haxes.
  pose proof (bounding_box_covers _ Haxes _ _ _ _ Hr0 Hr1 Hc0 Hc1) as Hcov.
  destruct (sorted_axes_strong _ Haxes) as [Hi Hc].
  pose proof (dropna_all_index_sorted _ Haxes) as Hvi.
  pose proof (dropna_all_columns_sorted _ Haxes) as Hvc.
  pose proof (head_Some_elem_of _ _ Hr0) as Hr0'.
  pose proof (last_Some_elem_of _ _ Hr1) as Hr1'.
  pose proof (head_Some_elem_of _ _ Hc0) as Hc0'.
  pose proof (last_Some_elem_of _ _ Hc1) as Hc1'.
  pose proof (sorted_head_le _ _ _ Hvi Hr0 Hr1').
  pose proof (sorted_head_le _ _ _ Hvc Hc0 Hc1').
  exists r0, r1, c0, c1. unfold loc_slice.
  rewrite (dropna_all_index_loc_mask _ _ _ Hcov),
          (dropna_all_columns_loc_mask _ _ _ Hcov).
  split_and!; try done; simpl.
  - apply head_filter_least; [done| |apply range_mask; lia|].
    + by apply elem_of_dropna_all_index in Hr0' as [? _].
    + intros y Hy%range_mask. lia.
  - apply last_filter_greatest; [done| |apply range_mask; lia|].
    + by apply elem_of_dropna_all_index in Hr1' as [? _].
    + intros y Hy%range_mask. lia.
  - apply head_filter_least; [done| |apply range_mask; lia|].
    + by apply elem_of_dropna_all_columns in Hc0' as [? _].
    + intros y Hy%range_mask. lia.
  - apply last_filter_greatest; [done| |apply range_mask; lia|].
    + by apply elem_of_dropna_all_columns in Hc1' as [? _].
    + intros y Hy%range_mask. lia.
Qed.

(** X4. On a table with no value at a negative baseline, the coherence
    matrix starts at the zero baseline, which is null, ends at a row that
    holds a value, and its first and last column each hold a value. *)
Theorem coherence_matrix_edges (long : list LongRow) (M : DataFrame float) :
  valid_long long →
  pivot_and_clean long = Ok M →
  head (index M) = Some 0 ∧ (∀ c, cell M 0 c = None) ∧
  ∃ r1 c0 c1,
    last (index M) = Some r1 ∧
    head (columns M) = Some c0 ∧ last (columns M) = Some c1 ∧
    r1 ∈ dropna_all_index M ∧
    c0 ∈ dropna_all_columns M ∧ c1 ∈ dropna_all_columns M.
Proof.
  intros Hlong HM.
  destruct (pivot_and_clean_zero_row _ _ Hlong HM) as [_ Hzero].
  destruct (pivot_and_clean_inv _ _ HM) as (W & HW & Htrim).
  rewrite trim_edges_eq in Htrim.
  destruct (head (dropna_all_columns _)) as [c0|] eqn:Hc0; [|done].
  destruct (last (dropna_all_columns _)) as [c1|] eqn:Hc1; [|done].
  injection Htrim as <-.
  pose proof (cleaned_axes long W HW) as Haxes.
  pose proof (trim_edges_covers _ Haxes c0 c1
                (cleaned_valid_baselines long W HW Hlong) Hc0 Hc1) as Hcov.
  destruct (sorted_axes_strong _ Haxes) as [Hi Hc].
  pose proof (dropna_all_columns_sorted _ Haxes) as Hvc.
  pose proof (head_Some_elem_of _ _ Hc0) as Hc0'.
  pose proof (last_Some_elem_of _ _ Hc1) as Hc1'.
  pose proof (sorted_head_le _ _ _ Hvc Hc0 Hc1').
  apply elem_of_dropna_all_columns in Hc0' as Hc0''.
  destruct Hc0'' as (Hc0i & d & Hd & Hv).
  assert (d ∈ dropna_all_index (cleaned W)) as Hd'
    by (apply elem_of_dropna_all_index; eauto).
  destruct (last_is_Some_elem _ _ Hd') as [r1 Hr1].
  pose proof (last_Some_elem_of _ _ Hr1) as Hr1'.
  pose proof (dropna_all_index_pos long W HW r1 Hlong Hr1').
  rewrite Hr1 in Hcov, Hzero |- *.
  rewrite (dropna_all_index_loc_mask _ _ _ Hcov),
          (dropna_all_columns_loc_mask _ _ _ Hcov).
  split_and!; [|done|exists r1, c0, c1; split_and!; try done]; simpl.
  - apply head_filter_least; [done|apply cleaned_index; by left| |].
    + apply andb_true_iff. split; apply Z.leb_le; lia.
    + by intros y [?%Z.leb_le _]%andb_true_iff.
  - apply last_filter_greatest; [done| | |].
    + by apply elem_of_dropna_all_index in Hr1' as [? _].
    + apply andb_true_iff. split; apply Z.leb_le; lia.
    + by intros y [_ ?%Z.leb_le]%andb_true_iff.
  - apply head_filter_least; [done| |apply range_mask; lia|].
    + by apply elem_of_dropna_all_columns in Hc0' as [? _].
    + intros y Hy%range_mask. lia.
  - apply last_filter_greatest; [done| |apply range_mask; lia|].
    + by apply elem_of_dropna_all_columns in Hc1' as [? _].
    + intros y Hy%range_mask. lia.
Qed.

(** ** The reference-date matrix beside the value matrix *)

Lemma axis_labels_NoDup l : NoDup (axis_labels l).
Proof.
  unfold axis_labels. rewrite merge_sort_Permutation. apply NoDup_remove_dups.
Qed.

Lemma pivot_and_clean_columns long M :
  pivot_and_clean long = Ok M → Sorted (≤) (columns M) ∧ NoDup (columns M).
Proof.
  intros (W & HW & Htrim)%pivot_and_clean_inv.
  rewrite trim_edges_eq in Htrim.
  destruct (head (dropna_all_columns _)) as [c0|]; [|done].
  destruct (last (dropna_all_columns _)) as [c1|]; [|done].
  injection Htrim as <-. simpl.
  destruct (pivot_inv _ _ _ HW) as (_ & _ & -> & _). split.
  - apply StronglySorted_Sorted, StronglySorted_filter_le,
      StronglySorted_merge_sort_le.
  - apply NoDup_filter, axis_labels_NoDup.
Qed.

(** X7. The reference-date matrix has the columns of the coherence matrix
    whenever each column of the coherence matrix is the second date of some
    pair in order ([first_date <= second_date]); [pivot_and_clean_dates]
    itself returns on every table with distinct keys. *)
Theorem date_matrix_columns (long : list LongRow) (coh_wide : DataFrame float) :
  (distinct_keys long → returns (pivot_and_clean_dates long coh_wide)) ∧
  (∀ date_wide,
     pivot_and_clean long = Ok coh_wide →
     pivot_and_clean_dates long coh_wide = Ok date_wide →
     (∀ c, c ∈ columns coh_wide →
           ∃ r, r ∈ long ∧ first_date (pair r) ≤ second_date (pair r) ∧
                second_date (pair r) = c) →
     columns date_wide = columns coh_wide).
Proof.
  split; [apply pivot_and_clean_dates_returns|].
  intros D Hcw HD Hall.
  destruct (pivot_and_clean_columns _ _ Hcw) as [Hsorted Hnd].
  by eapply pivot_and_clean_dates_same_columns.
Qed.

(** X8. A cell of the reference-date matrix holds a text exactly when a pair
    in order has that baseline and that second date, the second date is a
    column of the value matrix, and the text is the first date of the pair
    written as [Mon dd, yyyy]. *)
Theorem date_matrix_cells {V} (long : list LongRow) (coh_wide : DataFrame V)
    (date_wide : DataFrame string) (d c : Z) (s : string) :
  pivot_and_clean_dates long coh_wide = Ok date_wide →
  cell date_wide d c = Some s ↔
  ∃ r, r ∈ long ∧ first_date (pair r) ≤ second_date (pair r) ∧
       delta_days r = d ∧ second_date (pair r) = c ∧ c ∈ columns coh_wide ∧
       s = Date.strftime_b_d_Y (first_date (pair r)).
Proof.
  intros HD. split.
  - intros Hs.
    destruct (pivot_and_clean_dates_cell long coh_wide date_wide HD d c s Hs)
      as (r & Hr & Hd & Hc & Hle & ->).
    exists r. split_and!; try done.
    destruct (pivot_and_clean_dates_inv long coh_wide date_wide HD)
      as (P & HP & _ & _ & Hcells).
    unfold cell in Hs. rewrite Hcells in Hs.
    apply map_lookup_filter_Some in Hs as [_ Hin]. simpl in Hin.
    by apply (pivot_and_clean_dates_subset long coh_wide date_wide HD).
  - intros (r & Hr & Hle & Hd & Hc & Hcw & ->).
    destruct (pivot_and_clean_dates_inv long coh_wide date_wide HD)
      as (P & HP & _ & _ & Hcells).
    unfold cell. rewrite Hcells.
    apply map_lookup_filter_Some. split.
    + rewrite lookup_fmap.
      assert (cell P d c = Some (first_date (pair r))) as HP'.
      { apply (cell_pivot_Some _ _ _ _ _ _ HP). exists r. split_and!; try done.
        unfold drop_reversed. apply list_elem_of_filter. split; [lia|done]. }
      unfold cell in HP'. by rewrite HP'.
    + simpl. apply (pivot_and_clean_dates_columns long coh_wide date_wide HD).
      split; [|done]. exists r. done.
Qed.

(** X6. The two matrices that [plot_coherence] lays over each other do not
    have the same rows: on a table with no value at a negative baseline and
    no pair of equal dates, the coherence matrix has the row
    [delta_days = 0] and the reference-date matrix has not. *)
Theorem date_matrix_rows_differ (long : list LongRow)
    (coh_wide : DataFrame float) (date_wide : DataFrame string) :
  valid_long long →
  (∀ r, r ∈ long → delta_days r ≠ 0) →
  pivot_and_clean long = Ok coh_wide →
  pivot_and_clean_dates long coh_wide = Ok date_wide →
  0 ∈ index coh_wide ∧ 0 ∉ index date_wide.
Proof.
  intros Hlong Hne Hcw HD. split.
  - by apply (pivot_and_clean_zero_row long).
  - destruct (pivot_and_clean_dates_inv long coh_wide date_wide HD)
      as (P & HP & -> & _).
    intros (r & Hr & Hd)%(pivot_index _ _ _ _ HP).
    unfold drop_reversed in Hr. apply list_elem_of_filter in Hr as [_ Hr].
    by apply (Hne r).
Qed.

(** * Further properties of the seismic queries *)

Lemma time_delta_le now time k :
  time_delta now time ≤ k ↔ now - time ≤ k * ns_per_day.
Proof.
  unfold time_delta.
  assert (0 < ns_per_day) as HD by done.
  pose proof (Z.div_mod (time - now) ns_per_day ltac:(lia)) as Hdm.
  pose proof (Z.mod_pos_bound (time - now) ns_per_day HD) as Hmod.
  split; intros H; nia.
Qed.

(** X9. In elapsed time rather than whole days: an event is red up to 2 days
    after its time, orange after that up to 7 days, yellow up to 31 days and
    white beyond; the age in days is rounded up, so an event 2 days and one
    nanosecond old is already orange. *)
Theorem colour_by_elapsed_time (now time : Z) :
  let age := now - time in
  (colour_of (time_delta now time) = "red" ↔ age ≤ 2 * ns_per_day) ∧
  (colour_of (time_delta now time) = "orange" ↔
     2 * ns_per_day < age ≤ 7 * ns_per_day) ∧
  (colour_of (time_delta now time) = "yellow" ↔
     7 * ns_per_day < age ≤ 31 * ns_per_day) ∧
  (colour_of (time_delta now time) = "white" ↔ 31 * ns_per_day < age) ∧
  colour_of (time_delta now (now - 2 * ns_per_day - 1)) = "orange".
Proof.
  intros age. subst age. rewrite !colour_of_marker_colour.
  pose proof (time_delta_le now time 2) as H2.
  pose proof (time_delta_le now time 7) as H7.
  pose proof (time_delta_le now time 31) as H31.
  pose proof (time_delta_le now (now - 2 * ns_per_day - 1) 2) as H2'.
  pose proof (time_delta_le now (now - 2 * ns_per_day - 1) 7) as H7'.
  unfold marker_colour.
  assert (0 < ns_per_day) as HD by done.
  split_and!; repeat case_decide; try split; intros;
    first [done | lia | exfalso; lia].
Qed.

(** X10. [get_latest_quakes_chis_fsdn_site] raises [KeyError] for a target
    that [target_centres] does not have, whatever the request does. For a
    known target: on status 200 it returns the events of the answer that lie
    in the box around the site, in their order, when there is one, and
    raises [TypeError] when there is none; on another status it returns the
    empty table, on a failed connection the table without rows, and a read
    timeout reaches the caller. *)
Theorem quakes_site_outcome (now : Z) (initial_target : string)
    (target_centres : gmap string (float * float)) :
  let query request :=
    get_latest_quakes_chis_fsdn_site now request initial_target target_centres in
  (target_centres !! initial_target = None →
   ∀ request, query request = Raise KeyError) ∧
  (∀ lat lon, target_centres !! initial_target = Some (lat, lon) →
   (∀ text, List.filter (in_box lat lon) text ≠ [] →
      ∃ df, query (Response 200 text) = Ok df ∧
            event <$> quake_rows df = List.filter (in_box lat lon) text) ∧
   (∀ text, List.filter (in_box lat lon) text = [] →
      query (Response 200 text) = Raise TypeError) ∧
   (∀ status_code text, status_code ≠ 200 →
      query (Response status_code text)
        = Ok {| quake_columns := []; quake_rows := [] |}) ∧
   query ConnectionFailed = Ok no_events ∧
   query ReadTimedOut = Raise ReadTimeout).
Proof.
  simpl. unfold get_latest_quakes_chis_fsdn_site. split.
  - by intros -> request.
  - intros lat lon ->. split_and!; try done.
    + intros text Hne.
      destruct (colour_events_rows now _ Hne) as (df & Hdf & Hrows & _). eauto.
    + by intros text ->.
    + intros status_code text Hstatus. by rewrite decide_False.
Qed.

(** * Further properties of the summary table *)

Section summary_facts.
Context (unrest_table_df : list (string * bool)) (get_target : string → target_outcome)
        (today : Z) (strptime_Ymd : string → result Z).

Lemma elem_of_concat {A} (x : A) (ls : list (list A)) :
  x ∈ concat ls ↔ ∃ l, x ∈ l ∧ l ∈ ls.
Proof.
  rewrite list_elem_of_In, in_concat. setoid_rewrite list_elem_of_In.
  split; intros (l & ? & ?); eauto.
Qed.

Lemma merge_left_rows feature row :
  row ∈ merge_left unrest_table_df feature →
  target_id row = feature_id feature ∧ Site row = name_en feature ∧
  Latest_SAR_Image row = Null.
Proof.
  unfold merge_left.
  destruct (List.filter _ unrest_table_df) as [|u l].
  - by intros ->%list_elem_of_singleton.
  - by intros (u' & -> & _)%list_elem_of_fmap.
Qed.

Lemma merged_rows_spec features row :
  row ∈ merged_rows unrest_table_df features →
  ∃ f, f ∈ features ∧ is_volcano_id (feature_id f) = true ∧
       target_id row = feature_id f ∧ Site row = name_en f ∧
       Latest_SAR_Image row = Null.
Proof.
  unfold merged_rows. intros (l & Hrow & Hl)%elem_of_concat.
  apply list_elem_of_fmap in Hl as (f & -> & Hf).
  apply list_elem_of_In, filter_In in Hf as [Hf Hid].
  apply list_elem_of_In in Hf.
  destruct (merge_left_rows f row Hrow) as (? & ? & ?). eauto 10.
Qed.

Lemma merged_rows_site features f :
  f ∈ features → is_volcano_id (feature_id f) = true →
  ∃ row, row ∈ merged_rows unrest_table_df features ∧ Site row = name_en f.
Proof.
  intros Hf Hid.
  assert (∃ row, row ∈ merge_left unrest_table_df f) as [row Hrow].
  { unfold merge_left. destruct (List.filter _ unrest_table_df) as [|u l].
    - eexists. by left.
    - eexists. simpl. by left. }
  exists row. split; [|by apply (merge_left_rows f)].
  unfold merged_rows. apply elem_of_concat. exists (merge_left unrest_table_df f).
  split; [done|]. apply list_elem_of_fmap. exists f. split; [done|].
  by apply list_elem_of_In, filter_In; split; [apply list_elem_of_In|].
Qed.

(** Sites without a last image leave the table as it is. *)
Lemma visit_sites_no_image sites st :
  (∀ site, site ∈ sites → ∃ beam, get_target site = TargetInfo None beam) →
  visit_sites get_target today strptime_Ymd sites st = Ok st.
Proof.
  revert st. induction sites as [|site sites IH]; intros [rows has_column] Hno;
    [done|]. simpl.
  destruct (Hno site) as [beam ->]; [by left|]. simpl.
  apply IH. intros s Hs. apply Hno. by right.
Qed.

Lemma set_latest_Null site rows :
  Forall (λ row, Latest_SAR_Image row = Null) rows →
  set_latest site Null rows = rows.
Proof.
  induction 1 as [|[id s u l] rows Hrow Hrows IH]; [done|]. simpl in *.
  case_decide; [by subst|]. by rewrite IH.
Qed.

(** Sites that cannot be reached null their cell, which is null already:
    the table is unchanged and has the column. *)
Lemma visit_sites_unreachable sites rows has_column :
  sites ≠ [] →
  (∀ site, site ∈ sites → get_target site = TargetConnectionFailed) →
  Forall (λ row, Latest_SAR_Image row = Null) rows →
  visit_sites get_target today strptime_Ymd sites (rows, has_column) = Ok (rows, true).
Proof.
  intros Hne Hfail Hnull. revert has_column.
  induction sites as [|site sites IH]; intros has_column; [done|]. simpl.
  rewrite (Hfail site) by (by left). simpl.
  rewrite set_latest_Null by done.
  destruct sites as [|site' sites]; [done|].
  apply IH; [done|]. intros s Hs. apply Hfail. by right.
Qed.

(** X11. When no volcano of the GeoJSON has a last image on record (its
    [last_slc_datetime] is null), and so too when the GeoJSON has no volcano
    at all, the column [Latest SAR Image] is never created and
    [build_summary_table] raises [KeyError] on its last line. *)
Theorem build_summary_table_no_image (features : list Feature) :
  (∀ f, f ∈ features → is_volcano_id (feature_id f) = true →
        ∃ beam, get_target (feature_id f) = TargetInfo None beam) →
  build_summary_table unrest_table_df get_target today strptime_Ymd (Some features)
    = Raise KeyError.
Proof.
  intros Hno. unfold build_summary_table. simpl.
  fold (merged_rows unrest_table_df features).
  rewrite visit_sites_no_image; [done|].
  intros site (row & -> & Hrow)%list_elem_of_fmap.
  apply merged_rows_spec in Hrow as (f & Hf & Hid & -> & _).
  by apply Hno.
Qed.

(** X12. Unreachable sites do not abort the table: when the request fails
    for every volcano of the GeoJSON, and there is one, the table is returned
    with its three columns, one row for each site and a null
    [Latest SAR Image] in every row. *)
Theorem build_summary_table_unreachable (features : list Feature) :
  (∃ f, f ∈ features ∧ is_volcano_id (feature_id f) = true) →
  (∀ f, f ∈ features → is_volcano_id (feature_id f) = true →
        get_target (feature_id f) = TargetConnectionFailed) →
  ∃ table,
    build_summary_table unrest_table_df get_target today strptime_Ymd (Some features)
      = Ok table ∧
    summary_columns table = ["Site"; "Latest SAR Image"; "Unrest"] ∧
    Forall (λ cells, ∃ site unrest, cells = [Str site; Null; unrest])
           (summary_rows table) ∧
    ∀ f, f ∈ features → is_volcano_id (feature_id f) = true →
         ∃ unrest, [Str (name_en f); Null; unrest] ∈ summary_rows table.
Proof.
  intros (f0 & Hf0 & Hid0) Hfail. unfold build_summary_table. simpl.
  fold (merged_rows unrest_table_df features).
  assert (Forall (λ row, Latest_SAR_Image row = Null) (merged_rows unrest_table_df features))
    as Hnull.
  { apply Forall_forall. intros row Hrow.
    by apply merged_rows_spec in Hrow as (f & _ & _ & _ & _ & ?). }
  rewrite visit_sites_unreachable; [| | |done].
  - simpl. eexists. split; [done|]. split; [done|]. simpl. split.
    + apply Forall_forall. intros cells (row & -> & Hrow)%list_elem_of_fmap.
      rewrite merge_sort_Permutation in Hrow.
      eapply Forall_forall in Hnull; [|done]. rewrite Hnull. eauto.
    + intros f Hf Hid.
      destruct (merged_rows_site features f Hf Hid) as (row & Hrow & Hsite).
      exists (Unrest row). apply list_elem_of_fmap. exists row.
      split; [|by rewrite merge_sort_Permutation].
      eapply Forall_forall in Hnull; [|done]. by rewrite Hnull, Hsite.
  - destruct (merged_rows_site features f0 Hf0 Hid0) as (row & Hrow & _).
    intros Hnil. apply (f_equal length) in Hnil. rewrite length_fmap in Hnil.
    destruct (merged_rows unrest_table_df features); [by apply elem_of_nil in Hrow|done].
  - intros site (row & -> & Hrow)%list_elem_of_fmap.
    apply merged_rows_spec in Hrow as (f & Hf & Hid & -> & _).
    by apply Hfail.
Qed.
End summary_facts.

(** * Paths and the beam selector *)

Lemma rsplit1_cons (sep c : ascii) (s : string) :
  rsplit1 sep (String c s) =
    match rsplit1 sep s with
    | Some (before, after) => Some (String c before, after)
    | None => if decide (c = sep) then Some (EmptyString, s) else None
    end.
Proof. done. Qed.

Lemma rsplit1_None (s : string) : rsplit1 "_" s = None ↔ no_underscore s.
Proof.
  unfold no_underscore. induction s as [|c s IH]; [done|].
  rewrite rsplit1_cons. simpl all_chars.
  rewrite andb_true_iff, bool_decide_eq_true.
  destruct (rsplit1 "_" s) as [[before after]|].
  - split; [done|]. intros [_ H]. by apply IH in H.
  - case_decide; split; try done; [tauto|]. intros _. split; [done|by apply IH].
Qed.

Lemma rsplit1_app (site beam : string) :
  no_underscore beam → rsplit1 "_" (site +:+ "_" +:+ beam) = Some (site, beam).
Proof.
  intros Hbeam%rsplit1_None. induction site as [|c site IH].
  - change ("" +:+ "_" +:+ beam) with (String "_" beam).
    by rewrite rsplit1_cons, Hbeam.
  - change (String c site +:+ "_" +:+ beam)
      with (String c (site +:+ "_" +:+ beam)).
    by rewrite rsplit1_cons, IH.
Qed.

Lemma underscore_app (site beam : string) : ¬ no_underscore (site +:+ "_" +:+ beam).
Proof.
  unfold no_underscore. induction site as [|c site IH]; simpl.
  - done.
  - intros [_ H]%andb_true_iff. by apply IH.
Qed.

Lemma site_beam_not_error (site beam : string) :
  site +:+ "_" +:+ beam ≠ "API Response Error".
Proof.
  intros Heq. apply (underscore_app site beam). by rewrite Heq.
Qed.

Lemma site_beam_paths (site beam : string) :
  no_underscore beam →
  _coherence_csv (site +:+ "_" +:+ beam)
    = Ok (Some ("app/Data/" +:+ site +:+ "/" +:+ beam +:+ "/CoherenceMatrix.csv")) ∧
  _insar_pair_csv (site +:+ "_" +:+ beam)
    = Ok (Some ("app/Data/" +:+ site +:+ "/" +:+ beam +:+ "/InSAR_Pair_All.csv")) ∧
  _baseline_csv (site +:+ "_" +:+ beam)
    = Ok (Some ("app/Data/" +:+ site +:+ "/" +:+ beam +:+ "/bperp_all")).
Proof.
  intros Hbeam. unfold _coherence_csv, _insar_pair_csv, _baseline_csv, site_and_beam.
  rewrite !decide_False by apply site_beam_not_error.
  by rewrite (rsplit1_app site beam Hbeam).
Qed.

(** X15. A key [site_beam] of the selector whose beam has no underscore
    leads to the three files of that site and beam, also when the site has
    underscores of its own; a key without underscore other than
    "API Response Error" is a [ValueError]; "API Response Error" itself
    gives no path. *)
Theorem csv_paths (site beam : string) :
  (no_underscore beam →
   _coherence_csv (site +:+ "_" +:+ beam)
     = Ok (Some ("app/Data/" +:+ site +:+ "/" +:+ beam +:+ "/CoherenceMatrix.csv")) ∧
   _insar_pair_csv (site +:+ "_" +:+ beam)
     = Ok (Some ("app/Data/" +:+ site +:+ "/" +:+ beam +:+ "/InSAR_Pair_All.csv")) ∧
   _baseline_csv (site +:+ "_" +:+ beam)
     = Ok (Some ("app/Data/" +:+ site +:+ "/" +:+ beam +:+ "/bperp_all"))) ∧
  (∀ target_id, no_underscore target_id → target_id ≠ "API Response Error" →
   _coherence_csv target_id = Raise ValueError ∧
   _insar_pair_csv target_id = Raise ValueError ∧
   _baseline_csv target_id = Raise ValueError) ∧
  (_coherence_csv "API Response Error" = Ok None ∧
   _insar_pair_csv "API Response Error" = Ok None ∧
   _baseline_csv "API Response Error" = Ok None).
Proof.
  split_and!; try done.
  - apply site_beam_paths.
  - intros target_id Hno%rsplit1_None Hne.
    unfold _coherence_csv, _insar_pair_csv, _baseline_csv, site_and_beam.
    rewrite !decide_False by done. by rewrite Hno.
Qed.

Section selector_facts.
(** Whatever the builtin [sum] returns. *)
Context (sum : list number → result number).

Lemma match_target_elem beam targets m t :
  match_target beam targets m = Some t → m = Some t ∨ t ∈ targets.
Proof.
  unfold match_target. revert m.
  induction targets as [|t' targets IH]; intros m; simpl; [by left|].
  intros [H|H]%IH; [|right; by right].
  case_decide; [|by left]. injection H as <-. right. by left.
Qed.

Lemma match_target_none beam targets m :
  (∀ t, t ∈ targets → Api.label t ≠ Api.target_label beam) →
  match_target beam targets m = m.
Proof.
  unfold match_target. revert m.
  induction targets as [|t targets IH]; intros m Hno; simpl; [done|].
  rewrite decide_False by (apply Hno; by left).
  apply IH. intros t' Ht'. apply Hno. by right.
Qed.

(** The last target with the label of the beam is the one that is kept. *)
Lemma match_target_last beam targets1 target targets2 m :
  Api.label target = Api.target_label beam →
  (∀ t, t ∈ targets2 → Api.label t ≠ Api.target_label beam) →
  match_target beam (targets1 ++ target :: targets2) m = Some target.
Proof.
  intros Hlabel Hno. unfold match_target. rewrite foldl_app. simpl.
  rewrite decide_True by done. by apply match_target_none.
Qed.

Lemma beam_turns_api_error beams beam_dict m :
  beam_turns sum Api.Error beams (beam_dict, m) =
    Ok (if beams is [] then beam_dict
        else <[api_error_key := api_error_centre]> beam_dict, m).
Proof.
  revert beam_dict. induction beams as [|b beams IH]; intros beam_dict; [done|].
  simpl. rewrite IH. destruct beams; [done|]. by rewrite insert_insert_eq.
Qed.

(** X13. When the API does not answer, the selector offers the one entry
    "API Response Error" at [50.64, -123.60]: so when the [beams] route
    fails, and when the [targets] route fails while there are beams. With no
    beam it is empty. *)
Theorem selector_api_failure
    (targets : Api.Response Api.Target) (beam : Api.Beam) (beams : list Api.Beam) :
  populate_beam_selector sum Api.Error targets
    = Ok {[ "API Response Error" := [Float.ratio 5064 100; Float.ratio (-12360) 100] ]} ∧
  populate_beam_selector sum (Api.Items (beam :: beams)) Api.Error
    = Ok {[ "API Response Error" := [Float.ratio 5064 100; Float.ratio (-12360) 100] ]} ∧
  populate_beam_selector sum (Api.Items []) targets = Ok ∅.
Proof.
  split_and!; try done.
  unfold populate_beam_selector. by rewrite beam_turns_api_error.
Qed.

Lemma beam_turns_app targets beams1 beams2 st :
  beam_turns sum targets (beams1 ++ beams2) st =
    (st ← beam_turns sum targets beams1 st; beam_turns sum targets beams2 st).
Proof.
  revert st. induction beams1 as [|beam beams1 IH]; intros st; [done|]. simpl.
  destruct (beam_turn sum targets beam st) as [st'|e]; simpl; [apply IH|done].
Qed.

(** A turn that ends well leaves [matching_target] at the target that its
    inner loop found. *)
Lemma beam_turn_state targets beam d m d' m' :
  beam_turn sum (Api.Items targets) beam (d, m) = Ok (d', m') →
  m' = match_target beam targets m.
Proof.
  simpl. destruct (match_target beam targets m) as [target|]; [|done].
  destruct (Api.geometry target) as [[|ring rings]|]; [done| |by intros [= _ <-]].
  destruct (calc_polygon_centroid sum ring) as [[cx cy]|[]]; try done;
    by intros [= _ <-].
Qed.

Lemma beam_turns_unmatched_state targets beams d m d' m' :
  (∀ beam t, beam ∈ beams → t ∈ targets → Api.label t ≠ Api.target_label beam) →
  beam_turns sum (Api.Items targets) beams (d, m) = Ok (d', m') →
  m' = m.
Proof.
  revert d m. induction beams as [|beam beams IH]; intros d m Hno.
  - by intros [= _ <-].
  - cbn [beam_turns].
    destruct (beam_turn sum (Api.Items targets) beam (d, m)) as [[d1 m1]|] eqn:Hturn;
      [|done].
    simpl. intros Hrest. apply IH in Hrest; [|intros b t Hb; apply Hno; by right].
    apply beam_turn_state in Hturn. subst.
    apply match_target_none. intros t. apply Hno. by left.
Qed.

(** X14. A beam whose [target_label] names no target is not skipped. When it
    is the first beam, [matching_target] is unbound and the selector raises
    [UnboundLocalError]. When it comes after a beam that has a target, with
    only beams without target in between, it is filed under the site of that
    earlier beam, at the centroid of its target. *)
Theorem selector_unmatched_beam :
  (∀ beam beams targets,
     (∀ t, t ∈ targets → Api.label t ≠ Api.target_label beam) →
     populate_beam_selector sum (Api.Items (beam :: beams)) (Api.Items targets)
       = Raise UnboundLocalError) ∧
  (∀ beams beam1 unmatched beam2 targets1 target targets2 ring rings
     centroid_x centroid_y beam_dict,
     let targets := targets1 ++ target :: targets2 in
     populate_beam_selector sum (Api.Items (beams ++ beam1 :: unmatched))
                            (Api.Items targets) = Ok beam_dict →
     Api.label target = Api.target_label beam1 →
     (∀ t, t ∈ targets2 → Api.label t ≠ Api.target_label beam1) →
     (∀ beam t, beam ∈ unmatched ++ [beam2] → t ∈ targets →
                Api.label t ≠ Api.target_label beam) →
     Api.geometry target = Some (ring :: rings) →
     calc_polygon_centroid sum ring = Ok (centroid_x, centroid_y) →
     populate_beam_selector sum (Api.Items (beams ++ beam1 :: unmatched ++ [beam2]))
                            (Api.Items targets)
       = Ok (<[Api.name_en target +:+ "_" +:+ Api.short_name beam2
                 := [centroid_y; centroid_x]]> beam_dict)).
Proof.
  split.
  - intros beam beams targets Hno. unfold populate_beam_selector. simpl.
    by rewrite (match_target_none _ _ _ Hno).
  - intros beams beam1 unmatched beam2 targets1 target targets2 ring rings cx cy
      beam_dict targets Hdict Hlabel Hlast Hno Hgeo Hc.
    unfold populate_beam_selector in *.
    change (beam1 :: unmatched ++ [beam2]) with ((beam1 :: unmatched) ++ [beam2]).
    rewrite app_assoc, beam_turns_app.
    destruct (beam_turns sum (Api.Items targets) (beams ++ beam1 :: unmatched) (∅, None))
      as [[d m]|] eqn:Hturns; [|done].
    simpl in Hdict. injection Hdict as ->.
    assert (m = Some target) as ->.
    { rewrite beam_turns_app in Hturns.
      destruct (beam_turns sum (Api.Items targets) beams (∅, None)) as [[d0 m0]|];
        [|done].
      cbn [beam_turns mbind result_bind] in Hturns.
      destruct (beam_turn sum (Api.Items targets) beam1 (d0, m0)) as [[d1 m1]|] eqn:Hturn;
        [|done].
      cbn [mbind result_bind] in Hturns. apply beam_turn_state in Hturn.
      unfold targets in Hturn. rewrite match_target_last in Hturn by done.
      apply beam_turns_unmatched_state in Hturns as ->; [done|].
      intros b t Hb. apply Hno, elem_of_app. by left. }
    simpl.
    rewrite match_target_none
      by (intros t; apply Hno, elem_of_app; right; by left).
    by rewrite Hgeo, Hc.
Qed.

Lemma calc_polygon_centroid_inv ring centroid_x centroid_y :
  calc_polygon_centroid sum ring = Ok (centroid_x, centroid_y) →
  ∃ total_x total_y mean_x mean_y,
    sum (ring.*1) = Ok total_x ∧ sum (ring.*2) = Ok total_y ∧
    py_truediv total_x (PyInt (Z.of_nat (length ring))) = Ok mean_x ∧
    py_truediv total_y (PyInt (Z.of_nat (length ring))) = Ok mean_y ∧
    centroid_x = Float.round 2 mean_x ∧ centroid_y = Float.round 2 mean_y.
Proof.
  unfold calc_polygon_centroid.
  change (map fst ring) with (ring.*1). change (map snd ring) with (ring.*2).
  destruct (sum (ring.*1)) as [total_x|]; [|done]. simpl.
  destruct (py_truediv total_x _) as [mean_x|] eqn:Hx; [|done]. simpl.
  destruct (sum (ring.*2)) as [total_y|]; [|done]. simpl.
  destruct (py_truediv total_y _) as [mean_y|] eqn:Hy; [|done]. simpl.
  intros [= <- <-]. by exists total_x, total_y, mean_x, mean_y.
Qed.

Lemma beam_turn_entries beams targets beam d m d' m' :
  beam ∈ beams →
  (∀ k v, d !! k = Some v → selector_entry sum beams targets k v) →
  (∀ t, m = Some t → t ∈ targets) →
  beam_turn sum (Api.Items targets) beam (d, m) = Ok (d', m') →
  (∀ k v, d' !! k = Some v → selector_entry sum beams targets k v) ∧
  (∀ t, m' = Some t → t ∈ targets).
Proof.
  intros Hbeam Hd Hm. simpl.
  destruct (match_target beam targets m) as [target|] eqn:Hmatch; [|done].
  assert (target ∈ targets) as Ht.
  { apply match_target_elem in Hmatch as [?|?]; [by apply Hm|done]. }
  assert (∀ d', d' = <[api_error_key := api_error_centre]> d →
            ∀ k v, d' !! k = Some v → selector_entry sum beams targets k v) as Herror.
  { intros ? -> k v. rewrite lookup_insert. case_decide as Hk; [|by apply Hd].
    intros [= <-]. by left. }
  destruct (Api.geometry target) as [[|ring rings]|] eqn:Hgeo; [done| |].
  - destruct (calc_polygon_centroid sum ring) as [[cx cy]|[]] eqn:Hc; try done.
    + intros [= <- <-]. split; [|by intros t [= <-]].
      intros k v. rewrite lookup_insert. case_decide as Hk; [|by apply Hd].
      intros [= <-]. right.
      apply calc_polygon_centroid_inv
        in Hc as (total_x & total_y & mean_x & mean_y & ? & ? & ? & ? & -> & ->).
      by exists beam, target, ring, rings, total_x, total_y, mean_x, mean_y.
    + intros [= <- <-]. split; [by apply Herror|by intros t [= <-]].
  - intros [= <- <-]. split; [by apply Herror|by intros t [= <-]].
Qed.

Lemma beam_turns_entries beams targets turns d m d' m' :
  (∀ beam, beam ∈ turns → beam ∈ beams) →
  (∀ k v, d !! k = Some v → selector_entry sum beams targets k v) →
  (∀ t, m = Some t → t ∈ targets) →
  beam_turns sum (Api.Items targets) turns (d, m) = Ok (d', m') →
  ∀ k v, d' !! k = Some v → selector_entry sum beams targets k v.
Proof.
  revert d m. induction turns as [|beam turns IH]; intros d m Hsub Hd Hm.
  - by intros [= <- <-].
  - cbn [beam_turns].
    destruct (beam_turn sum (Api.Items targets) beam (d, m)) as [[d1 m1]|] eqn:Hturn;
      [|done].
    destruct (beam_turn_entries beams targets beam d m d1 m1) as [Hd1 Hm1];
      [apply Hsub; by left|done..|].
    apply IH; [|done..]. intros b Hb. apply Hsub. by right.
Qed.

(** X16. The selector invents no entry: each of its keys is
    "API Response Error", at [50.64, -123.60], or the name of a target of
    the answer, an underscore and the short name of a beam of the answer,
    and the value of such a key is the centre of the first ring of that
    target, with the second coordinate first: of each coordinate the [sum]
    over the points of the ring, divided by the number of points, a double,
    and rounded to two decimals as [round] of Python rounds a double. *)
Theorem selector_entries (beams : list Api.Beam) (targets : list Api.Target)
    (beam_dict : gmap string (list float)) (k : string) (v : list float) :
  populate_beam_selector sum (Api.Items beams) (Api.Items targets) = Ok beam_dict →
  beam_dict !! k = Some v →
  selector_entry sum beams targets k v.
Proof.
  unfold populate_beam_selector.
  destruct (beam_turns _ _ beams (∅, None)) as [[d m]|] eqn:Hturns; [|done].
  simpl. intros [= <-].
  eapply beam_turns_entries; [|..|done]; done.
Qed.
End selector_facts.

(** * Configuration and the two scripts *)

Lemma get_config_params_lookup (environ : gmap string string) (k : string) :
  get_config_params environ !! k =
    if decide (k ∈ env_variables) then Some (environ !! k) else None.
Proof.
  unfold get_config_params, env_variables. simpl.
  repeat (rewrite lookup_insert; case_decide;
          [subst k;
           rewrite decide_True by (apply list_elem_of_In; simpl; tauto); done|]).
  rewrite lookup_empty, decide_False; [done|].
  intros Hin%list_elem_of_In. simpl in Hin. intuition congruence.
Qed.

(** X17. The configuration has the six variables of [get_config_params] and
    no other key, each with its value in the environment, or [None] when it
    is not set. It has no ["AWS_INSAR_PROCESS_QUEUE"]: the main function of
    [create_InSAR_pair_sqs.py] raises [KeyError] on reading its queue and
    never sends a message, whatever the environment and the arguments. *)
Theorem config_has_no_queue {Response : Type} (environ : gmap string string)
    (args : Sqs.Args) (send_message : Sqs.Message → result Response) (k : string) :
  (k ∈ env_variables → getitem (get_config_params environ) k = Ok (environ !! k)) ∧
  (k ∉ env_variables → getitem (get_config_params environ) k = Raise KeyError) ∧
  Sqs.main environ args send_message = Raise KeyError.
Proof.
  unfold Sqs.main, getitem. rewrite !get_config_params_lookup. split_and!.
  - intros Hk. by rewrite decide_True.
  - intros Hk. by rewrite decide_False.
  - rewrite decide_False; [done|].
    intros Hin%list_elem_of_In. simpl in Hin. intuition congruence.
Qed.

Section fetch.
Context {C : Type} (bucket : gmap string C).
Implicit Types fs : FileSystem C.

Lemma download_pair_file site beam fs p :
  files (download_pair bucket site beam fs) !! p =
    match bucket !! (site +:+ "/" +:+ beam +:+ "/InSAR_Pair_All.csv") with
    | Some content =>
        if decide
             (p = "app/Data/" +:+ site +:+ "/" +:+ beam +:+ "/InSAR_Pair_All.csv")
        then Some content else files fs !! p
    | None => files fs !! p
    end.
Proof.
  unfold download_pair.
  destruct (bucket !! _) as [content|]; simpl.
  - rewrite lookup_insert. case_decide; case_decide; try done; by destruct (path_exists _ _).
  - by destruct (path_exists _ _).
Qed.

Lemma download_pair_exists site beam fs :
  path_exists ("app/Data/" +:+ site +:+ "/" +:+ beam)
              (download_pair bucket site beam fs) = true.
Proof.
  unfold download_pair.
  destruct (path_exists _ fs) eqn:Hex.
  - destruct (bucket !! _) as [content|]; [|done].
    unfold path_exists in *. simpl.
    apply orb_true_iff in Hex as [Hd|Hf]; apply orb_true_iff; [by left|right].
    apply bool_decide_eq_true in Hf. apply bool_decide_eq_true.
    rewrite lookup_insert. by case_decide.
  - assert (path_exists ("app/Data/" +:+ site +:+ "/" +:+ beam)
              (makedirs ("app/Data/" +:+ site +:+ "/" +:+ beam) fs) = true) as Hmk.
    { unfold path_exists, makedirs. simpl. apply orb_true_iff. left.
      apply bool_decide_eq_true. set_solver. }
    destruct (bucket !! _) as [content|]; [|done].
    unfold path_exists in *. simpl in *.
    apply orb_true_iff in Hmk as [Hd|Hf]; apply orb_true_iff; [by left|right].
    apply bool_decide_eq_true in Hf. apply bool_decide_eq_true.
    rewrite lookup_insert. by destruct (decide _).
Qed.

Lemma download_pair_exists_mono site beam fs p :
  path_exists p fs = true → path_exists p (download_pair bucket site beam fs) = true.
Proof.
  intros Hex. unfold download_pair.
  assert (∀ fs0 : FileSystem C, path_exists p fs0 = true →
            path_exists p (if path_exists ("app/Data/" +:+ site +:+ "/" +:+ beam) fs0
                           then fs0
                           else makedirs ("app/Data/" +:+ site +:+ "/" +:+ beam) fs0)
            = true) as Hmk.
  { intros fs0 H0.
    destruct (path_exists ("app/Data/" +:+ site +:+ "/" +:+ beam) fs0); [done|].
    unfold path_exists, makedirs in *. simpl.
    apply orb_true_iff in H0 as [Hd%bool_decide_eq_true|Hf]; apply orb_true_iff.
    - left. apply bool_decide_eq_true. set_solver.
    - by right. }
  specialize (Hmk fs Hex).
  destruct (bucket !! _) as [content|]; [|done].
  unfold path_exists in *. simpl.
  apply orb_true_iff in Hmk as [Hd|Hf]; apply orb_true_iff; [by left|right].
  apply bool_decide_eq_true in Hf. apply bool_decide_eq_true.
  rewrite lookup_insert. by destruct (decide _).
Qed.

(** The beams of one site, and then the whole list: a path that is not the
    place of an object of the bucket keeps its file. *)
Lemma beams_keep site beams fs p :
  (∀ key, is_Some (bucket !! key) → p ≠ "app/Data/" +:+ key) →
  files (foldl (λ fs beam, download_pair bucket site beam fs) fs beams) !! p
    = files fs !! p.
Proof.
  intros Hp. revert fs. induction beams as [|beam beams IH]; intros fs; [done|].
  simpl. rewrite IH, download_pair_file.
  destruct (bucket !! _) as [content|] eqn:Hkey; [|done].
  rewrite decide_False; [done|]. by apply Hp.
Qed.

Lemma sites_keep beam_list fs p :
  (∀ key, is_Some (bucket !! key) → p ≠ "app/Data/" +:+ key) →
  files (get_latest_insar_pairs bucket beam_list fs) !! p = files fs !! p.
Proof.
  intros Hp. unfold get_latest_insar_pairs. revert fs.
  induction beam_list as [|[site beams] beam_list IH]; intros fs; [done|].
  simpl. by rewrite IH, beams_keep.
Qed.

(** A file that holds its object of the bucket holds it afterwards. *)
Lemma download_pair_synced site beam fs key content :
  bucket !! key = Some content →
  files fs !! ("app/Data/" +:+ key) = Some content →
  files (download_pair bucket site beam fs) !! ("app/Data/" +:+ key) = Some content.
Proof.
  intros Hkey Hfile. rewrite download_pair_file.
  destruct (bucket !! (site +:+ "/" +:+ beam +:+ "/InSAR_Pair_All.csv"))
    as [content'|] eqn:Hkey'; [|done].
  case_decide as Hp; [|done].
  apply (inj (String.app "app/Data/")) in Hp. subst key. congruence.
Qed.

Lemma beams_synced site beams fs key content :
  bucket !! key = Some content →
  files fs !! ("app/Data/" +:+ key) = Some content →
  files (foldl (λ fs beam, download_pair bucket site beam fs) fs beams)
    !! ("app/Data/" +:+ key) = Some content.
Proof.
  intros Hkey. revert fs. induction beams as [|beam beams IH]; intros fs Hfile;
    [done|].
  simpl. apply IH. by apply download_pair_synced.
Qed.

Lemma sites_synced beam_list fs key content :
  bucket !! key = Some content →
  files fs !! ("app/Data/" +:+ key) = Some content →
  files (get_latest_insar_pairs bucket beam_list fs) !! ("app/Data/" +:+ key)
    = Some content.
Proof.
  intros Hkey. unfold get_latest_insar_pairs. revert fs.
  induction beam_list as [|[site beams] beam_list IH]; intros fs Hfile; [done|].
  simpl. apply IH. by apply beams_synced.
Qed.

Lemma beams_exist_mono site beams fs p :
  path_exists p fs = true →
  path_exists p (foldl (λ fs beam, download_pair bucket site beam fs) fs beams) = true.
Proof.
  revert fs. induction beams as [|beam beams IH]; intros fs Hex; [done|].
  simpl. by apply IH, download_pair_exists_mono.
Qed.

Lemma sites_exist_mono beam_list fs p :
  path_exists p fs = true →
  path_exists p (get_latest_insar_pairs bucket beam_list fs) = true.
Proof.
  unfold get_latest_insar_pairs. revert fs.
  induction beam_list as [|[site beams] beam_list IH]; intros fs Hex; [done|].
  simpl. by apply IH, beams_exist_mono.
Qed.

Lemma beams_download site beams beam fs content :
  beam ∈ beams →
  bucket !! (site +:+ "/" +:+ beam +:+ "/InSAR_Pair_All.csv") = Some content →
  let fs' := foldl (λ fs beam, download_pair bucket site beam fs) fs beams in
  files fs' !! ("app/Data/" +:+ site +:+ "/" +:+ beam +:+ "/InSAR_Pair_All.csv")
    = Some content ∧
  path_exists ("app/Data/" +:+ site +:+ "/" +:+ beam) fs' = true.
Proof.
  intros Hbeam Hkey. simpl. revert fs.
  induction beams as [|b beams IH]; intros fs; [by apply elem_of_nil in Hbeam|].
  simpl. apply elem_of_cons in Hbeam as [<-|Hbeam]; [|by apply IH].
  split.
  - apply (beams_synced _ _ _ _ _ Hkey).
    rewrite download_pair_file, Hkey. by rewrite decide_True.
  - apply beams_exist_mono, download_pair_exists.
Qed.
Lemma sites_download beam_list site beams beam fs content :
  (site, beams) ∈ beam_list → beam ∈ beams →
  bucket !! (site +:+ "/" +:+ beam +:+ "/InSAR_Pair_All.csv") = Some content →
  let fs' := get_latest_insar_pairs bucket beam_list fs in
  files fs' !! ("app/Data/" +:+ site +:+ "/" +:+ beam +:+ "/InSAR_Pair_All.csv")
    = Some content ∧
  path_exists ("app/Data/" +:+ site +:+ "/" +:+ beam) fs' = true.
Proof.
  intros Hsite Hbeam Hkey. simpl. revert fs.
  induction beam_list as [|[s bs] beam_list IH]; intros fs;
    [by apply elem_of_nil in Hsite|].
  apply elem_of_cons in Hsite as [[= <- <-]|Hsite]; [|by apply IH].
  destruct (beams_download site beams beam fs content Hbeam Hkey) as [Hf Hd].
  unfold get_latest_insar_pairs. simpl. split.
  - by apply (sites_synced beam_list _ _ _ Hkey).
  - by apply sites_exist_mono.
Qed.
End fetch.

(** X18. After [get_latest_insar_pairs], every site and beam of the list
    whose [InSAR_Pair_All.csv] is in the bucket has its directory and, in
    it, the file with the content of the object, also when objects of other
    sites and beams are missing. *)
Theorem fetch_downloads {C : Type} (bucket : gmap string C)
    (beam_list : list (string * list string)) (fs : FileSystem C)
    (site beam : string) (beams : list string) (content : C) :
  (site, beams) ∈ beam_list → beam ∈ beams →
  bucket !! (site +:+ "/" +:+ beam +:+ "/InSAR_Pair_All.csv") = Some content →
  let fs' := get_latest_insar_pairs bucket beam_list fs in
  files fs' !! ("app/Data/" +:+ site +:+ "/" +:+ beam +:+ "/InSAR_Pair_All.csv")
    = Some content ∧
  path_exists ("app/Data/" +:+ site +:+ "/" +:+ beam) fs' = true.
Proof. apply sites_download. Qed.

(** X19. [get_latest_insar_pairs] writes nothing but objects of the bucket:
    a path that is not ["app/Data/"] followed by the key of an object keeps
    its file, or stays without one. So the file of a site and beam whose
    object is missing is left as it was. *)
Theorem fetch_keeps {C : Type} (bucket : gmap string C)
    (beam_list : list (string * list string)) (fs : FileSystem C) :
  let fs' := get_latest_insar_pairs bucket beam_list fs in
  (∀ p, (∀ key, is_Some (bucket !! key) → p ≠ "app/Data/" +:+ key) →
        files fs' !! p = files fs !! p) ∧
  (∀ site beam,
     bucket !! (site +:+ "/" +:+ beam +:+ "/InSAR_Pair_All.csv") = None →
     files fs' !! ("app/Data/" +:+ site +:+ "/" +:+ beam +:+ "/InSAR_Pair_All.csv")
       = files fs !! ("app/Data/" +:+ site +:+ "/" +:+ beam +:+ "/InSAR_Pair_All.csv")).
Proof.
  simpl. split; [apply sites_keep|].
  intros site beam Hnone. apply sites_keep.
  intros key [content Hkey] Hp.
  apply (inj (String.app "app/Data/")) in Hp. subst key. congruence.
Qed.

(** X20. The reader finds what the fetcher wrote. After
    [get_latest_insar_pairs], for a site and beam of the list whose beam has
    no underscore, [_insar_pair_csv] of the selector key [site_beam] is the
    path of the fetched file, and [_read_insar_pair] returns the table of
    the bucket when its valued pairs are in order. *)
Theorem fetch_then_read (bucket : gmap string (list PairRecord))
    (beam_list : list (string * list string)) (fs : FileSystem (list PairRecord))
    (site beam : string) (beams : list string) (insar : list PairRecord) :
  (site, beams) ∈ beam_list → beam ∈ beams → no_underscore beam →
  bucket !! (site +:+ "/" +:+ beam +:+ "/InSAR_Pair_All.csv") = Some insar →
  ordered_dates insar →
  let fs' := get_latest_insar_pairs bucket beam_list fs in
  (insar_pair_csv ← _insar_pair_csv (site +:+ "_" +:+ beam);
   _read_insar_pair (λ path, files fs' !! path) insar_pair_csv)
  = Ok (Some insar).
Proof.
  intros Hsite Hbeam Hno Hkey Hordered. simpl.
  destruct (site_beam_paths site beam Hno) as (_ & -> & _). simpl.
  destruct (sites_download bucket beam_list site beams beam fs insar
              Hsite Hbeam Hkey) as [-> _].
  by rewrite (ordered_dates_existsb _ Hordered).
Qed.

(** * The baseline chart *)

Lemma elem_of_merge_bperp (df_baseline : list Baseline.Row) (key : Z) (v : option float) :
  v ∈ merge_bperp df_baseline key ↔
  (∃ row, row ∈ df_baseline ∧ Baseline.second_date row = key ∧
          Baseline.bperp row = v) ∨
  (v = None ∧ ∀ row, row ∈ df_baseline → Baseline.second_date row ≠ key).
Proof.
  unfold merge_bperp.
  destruct (List.filter _ df_baseline) as [|m matches] eqn:Hf.
  - rewrite list_elem_of_singleton. split.
    + intros ->. right. split; [done|]. intros row Hrow Hkey.
      assert (In row (List.filter
                (λ b, bool_decide (Baseline.second_date b = key)) df_baseline))
        as Hin.
      { apply filter_In. split; [by apply list_elem_of_In|].
        by apply bool_decide_eq_true. }
      by rewrite Hf in Hin.
    + intros [(row & Hrow & Hkey & _)|[-> _]]; [|done].
      assert (In row (List.filter
                (λ b, bool_decide (Baseline.second_date b = key)) df_baseline))
        as Hin.
      { apply filter_In. split; [by apply list_elem_of_In|].
        by apply bool_decide_eq_true. }
      by rewrite Hf in Hin.
  - rewrite <-Hf. rewrite list_elem_of_fmap. split.
    + intros (row & -> & Hrow). left. exists row.
      apply list_elem_of_In, filter_In in Hrow as [Hrow Hkey].
      apply list_elem_of_In in Hrow. apply bool_decide_eq_true in Hkey. done.
    + intros [(row & Hrow & Hkey & <-)|[-> Hno]].
      * exists row. split; [done|]. apply list_elem_of_In, filter_In.
        split; [by apply list_elem_of_In|by apply bool_decide_eq_true].
      * assert (m ∈ List.filter
                  (λ b, bool_decide (Baseline.second_date b = key)) df_baseline)
          as Hm by (rewrite Hf; by left).
        apply list_elem_of_In, filter_In in Hm as [Hm Hkey].
        apply list_elem_of_In in Hm. apply bool_decide_eq_true in Hkey.
        by destruct (Hno m Hm).
Qed.

Lemma elem_of_baseline_edges df_baseline df_cohfull (e : Edge) :
  e ∈ baseline_edges df_baseline df_cohfull ↔
  ∃ r, r ∈ df_cohfull ∧ value r ≠ None ∧
       edge_first_date e = first_date r ∧ edge_second_date e = second_date r ∧
       bperp_reference_date e ≠ None ∧
       bperp_reference_date e ∈ merge_bperp df_baseline (first_date r) ∧
       bperp_pair_date e ∈ merge_bperp df_baseline (second_date r).
Proof.
  unfold baseline_edges.
  rewrite list_elem_of_In, filter_In, <-list_elem_of_In.
  rewrite list_elem_of_bind. split.
  - intros [([[first second] reference] & He & Hrow) Href].
    apply list_elem_of_bind in He as (pair_bperp & He & Hpair).
    apply list_elem_of_ret in He as ->. simpl in *.
    apply list_elem_of_bind in Hrow as (r & Hrow & Hr).
    apply list_elem_of_bind in Hrow as (reference' & Hrow & Hreference).
    apply list_elem_of_ret in Hrow as [= -> -> ->].
    apply list_elem_of_In, filter_In in Hr as [Hr Hv].
    apply list_elem_of_In in Hr.
    exists r. split_and!; try done.
    + by destruct (value r).
    + by destruct reference'.
  - intros (r & Hr & Hv & Hfirst & Hsecond & Href & Hreference & Hpair).
    destruct e as [first second reference pair_bperp]. simpl in *. subst.
    split; [|by destruct reference].
    exists (first_date r, second_date r, reference). split.
    + apply list_elem_of_bind. exists pair_bperp. split; [|done].
      by apply list_elem_of_ret.
    + apply list_elem_of_bind. exists r. split.
      * apply list_elem_of_bind. exists reference. split; [|done].
        by apply list_elem_of_ret.
      * apply list_elem_of_In, filter_In. split; [by apply list_elem_of_In|].
        by destruct (value r).
Qed.

(** The rows of [df_baseline_edge] in the order of the two merges: for each
    pair of the coherence table that has a value, in the order of that
    table, and each baseline row of its first date that has a perpendicular
    baseline, in the order of the baseline table, one row for each baseline
    row of its second date, in that order, or one row with a null when the
    second date has no baseline row. *)
Lemma baseline_edges_rows df_baseline df_cohfull :
  let rows_of date :=
    List.filter (λ row, bool_decide (Baseline.second_date row = date)) df_baseline in
  baseline_edges df_baseline df_cohfull =
    (r ← df_cohfull;
     if value r is Some _ then
       reference ← List.filter (λ row, bool_decide (Baseline.bperp row ≠ None))
                               (rows_of (first_date r));
       match rows_of (second_date r) with
       | [] => [mkEdge (first_date r) (second_date r) (Baseline.bperp reference) None]
       | rows => map (λ row, mkEdge (first_date r) (second_date r)
                               (Baseline.bperp reference) (Baseline.bperp row)) rows
       end
     else []).
Proof.
  intros rows_of. unfold baseline_edges.
  set (referenced := λ e, if bperp_reference_date e is Some _ then true else false).
  set (second_merge := λ t : Z * Z * option float,
         let '(first, second, reference) := t in
         pair_bperp ← merge_bperp df_baseline second;
         mret (mkEdge first second reference pair_bperp)).
  assert (∀ first second reference,
            List.filter referenced (second_merge (first, second, reference)) =
            if reference is Some _
            then map (mkEdge first second reference) (merge_bperp df_baseline second)
            else []) as Hsecond.
  { intros first second reference. unfold second_merge.
    induction (merge_bperp df_baseline second) as [|pair_bperp l IH].
    - by destruct reference.
    - rewrite bind_cons. cbn [mret list_ret app List.filter]. rewrite IH.
      unfold referenced at 1. simpl. by destruct reference. }
  assert (∀ first second (references : list Baseline.Row),
            List.filter referenced
              ((reference ← map Baseline.bperp references;
                mret (first, second, reference)) ≫= second_merge) =
            (reference ← List.filter (λ row, bool_decide (Baseline.bperp row ≠ None))
                                     references;
             map (mkEdge first second (Baseline.bperp reference))
                 (merge_bperp df_baseline second))) as Hfirst.
  { intros first second references.
    induction references as [|row references IH]; [done|].
    cbn [map List.filter]. rewrite !bind_cons, bind_app, List.filter_app, IH.
    change (mret (first, second, Baseline.bperp row) ≫= second_merge)
      with (second_merge (first, second, Baseline.bperp row) ++ []).
    rewrite app_nil_r, Hsecond.
    destruct (Baseline.bperp row) eqn:Hrow.
    - rewrite bool_decide_true by done. by rewrite bind_cons, Hrow.
    - by rewrite bool_decide_false by (by intros []). }
  induction df_cohfull as [|r df_cohfull IH]; [done|].
  rewrite bind_cons, <-IH. cbn [List.filter].
  destruct (value r) as [v|]; [|done].
  rewrite !bind_cons, bind_app, List.filter_app. f_equal.
  unfold merge_bperp at 1. fold (rows_of (first_date r)).
  assert (∀ reference,
            map (mkEdge (first_date r) (second_date r) (Baseline.bperp reference))
                (merge_bperp df_baseline (second_date r)) =
            match rows_of (second_date r) with
            | [] => [mkEdge (first_date r) (second_date r) (Baseline.bperp reference) None]
            | rows => map (λ row, mkEdge (first_date r) (second_date r)
                                    (Baseline.bperp reference) (Baseline.bperp row)) rows
            end) as Hrows.
  { intros reference. unfold merge_bperp. fold (rows_of (second_date r)).
    destruct (rows_of (second_date r)); [done|]. by rewrite map_map. }
  destruct (rows_of (first_date r)) as [|row rows] eqn:Hreferences.
  - cbn [mbind list_bind mret list_ret app]. rewrite app_nil_r.
    by rewrite Hsecond.
  - rewrite Hfirst. apply list_bind_ext; [|done]. intros reference. apply Hrows.
Qed.

(** X21. The network chart is empty when the baseline or the coherence
    table is missing. Otherwise it has the line trace and the marker trace,
    and the two lists of the line trace are the ends of the same segments,
    which are, in this order and as often: for each pair of the coherence
    table that has a value, in the order of that table, and each baseline
    row of its first date that has a perpendicular baseline, in the order of
    the baseline table, one segment to each baseline row of its second date,
    in that order, or one segment to a null when the second date has no
    row. A segment joins the two dates of the pair, from the perpendicular
    baseline of the row of the first date to that of the row of the second
    date. So each such pair and rows give a segment, and there is no
    other. *)
Theorem plot_baseline_segments
    (df_baseline : list Baseline.Row) (df_cohfull : list PairRecord) :
  plot_baseline None (Some df_cohfull) = empty_figure ∧
  plot_baseline (Some df_baseline) None = empty_figure ∧
  plot_baseline None None = empty_figure ∧
  let rows_of date :=
    List.filter (λ row, bool_decide (Baseline.second_date row = date)) df_baseline in
  let segments : list Edge :=
    r ← df_cohfull;
    if value r is Some _ then
      reference ← List.filter (λ row, bool_decide (Baseline.bperp row ≠ None))
                              (rows_of (first_date r));
      match rows_of (second_date r) with
      | [] => [mkEdge (first_date r) (second_date r) (Baseline.bperp reference) None]
      | rows => map (λ row, mkEdge (first_date r) (second_date r)
                              (Baseline.bperp reference) (Baseline.bperp row)) rows
      end
    else [] in
  figure_data (plot_baseline (Some df_baseline) (Some df_cohfull)) =
    [ mkTrace (e ← segments; [edge_first_date e; edge_second_date e])
              (e ← segments; [bperp_reference_date e; bperp_pair_date e])
              "lines";
      mkTrace (map Baseline.second_date df_baseline)
              (map Baseline.bperp df_baseline) "markers" ] ∧
  ∀ first second y_first y_second,
    mkEdge first second y_first y_second ∈ segments ↔
    ∃ r, r ∈ df_cohfull ∧ value r ≠ None ∧
         first = first_date r ∧ second = second_date r ∧
         (∃ row, row ∈ df_baseline ∧ Baseline.second_date row = first ∧
                 Baseline.bperp row = y_first ∧ y_first ≠ None) ∧
         ((∃ row, row ∈ df_baseline ∧ Baseline.second_date row = second ∧
                  Baseline.bperp row = y_second) ∨
          (y_second = None ∧
           ∀ row, row ∈ df_baseline → Baseline.second_date row ≠ second)).
Proof.
  split_and!; try done.
  intros rows_of segments.
  assert (segments = baseline_edges df_baseline df_cohfull) as Hsegments
    by (symmetry; apply baseline_edges_rows).
  clearbody segments. subst segments. split; [done|].
  intros first second y_first y_second.
  rewrite elem_of_baseline_edges. simpl.
  split.
  - intros (r & Hr & Hv & -> & -> & Hne & Href & Hpair).
    exists r. split_and!; try done.
    + apply elem_of_merge_bperp in Href as [(row & ? & ? & ?)|[? _]]; [|done].
      by exists row.
    + by apply elem_of_merge_bperp in Hpair.
  - intros (r & Hr & Hv & -> & -> & (row & Hrow & Hkey & Hb & Hne) & Hpair).
    exists r. split_and!; try done.
    + apply elem_of_merge_bperp. left. by exists row.
    + by apply elem_of_merge_bperp.
Qed.

(** X22. An API that does not answer ends in empty charts, not in an
    exception: the selector then has the one key "API Response Error", for
    which the three paths are [None], the two readers return [None] without
    reading a file, and [plot_baseline] returns the empty chart. *)
Theorem api_failure_degrades
    (sum : list number → result number)
    (targets : Api.Response Api.Target)
    (read_csv : string → option (list PairRecord))
    (read_bperp : string → option (list Baseline.Row))
    (df_cohfull : option (list PairRecord)) :
  ∃ beam_dict,
    populate_beam_selector sum Api.Error targets = Ok beam_dict ∧
    (∀ target_id, is_Some (beam_dict !! target_id) ↔
                  target_id = "API Response Error") ∧
    (coherence_csv ← _coherence_csv "API Response Error";
     _read_coherence read_csv coherence_csv) = Ok None ∧
    (insar_pair_csv ← _insar_pair_csv "API Response Error";
     _read_insar_pair read_csv insar_pair_csv) = Ok None ∧
    (baseline_csv ← _baseline_csv "API Response Error";
     Ok (plot_baseline (_read_baseline read_bperp baseline_csv) df_cohfull))
      = Ok empty_figure.
Proof.
  eexists. split; [done|]. split_and!; try done.
  intros target_id. unfold api_error_key.
  rewrite lookup_insert. case_decide as Hk.
  - subst. split; [done|]. by eexists.
  - rewrite lookup_empty. split; [by intros [? ?]|]. by intros ->.
Qed.

(** * The map markers *)

Section marker_facts.
Context (unrest_table_df : list (string * bool)) (get_target : string → target_outcome)
        (today : Z) (strptime_Ymd : string → result Z).

(** Every feature that [calculate_and_append_centroids] returns is a point
    with two coordinates. *)
Lemma centroids_points features fs :
  calculate_and_append_centroids features = Ok fs →
  Forall (λ f, geometry_type (geometry f) = "Point" ∧
               ∃ x y, coordinates (geometry f) = Position [x; y]) fs.
Proof.
  revert fs. induction features as [|f features IH]; intros fs; simpl.
  - intros [= <-]. constructor.
  - destruct (coordinates (geometry f)) as [[|ring rings]|[|x xy]]; try done.
    simpl. unfold calculate_centroid.
    destruct (add_points _ ring) as [[total_x total_y]|]; [|done]. simpl.
    destruct (py_truediv total_x _) as [centroid_x|]; [|done]. simpl.
    destruct (py_truediv total_y _) as [centroid_y|]; [|done]. simpl.
    destruct (calculate_and_append_centroids features) as [rest|e]; [|done].
    simpl. intros [= <-]. constructor; [|by apply IH].
    simpl. eauto.
Qed.

Lemma set_latest_sites site v rows :
  map (λ r, (Site r, Unrest r)) (set_latest site v rows)
    = map (λ r, (Site r, Unrest r)) rows.
Proof.
  induction rows as [|row rows IH]; [done|]. simpl.
  case_decide; simpl; [done|]. by rewrite IH.
Qed.

Lemma visit_sites_sites sites st st' :
  visit_sites get_target today strptime_Ymd sites st = Ok st' →
  map (λ r, (Site r, Unrest r)) st'.1 = map (λ r, (Site r, Unrest r)) st.1.
Proof.
  revert st. induction sites as [|site sites IH]; intros [rows has_column]; simpl.
  - by intros [= <-].
  - destruct (get_target site) as [|[datetime|] beam]; simpl.
    + intros H%IH. simpl in H. by rewrite H, set_latest_sites.
    + destruct (date_difference today strptime_Ymd _) as [days|e]; [|done]. simpl.
      intros H%IH. simpl in H. by rewrite H, set_latest_sites.
    + apply IH.
Qed.

Lemma merge_left_unrest f row :
  row ∈ merge_left unrest_table_df f →
  match unrest_values unrest_table_df (name_en f) with
  | [] => Unrest row = Null
  | values => ∃ u, u ∈ values ∧ Unrest row = Flag u
  end.
Proof.
  unfold merge_left, unrest_values.
  destruct (List.filter _ unrest_table_df) as [|u l] eqn:Hfilter.
  - by intros ->%list_elem_of_singleton.
  - intros (u' & -> & Hu')%list_elem_of_fmap. simpl.
    exists u'.2. split; [|done].
    change (u'.2 ∈ map snd (u :: l)). apply list_elem_of_fmap. eauto.
Qed.

Lemma unrest_values_unique name u :
  NoDup (unrest_table_df.*1) →
  u ∈ unrest_values unrest_table_df name →
  unrest_values unrest_table_df name = [u].
Proof.
  unfold unrest_values. induction unrest_table_df as [|[site v] l IH]; simpl.
  - by intros _ ?%elem_of_nil.
  - intros [Hsite Hl]%NoDup_cons. case_bool_decide as Heq; simpl in *.
    + subst site.
      assert (List.filter (λ u0, bool_decide (u0.1 = name)) l = []) as ->.
      { destruct (List.filter _ l) as [|w ws] eqn:Hf; [done|].
        assert (In w (List.filter (λ u0, bool_decide (u0.1 = name)) l)) as Hw
          by (rewrite Hf; by left).
        apply filter_In in Hw as [Hw Hname%bool_decide_eq_true].
        destruct Hsite. apply list_elem_of_fmap. exists w.
        by split; [|apply list_elem_of_In]. }
      simpl. by intros ->%list_elem_of_singleton.
    + by apply IH.
Qed.

(** The look-up of the markers in a list of rows: the unrest of a row of the
    site when there is one. *)
Lemma lookup_unrest (rows : list TargetRow) (name : string) :
  (∃ r, r ∈ rows ∧ Site r = name) →
  ∃ r, r ∈ rows ∧ Site r = name ∧
    list_getitem
      (map snd (List.filter (λ row : Cell * Cell, bool_decide (row.1 = Str name))
                   (zip (map (λ r, Str (Site r)) rows) (map Unrest rows)))) 0
      = Ok (Unrest r).
Proof.
  induction rows as [|row rows IH]; intros (r & Hr & Hname).
  - by apply elem_of_nil in Hr.
  - simpl. case_bool_decide as Heq.
    + exists row. split; [by left|]. split; [congruence|done].
    + apply elem_of_cons in Hr as [->|Hr]; [by rewrite Hname in Heq|].
      destruct IH as (r' & ? & ? & ?); [by eauto|].
      exists r'. split; [by right|done].
Qed.

(** The loop over the sites raises what [strptime] raises. *)
Lemma visit_sites_raises sites st e :
  visit_sites get_target today strptime_Ymd sites st = Raise e →
  ∃ s, strptime_Ymd s = Raise e.
Proof.
  revert st. induction sites as [|site sites IH]; intros [rows has_column]; simpl;
    [done|].
  destruct (get_target site) as [|[datetime|] beam]; simpl; [by apply IH| |by apply IH].
  unfold date_difference.
  destruct (strptime_Ymd _) as [date|e'] eqn:Hdate; simpl; [by apply IH|].
  intros [= <-]. eauto.
Qed.

(** The cell that the markers read for a volcano of the GeoJSON: it is
    there, and true or false as the unrest table has the site. *)
Lemma summary_unrest_spec fs table f :
  (∀ s, strptime_Ymd s ≠ Raise NotImplementedError) →
  NoDup (unrest_table_df.*1) →
  build_summary_table unrest_table_df get_target today strptime_Ymd (Some fs)
    = Ok table →
  f ∈ fs → is_volcano_id (feature_id f) = true →
  ∃ cond2, summary_unrest table (name_en f) = Ok cond2 ∧
           truthy cond2 = marker_unrest unrest_table_df (name_en f).
Proof.
  intros Hstrptime Hnodup Htable Hf Hid. unfold build_summary_table in Htable.
  simpl in Htable. fold (merged_rows unrest_table_df fs) in Htable.
  destruct (visit_sites _ _ _ _ _) as [[rows has_column]|e] eqn:Hvisit.
  2: { apply visit_sites_raises in Hvisit as [s Hs]. simpl in Htable.
       destruct e; try done. by destruct (Hstrptime s). }
  simpl in Htable. destruct has_column; [|done]. simpl in Htable.
  injection Htable as <-.
  apply visit_sites_sites in Hvisit. simpl in Hvisit.
  set (sorted := merge_sort _ rows).
  assert (∀ r, r ∈ sorted →
            ∃ r0, r0 ∈ merged_rows unrest_table_df fs ∧
                  Site r0 = Site r ∧ Unrest r0 = Unrest r) as Hback.
  { intros r Hr. unfold sorted in Hr. rewrite merge_sort_Permutation in Hr.
    assert ((Site r, Unrest r) ∈ map (λ r, (Site r, Unrest r)) rows) as Hin
      by (apply list_elem_of_fmap; eauto).
    rewrite Hvisit in Hin. apply list_elem_of_fmap in Hin as (r0 & [= ? ?] & ?).
    eauto. }
  assert (∃ r, r ∈ sorted ∧ Site r = name_en f) as Hsome.
  { destruct (merged_rows_site unrest_table_df fs f Hf Hid) as (r0 & Hr0 & Hsite).
    assert ((Site r0, Unrest r0) ∈ map (λ r, (Site r, Unrest r)) rows) as Hin
      by (rewrite Hvisit; apply list_elem_of_fmap; eauto).
    apply list_elem_of_fmap in Hin as (r & [= ? ?] & ?).
    exists r. split; [|congruence].
    unfold sorted. by rewrite merge_sort_Permutation. }
  apply lookup_unrest in Hsome as (r & Hr & Hsite & Hget).
  exists (Unrest r). split.
  - unfold summary_unrest, summary_column. simpl.
    rewrite !map_map. simpl. exact Hget.
  - destruct (Hback r Hr) as (r0 & Hr0 & Hsite0 & <-).
    unfold merged_rows in Hr0. apply elem_of_concat in Hr0 as (l & Hr0 & Hl).
    apply list_elem_of_fmap in Hl as (g & -> & _).
    pose proof (merge_left_rows unrest_table_df g r0 Hr0) as (_ & Hg & _).
    apply merge_left_unrest in Hr0.
    assert (name_en g = name_en f) as Hname by congruence.
    rewrite Hname in Hr0. unfold marker_unrest.
    destruct (unrest_values unrest_table_df (name_en f)) as [|v vs] eqn:Hvalues.
    + by rewrite Hr0.
    + destruct Hr0 as (u & Hu & ->). rewrite <- Hvalues in Hu.
      apply unrest_values_unique in Hu; [|done]. simpl. congruence.
Qed.

(** The loop over the features, when every feature is a point and the
    summary table answers for every feature that the loop looks up. *)
Lemma point_features_filter (wanted : string → bool) (k : bool → bool)
    (table : SummaryTable) (features : list TargetFeature) :
  Forall (λ tf, geometry_type (geometry (target_feature tf)) = "Point") features →
  (∀ tf, tf ∈ features → wanted (feature_id (target_feature tf)) = true →
     ∃ cond2, summary_unrest table (name_en (target_feature tf)) = Ok cond2 ∧
              truthy cond2 = marker_unrest unrest_table_df (name_en (target_feature tf))) →
  point_features wanted (λ cond2, k (truthy cond2)) table features
    = Ok (List.filter
            (λ tf, wanted (feature_id (target_feature tf)) &&
                   k (marker_unrest unrest_table_df (name_en (target_feature tf))))
            features).
Proof.
  induction 1 as [|tf features Hpoint _ IH]; intros Hlook; [done|]. simpl.
  rewrite IH by (intros tf' ?; apply Hlook; by right).
  destruct (wanted _) eqn:Hwanted; [|done].
  destruct (Hlook tf) as (cond2 & -> & Htruthy); [by left|done|]. simpl.
  rewrite bool_decide_eq_true_2, Htruthy by done. simpl.
  by destruct (k _).
Qed.

Lemma feature_markers_points (icon : string) (points : list TargetFeature) :
  Forall (λ tf, ∃ x y, coordinates (geometry (target_feature tf)) = Position [x; y])
         points →
  feature_markers icon points
    = Ok (map (λ tf, mkMarker
                       (rev (coordinate_items (coordinates (geometry (target_feature tf)))))
                       icon (FeatureTooltip (tooltip tf))
                       ("marker_" +:+ name_en (target_feature tf)))
              points).
Proof.
  induction 1 as [|tf points (x & y & Hxy) _ IH]; [done|]. simpl.
  rewrite IH. unfold feature_marker. by rewrite Hxy.
Qed.

(** The markers of one colour on a GeoJSON whose centroids and summary table
    are computed. *)
Lemma volcano_markers_spec (wanted : string → bool) (k : bool → bool)
    (icon error_id : string) features fs table :
  (∀ s, strptime_Ymd s ≠ Raise NotImplementedError) →
  NoDup (unrest_table_df.*1) →
  (∀ id, wanted id = true → is_volcano_id id = true) →
  calculate_and_append_centroids features = Ok fs →
  build_summary_table unrest_table_df get_target today strptime_Ymd (Some fs)
    = Ok table →
  volcano_markers unrest_table_df get_target today strptime_Ymd
      wanted (λ cond2, k (truthy cond2)) icon error_id (GeoJson features)
    = Ok (map (point_marker unrest_table_df icon)
              (List.filter
                 (λ f, wanted (feature_id f) &&
                       k (marker_unrest unrest_table_df (name_en f))) fs)).
Proof.
  intros Hstrptime Hnodup Hwanted Hfs Htable.
  pose proof (centroids_points _ _ Hfs) as Hpoints.
  unfold volcano_markers, read_targets_geojson. rewrite Hfs. simpl.
  rewrite map_map. simpl. rewrite map_id, Htable. simpl.
  rewrite point_features_filter.
  - simpl. rewrite filter_map_swap. simpl.
    rewrite feature_markers_points.
    + by rewrite map_map.
    + apply Forall_forall. intros tf (f & <- & Hf)%list_elem_of_In%in_map_iff.
      apply filter_In in Hf as [Hf%list_elem_of_In _].
      eapply Forall_forall in Hpoints; [|done]. simpl. tauto.
  - apply Forall_forall. intros tf (f & -> & Hf)%list_elem_of_fmap.
    eapply Forall_forall in Hpoints; [|done]. simpl. tauto.
  - intros tf (f & -> & Hf)%list_elem_of_fmap Hw. simpl in *.
    by apply (summary_unrest_spec fs table f); [| | | |apply Hwanted].
Qed.

Lemma wanted_green id : String.prefix "A" id = true → is_volcano_id id = true.
Proof. unfold is_volcano_id. by intros ->. Qed.

Lemma wanted_red id :
  String.prefix "A" id || bool_decide (id = "Edgecumbe") = true →
  is_volcano_id id = true.
Proof.
  unfold is_volcano_id. intros [->| ->%bool_decide_eq_true]%orb_true_iff; [done|].
  by vm_compute.
Qed.

(** X23. On a GeoJSON whose centroids and summary table are computed, with an
    unrest table that lists a site at most once (and a [strptime] that does
    not raise [NotImplementedError]), the green markers are, in
    the order of the GeoJSON, those of the features whose id starts with "A"
    and whose site is listed without unrest; the red markers are those of the
    features whose id starts with "A" or is "Edgecumbe" and whose site is
    listed with unrest or not listed at all. *)
Theorem markers_by_unrest (features fs : list Feature) (table : SummaryTable) :
  (∀ s, strptime_Ymd s ≠ Raise NotImplementedError) →
  NoDup (unrest_table_df.*1) →
  calculate_and_append_centroids features = Ok fs →
  build_summary_table unrest_table_df get_target today strptime_Ymd (Some fs)
    = Ok table →
  get_green_volcanoes unrest_table_df get_target today strptime_Ymd (GeoJson features)
    = Ok (map (point_marker unrest_table_df "green_volcano_transparent.png")
              (List.filter
                 (λ f, String.prefix "A" (feature_id f) &&
                       negb (marker_unrest unrest_table_df (name_en f))) fs)) ∧
  get_red_volcanoes unrest_table_df get_target today strptime_Ymd (GeoJson features)
    = Ok (map (point_marker unrest_table_df "red_volcano_transparent.png")
              (List.filter
                 (λ f, (String.prefix "A" (feature_id f) ||
                        bool_decide (feature_id f = "Edgecumbe")) &&
                       marker_unrest unrest_table_df (name_en f)) fs)).
Proof.
  intros Hstrptime Hnodup Hfs Htable. split.
  - by apply (volcano_markers_spec _ negb _ _ _ _ table); [| |apply wanted_green| |].
  - by apply (volcano_markers_spec
                 (λ id, String.prefix "A" id || bool_decide (id = "Edgecumbe"))
                 (λ b, b) _ _ _ _ table); [| |apply wanted_red| |].
Qed.

(** X24. A volcano whose site the unrest table does not list is drawn red,
    with a tooltip that says "Unrest Observed: False". *)
Theorem unlisted_volcano_red (features fs : list Feature) (table : SummaryTable)
    (f : Feature) :
  (∀ s, strptime_Ymd s ≠ Raise NotImplementedError) →
  NoDup (unrest_table_df.*1) →
  calculate_and_append_centroids features = Ok fs →
  build_summary_table unrest_table_df get_target today strptime_Ymd (Some fs)
    = Ok table →
  f ∈ fs → String.prefix "A" (feature_id f) = true →
  name_en f ∉ unrest_table_df.*1 →
  ∃ red_markers,
    get_red_volcanoes unrest_table_df get_target today strptime_Ymd (GeoJson features)
      = Ok red_markers ∧
    mkMarker (rev (coordinate_items (coordinates (geometry f))))
             "red_volcano_transparent.png"
             (FeatureTooltip (mkTooltip (feature_id f) false))
             ("marker_" +:+ name_en f) ∈ red_markers.
Proof.
  intros Hstrptime Hnodup Hfs Htable Hf Hid Hunlisted.
  eexists. split.
  - by apply (volcano_markers_spec
                 (λ id, String.prefix "A" id || bool_decide (id = "Edgecumbe"))
                 (λ b, b) _ _ _ fs table); [| |apply wanted_red| |].
  - assert (unrest_values unrest_table_df (name_en f) = []) as Hvalues.
    { unfold unrest_values.
      destruct (List.filter _ unrest_table_df) as [|w ws] eqn:Hfilter; [done|].
      assert (In w (List.filter (λ u, bool_decide (u.1 = name_en f)) unrest_table_df))
        as Hw by (rewrite Hfilter; by left).
      apply filter_In in Hw as [Hw Hname%bool_decide_eq_true].
      destruct Hunlisted. apply list_elem_of_fmap. exists w.
      by split; [|apply list_elem_of_In]. }
    apply list_elem_of_fmap. exists f. split.
    + unfold point_marker, tooltip_unrest. by rewrite Hvalues.
    + apply list_elem_of_In, filter_In. split; [by apply list_elem_of_In|].
      unfold marker_unrest. by rewrite Hid, Hvalues.
Qed.

(** X25. When the API cannot be reached each function returns its one
    marker at (0, 0) with the text "API Error"; an error of the centroids,
    a [TypeError] included, is raised before the handler of either function
    and reaches the caller. *)
Theorem markers_fallback :
  (get_green_volcanoes unrest_table_df get_target today strptime_Ymd GeoConnectionFailed
     = Ok [api_error_marker "green_volcano_transparent.png" "TypeError_green"] ∧
   get_red_volcanoes unrest_table_df get_target today strptime_Ymd GeoConnectionFailed
     = Ok [api_error_marker "red_volcano_transparent.png" "TypeError_red"]) ∧
  (∀ features e,
     calculate_and_append_centroids features = Raise e →
     get_green_volcanoes unrest_table_df get_target today strptime_Ymd (GeoJson features)
       = Raise e ∧
     get_red_volcanoes unrest_table_df get_target today strptime_Ymd (GeoJson features)
       = Raise e).
Proof.
  split; [done|]. intros features e He.
  unfold get_green_volcanoes, get_red_volcanoes, volcano_markers, read_targets_geojson.
  by rewrite He.
Qed.

(** X26. When no volcano of the GeoJSON has a last image on record, both
    functions raise the [KeyError] of the summary table, which is built
    before their handler. *)
Theorem markers_no_image (features fs : list Feature) :
  calculate_and_append_centroids features = Ok fs →
  (∀ f, f ∈ fs → is_volcano_id (feature_id f) = true →
        ∃ beam, get_target (feature_id f) = TargetInfo None beam) →
  get_green_volcanoes unrest_table_df get_target today strptime_Ymd (GeoJson features)
    = Raise KeyError ∧
  get_red_volcanoes unrest_table_df get_target today strptime_Ymd (GeoJson features)
    = Raise KeyError.
Proof.
  intros Hfs Hno.
  assert (build_summary_table unrest_table_df get_target today strptime_Ymd (Some fs)
            = Raise KeyError) as Htable.
  { unfold build_summary_table. simpl.
    fold (merged_rows unrest_table_df fs).
    rewrite visit_sites_no_image; [done|].
    intros site (row & -> & Hrow)%list_elem_of_fmap.
    apply merged_rows_spec in Hrow as (f & Hf & Hid & -> & _).
    by apply Hno. }
  unfold get_green_volcanoes, get_red_volcanoes, volcano_markers, read_targets_geojson.
  rewrite Hfs. simpl. rewrite map_map. simpl. rewrite map_id, Htable. done.
Qed.
End marker_facts.

(** * The coherence chart *)

Section chart_facts.
Context (YEAR_AXES_COUNT : positive) (BASELINE_MAX DAYS_PER_YEAR MAX_YEARS : Qc).

Lemma add_delta_days_valued (long : list PairRecord) :
  has_valued_pair long →
  ∃ r, r ∈ add_delta_days long ∧ value (pair r) ≠ None ∧ delta_days r ≠ 0.
Proof.
  intros (r & Hr & Hv & Hd).
  exists (mkLong r (second_date r - first_date r)). split_and!; simpl; [|done|lia].
  apply list_elem_of_fmap. eauto.
Qed.

Lemma add_delta_days_null (long : list PairRecord) :
  ¬ has_valued_pair long →
  ∀ r, r ∈ add_delta_days long → value (pair r) ≠ None → delta_days r = 0.
Proof.
  intros Hnone r (p & -> & Hp)%list_elem_of_fmap Hv. simpl in *.
  destruct (decide (first_date p = second_date p)) as [->|Hd]; [lia|].
  destruct Hnone. by exists p.
Qed.

Lemma delta_days_column_rows (long : list PairRecord) :
  long ≠ [] → delta_days_column long = Ok (add_delta_days long).
Proof. by destruct long. Qed.

Lemma has_valued_pair_rows (long : list PairRecord) : has_valued_pair long → long ≠ [].
Proof. intros (r & Hr & _) ->. by apply elem_of_nil in Hr. Qed.

(** X27. [plot_coherence] returns the empty chart when there is no coherence
    table, whatever the InSAR-pair table is. A coherence table that has rows,
    all of distinct pairs, but no value on a pair of distinct dates does not
    give an empty chart: it raises [TypeError]. When the coherence table has
    such a value, an InSAR-pair table that has rows of distinct pairs and no
    such value raises [IndexError]. *)
Theorem plot_coherence_outcome (coh_long insar_long : list PairRecord)
    (insar : option (list PairRecord)) :
  plot_coherence YEAR_AXES_COUNT BASELINE_MAX DAYS_PER_YEAR MAX_YEARS None insar
    = Ok (replicate (Pos.to_nat YEAR_AXES_COUNT) (mkSubplot [] None None)) ∧
  (distinct_pairs coh_long → coh_long ≠ [] → ¬ has_valued_pair coh_long →
   plot_coherence YEAR_AXES_COUNT BASELINE_MAX DAYS_PER_YEAR MAX_YEARS
                  (Some coh_long) insar = Raise TypeError) ∧
  (distinct_pairs coh_long → has_valued_pair coh_long →
   distinct_pairs insar_long → insar_long ≠ [] → ¬ has_valued_pair insar_long →
   plot_coherence YEAR_AXES_COUNT BASELINE_MAX DAYS_PER_YEAR MAX_YEARS
                  (Some coh_long) (Some insar_long) = Raise IndexError).
Proof.
  split_and!; [done| |].
  - intros Hnd Hrows Hnone. pose proof (add_delta_days_null _ Hnone) as Hnull.
    unfold plot_coherence. rewrite (delta_days_column_rows _ Hrows). simpl.
    destruct (pivot_Ok value _ Hnd) as [W HW].
    rewrite (pivot_and_clean_eq _ _ HW), trim_edges_eq.
    by destruct (cleaned_all_null _ W HW Hnull) as [_ ->].
  - intros Hnd Hvalued Hnd' Hrows' Hnone.
    pose proof (has_valued_pair_rows _ Hvalued) as Hrows.
    apply add_delta_days_valued in Hvalued as (r & Hr & Hv & Hd).
    pose proof (add_delta_days_null _ Hnone) as Hnull.
    unfold plot_coherence. rewrite (delta_days_column_rows _ Hrows). simpl.
    destruct (pivot_and_clean_returns _ r Hnd Hr Hv Hd) as [coh_wide ->]. simpl.
    destruct (pivot_and_clean_dates_returns (add_delta_days coh_long) coh_wide Hnd)
      as [date_wide ->]. simpl.
    rewrite (delta_days_column_rows _ Hrows'). simpl.
    destruct (pivot_Ok value _ Hnd') as [W HW].
    rewrite (pivot_and_clean_insar_eq _ _ HW), trim_edges_insar_eq.
    by destruct (cleaned_all_null _ W HW Hnull) as [-> _].
Qed.

Lemma index_min_sorted (l : list Z) : StronglySorted (≤) l → index_min l = head l.
Proof.
  induction 1 as [|x l Hl IH Hx]; [done|]. simpl. rewrite IH.
  destruct l as [|y l]; [done|]. simpl. f_equal.
  apply Forall_cons in Hx as [? _]. lia.
Qed.

Lemma index_max_sorted (l : list Z) : StronglySorted (≤) l → index_max l = last l.
Proof.
  induction 1 as [|x l Hl IH Hx]; [done|]. simpl. rewrite IH.
  destruct l as [|y l]; [done|].
  change (last (x :: y :: l)) with (last (y :: l)).
  destruct (last (y :: l)) as [z|] eqn:Hz; [|done]. f_equal.
  apply last_Some_elem_of in Hz. eapply Forall_forall in Hx; [|done]. lia.
Qed.

(** The matrix of [pivot_and_clean] has a column. *)
Lemma pivot_and_clean_column_ends long M :
  pivot_and_clean long = Ok M →
  ∃ c0 c1, head (columns M) = Some c0 ∧ last (columns M) = Some c1.
Proof.
  intros HM. destruct (pivot_and_clean_inv _ _ HM) as (W & HW & Htrim).
  rewrite trim_edges_eq in Htrim.
  destruct (head (dropna_all_columns _)) as [c0|] eqn:Hc0; [|done].
  destruct (last (dropna_all_columns _)) as [c1|] eqn:Hc1; [|done].
  injection Htrim as <-.
  pose proof (cleaned_axes long W HW) as Haxes.
  pose proof (dropna_all_columns_sorted _ Haxes) as Hvc.
  pose proof (head_Some_elem_of _ _ Hc0) as Hc0'.
  pose proof (last_Some_elem_of _ _ Hc1) as Hc1'.
  pose proof (sorted_head_le _ _ _ Hvc Hc0 Hc1').
  apply elem_of_dropna_all_columns in Hc0' as [Hc0' _].
  assert (c0 ∈ columns (loc_mask (λ d, (0 <=? d)
                                         && le_bound d (last (dropna_all_index (cleaned W))))
                                 (λ c, (c0 <=? c) && (c <=? c1)) (cleaned W))) as Hin.
  { simpl. apply list_elem_of_filter. split; [apply range_mask; lia|done]. }
  destruct (head_is_Some_elem _ _ Hin) as [h ->].
  destruct (last_is_Some_elem _ _ Hin) as [l ->]. eauto.
Qed.

Lemma pivot_and_clean_rows (long : list PairRecord) M :
  pivot_and_clean (add_delta_days long) = Ok M → long ≠ [].
Proof. by intros HM ->. Qed.

Lemma pivot_and_clean_insar_rows (long : list PairRecord) M :
  pivot_and_clean_insar (add_delta_days long) = Ok M → long ≠ [].
Proof. by intros HM ->. Qed.

(** X28. When the reshaper of the coherence table returns, so does the
    reshaper of its dates, and the chart has one row for each of the
    [YEAR_AXES_COUNT] years, from the bottom. Without InSAR-pair table every
    row holds the one heat map of the coherence matrix and its dates. With an
    InSAR-pair table whose reshaper returns, every row holds the heat map of
    that matrix and its dates, under the label "Value", and then the heat map
    of the coherence matrix. In both cases the row of a year has the range of
    baselines of that year, and every row the same date axis: it ends four
    days after the last column of the coherence matrix and starts four days
    before its first column, or four days before the day that lies
    [DAYS_PER_YEAR * MAX_YEARS] days before the last column when that is
    later. *)
Theorem plot_coherence_rows (coh_long : list PairRecord) (coh_wide : DataFrame float) :
  pivot_and_clean (add_delta_days coh_long) = Ok coh_wide →
  ∃ date_wide first_column last_column,
    pivot_and_clean_dates (add_delta_days coh_long) coh_wide = Ok date_wide ∧
    head (columns coh_wide) = Some first_column ∧
    last (columns coh_wide) = Some last_column ∧
    let rows traces :=
      map (λ year,
             mkSubplot traces
               (Some (baseline_limits BASELINE_MAX DAYS_PER_YEAR year))
               (Some (Some (Qcmax (Qc_of_Z first_column)
                                  (Qc_of_Z last_column - DAYS_PER_YEAR * MAX_YEARS)
                            - Qc_of_Z 4)%Qc,
                      Some (Qc_of_Z last_column + Qc_of_Z 4)%Qc)))
          (seq 0 (Pos.to_nat YEAR_AXES_COUNT)) in
    let coherence := mkHeatmap coh_wide date_wide "Coherence" in
    plot_coherence YEAR_AXES_COUNT BASELINE_MAX DAYS_PER_YEAR MAX_YEARS
                   (Some coh_long) None = Ok (rows [coherence]) ∧
    ∀ insar_long insar_wide,
      pivot_and_clean_insar (add_delta_days insar_long) = Ok insar_wide →
      ∃ insar_date_wide,
        pivot_and_clean_dates (add_delta_days insar_long) insar_wide
          = Ok insar_date_wide ∧
        plot_coherence YEAR_AXES_COUNT BASELINE_MAX DAYS_PER_YEAR MAX_YEARS
                       (Some coh_long) (Some insar_long)
          = Ok (rows [mkHeatmap insar_wide insar_date_wide "Value"; coherence]).
Proof.
  intros Hwide.
  pose proof (pivot_and_clean_rows _ _ Hwide) as Hrows.
  destruct (pivot_and_clean_inv _ _ Hwide) as (W & HW & _).
  destruct (pivot_inv _ _ _ HW) as (Hnd & _).
  destruct (pivot_and_clean_dates_returns (add_delta_days coh_long) coh_wide Hnd)
    as [date_wide Hdates].
  destruct (pivot_and_clean_column_ends _ _ Hwide) as (c0 & c1 & Hc0 & Hc1).
  destruct (pivot_and_clean_columns _ _ Hwide) as [Hsorted _].
  apply (Sorted_StronglySorted _) in Hsorted.
  assert (second_date_limits DAYS_PER_YEAR MAX_YEARS (columns coh_wide) =
            (Some (Qcmax (Qc_of_Z c0) (Qc_of_Z c1 - DAYS_PER_YEAR * MAX_YEARS)
                   - Qc_of_Z 4)%Qc,
             Some (Qc_of_Z c1 + Qc_of_Z 4)%Qc)) as Hlimits.
  { unfold second_date_limits.
    by rewrite (index_min_sorted _ Hsorted), (index_max_sorted _ Hsorted), Hc0, Hc1. }
  exists date_wide, c0, c1. do 3 (split; [done|]). cbv zeta. split.
  - unfold plot_coherence. rewrite (delta_days_column_rows _ Hrows). simpl.
    rewrite Hwide. simpl. rewrite Hdates. simpl. by rewrite Hlimits.
  - intros insar_long insar_wide Hiw.
    pose proof (pivot_and_clean_insar_rows _ _ Hiw) as Hrows'.
    destruct (pivot_and_clean_insar_inv _ _ Hiw) as (W' & HW' & _).
    destruct (pivot_inv _ _ _ HW') as (Hnd' & _).
    destruct (pivot_and_clean_dates_returns (add_delta_days insar_long) insar_wide Hnd')
      as [insar_date_wide Hidw].
    exists insar_date_wide. split; [done|].
    unfold plot_coherence. rewrite (delta_days_column_rows _ Hrows). simpl.
    rewrite Hwide. simpl. rewrite Hdates. simpl.
    rewrite (delta_days_column_rows _ Hrows'). simpl.
    rewrite Hiw. simpl. rewrite Hidw. simpl. by rewrite Hlimits.
Qed.
End chart_facts.

(** * The properties on the example inputs *)

Lemma single_pair_distinct : distinct_keys (add_delta_days single_pair).
Proof. apply NoDup_singleton. Qed.

Lemma single_insar_pair_distinct : distinct_keys (add_delta_days single_insar_pair).
Proof. apply NoDup_singleton. Qed.

Lemma null_pair_distinct : distinct_keys (add_delta_days null_pair).
Proof. apply NoDup_singleton. Qed.

Lemma repeated_pair_keys : ¬ distinct_keys (add_delta_days repeated_pair).
Proof. intros [Hn _]%NoDup_cons. apply Hn. by left. Qed.

Lemma single_pair_valued (v : float) :
  let r := mkLong (mkPair (Date.of_ymd 2020 1 1) (Date.of_ymd 2020 1 13) (Some v)) 12 in
  ∃ r', r' ∈ [r] ∧ value (pair r') ≠ None ∧ delta_days r' ≠ 0.
Proof. eexists. split; [by left|]. split; done. Qed.

Lemma null_pair_null r :
  r ∈ add_delta_days null_pair → value (pair r) ≠ None → delta_days r = 0.
Proof. intros ->%list_elem_of_singleton Hv. by destruct Hv. Qed.

Lemma single_insar_pair_ordered : ordered_dates single_insar_pair.
Proof. intros r ->%list_elem_of_singleton _. done. Qed.

Lemma pivot_and_clean_outcome_witness :
  pivot_and_clean (add_delta_days repeated_pair) = Raise ValueError ∧
  pivot_and_clean (add_delta_days null_pair) = Raise TypeError ∧
  returns (pivot_and_clean (add_delta_days single_pair)).
Proof.
  split; [|split].
  - apply (proj1 (pivot_and_clean_outcome (add_delta_days repeated_pair))).
    exact repeated_pair_keys.
  - apply (proj1 (proj2 (pivot_and_clean_outcome (add_delta_days null_pair))));
      [exact null_pair_distinct|discriminate|exact null_pair_null].
  - apply (proj2 (proj2 (pivot_and_clean_outcome (add_delta_days single_pair))));
      [exact single_pair_distinct|apply single_pair_valued].
Defined.

Lemma pivot_and_clean_insar_outcome_witness :
  pivot_and_clean_insar (add_delta_days repeated_pair) = Raise ValueError ∧
  pivot_and_clean_insar (add_delta_days null_pair) = Raise IndexError ∧
  returns (pivot_and_clean_insar (add_delta_days single_insar_pair)).
Proof.
  split; [|split].
  - apply (proj1 (pivot_and_clean_insar_outcome (add_delta_days repeated_pair))).
    exact repeated_pair_keys.
  - apply (proj1 (proj2 (pivot_and_clean_insar_outcome (add_delta_days null_pair))));
      [exact null_pair_distinct|discriminate|exact null_pair_null].
  - apply (proj2 (proj2 (pivot_and_clean_insar_outcome
                           (add_delta_days single_insar_pair))));
      [exact single_insar_pair_distinct|apply single_pair_valued].
Defined.

Lemma reshaped_cells_witness :
  (∃ M, pivot_and_clean_insar (add_delta_days single_insar_pair) = Ok M ∧
        cell M 12 (Date.of_ymd 2020 1 13) = Some (round_decimals 2 (Float.of_Z 1))) ∧
  (∃ M, pivot_and_clean (add_delta_days single_pair) = Ok M ∧
        cell M 12 (Date.of_ymd 2020 1 13) = Some (round_decimals 2 (Float.ratio 9 10))).
Proof.
  split.
  - eexists. split; [vm_compute; reflexivity|].
    apply (proj1 (reshaped_cells (add_delta_days single_insar_pair) _ 12
                    (Date.of_ymd 2020 1 13) (round_decimals 2 (Float.of_Z 1)))).
    + vm_compute; reflexivity.
    + eexists _, _. split; [by left|]. repeat split; done.
  - eexists. split; [vm_compute; reflexivity|].
    apply (proj2 (reshaped_cells (add_delta_days single_pair) _ 12
                    (Date.of_ymd 2020 1 13) (round_decimals 2 (Float.ratio 9 10)))).
    + exact (add_delta_days_valid _ single_pair_ordered).
    + vm_compute; reflexivity.
    + eexists _, _. split; [by left|]. repeat split; done.
Defined.

Lemma insar_matrix_bounding_box_witness :
  ∃ M, pivot_and_clean_insar (add_delta_days single_insar_pair) = Ok M ∧
       0 ∉ index M.
Proof.
  eexists. split; [vm_compute; reflexivity|].
  apply (proj2 (insar_matrix_bounding_box (add_delta_days single_insar_pair) _
                  ltac:(vm_compute; reflexivity))).
  exact (add_delta_days_valid _ single_insar_pair_ordered).
Defined.

Lemma coherence_matrix_edges_witness :
  ∃ M, pivot_and_clean (add_delta_days single_pair) = Ok M ∧
       head (index M) = Some 0.
Proof.
  eexists. split; [vm_compute; reflexivity|].
  apply (proj1 (coherence_matrix_edges (add_delta_days single_pair) _
                  (add_delta_days_valid _ single_pair_ordered)
                  ltac:(vm_compute; reflexivity))).
Defined.

Lemma date_matrix_columns_witness :
  returns (pivot_and_clean_dates (add_delta_days single_pair) untrimmed_matrix) ∧
  ∃ coh_wide date_wide,
    pivot_and_clean (add_delta_days single_pair) = Ok coh_wide ∧
    pivot_and_clean_dates (add_delta_days single_pair) coh_wide = Ok date_wide ∧
    columns date_wide = columns coh_wide.
Proof.
  split.
  - apply (proj1 (date_matrix_columns (add_delta_days single_pair) untrimmed_matrix)).
    exact single_pair_distinct.
  - eexists _, _. split; [vm_compute; reflexivity|].
    split; [vm_compute; reflexivity|].
    apply (proj2 (date_matrix_columns (add_delta_days single_pair) _));
      [vm_compute; reflexivity..|].
    intros c ->%list_elem_of_singleton. eexists. split; [by left|]. done.
Defined.

Lemma date_matrix_cells_witness :
  ∃ date_wide,
    pivot_and_clean_dates (add_delta_days single_pair) untrimmed_matrix
      = Ok date_wide ∧
    cell date_wide 12 (Date.of_ymd 2020 1 13) = Some "Jan 01, 2020".
Proof.
  eexists. split; [vm_compute; reflexivity|].
  apply (date_matrix_cells (add_delta_days single_pair) untrimmed_matrix _ 12
           (Date.of_ymd 2020 1 13) "Jan 01, 2020" ltac:(vm_compute; reflexivity)).
  eexists. split; [by left|]. split; [done|]. split; [done|]. split; [done|].
  split; [|done]. right. by left.
Defined.

Lemma date_matrix_rows_differ_witness :
  ∃ coh_wide date_wide,
    pivot_and_clean (add_delta_days single_pair) = Ok coh_wide ∧
    pivot_and_clean_dates (add_delta_days single_pair) coh_wide = Ok date_wide ∧
    0 ∈ index coh_wide ∧ 0 ∉ index date_wide.
Proof.
  eexists _, _. split; [vm_compute; reflexivity|].
  split; [vm_compute; reflexivity|].
  apply (date_matrix_rows_differ (add_delta_days single_pair));
    [exact (add_delta_days_valid _ single_pair_ordered)| |vm_compute; reflexivity..].
  by intros r ->%list_elem_of_singleton.
Defined.

Lemma quakes_site_outcome_witness :
  get_latest_quakes_chis_fsdn_site 0 ConnectionFailed "Garibaldi" ∅ = Raise KeyError ∧
  (∃ df,
     get_latest_quakes_chis_fsdn_site 0 (Response 200 [garibaldi_quake]) "Garibaldi"
       garibaldi_centres = Ok df ∧
     event <$> quake_rows df
       = List.filter (in_box (Float.of_Z 50) (Float.of_Z (-123))) [garibaldi_quake]) ∧
  get_latest_quakes_chis_fsdn_site 0 (Response 200 []) "Garibaldi" garibaldi_centres
    = Raise TypeError ∧
  get_latest_quakes_chis_fsdn_site 0 (Response 500 [garibaldi_quake]) "Garibaldi"
    garibaldi_centres = Ok {| quake_columns := []; quake_rows := [] |}.
Proof.
  split; [|split; [|split]].
  - apply (proj1 (quakes_site_outcome 0 "Garibaldi" ∅)). reflexivity.
  - apply (proj1 (proj2 (quakes_site_outcome 0 "Garibaldi" garibaldi_centres)
                    (Float.of_Z 50) (Float.of_Z (-123)) eq_refl)).
    vm_compute. discriminate.
  - apply (proj1 (proj2 (proj2 (quakes_site_outcome 0 "Garibaldi" garibaldi_centres)
                           (Float.of_Z 50) (Float.of_Z (-123)) eq_refl))).
    reflexivity.
  - apply (proj1 (proj2 (proj2 (proj2 (quakes_site_outcome 0 "Garibaldi"
                                         garibaldi_centres)
                                  (Float.of_Z 50) (Float.of_Z (-123)) eq_refl)))).
    discriminate.
Defined.

Lemma build_summary_table_no_image_witness :
  build_summary_table [] (λ _, TargetInfo None "3M1") 0 (λ _, Ok 0) (Some [garibaldi])
    = Raise KeyError.
Proof.
  apply (build_summary_table_no_image [] (λ _, TargetInfo None "3M1") 0 (λ _, Ok 0)
           [garibaldi]).
  intros f _ _. exists "3M1". reflexivity.
Defined.

Lemma build_summary_table_unreachable_witness :
  ∃ table,
    build_summary_table [] (λ _, TargetConnectionFailed) 0 (λ _, Ok 0) (Some [garibaldi])
      = Ok table ∧
    summary_columns table = ["Site"; "Latest SAR Image"; "Unrest"].
Proof.
  destruct (build_summary_table_unreachable [] (λ _, TargetConnectionFailed) 0
              (λ _, Ok 0) [garibaldi]) as (table & Htable & Hcolumns & _).
  - exists garibaldi. split; [by left|reflexivity].
  - reflexivity.
  - exists table. by split.
Defined.

Lemma csv_paths_witness :
  _coherence_csv "Mt_Meager_3M1" = Ok (Some "app/Data/Mt_Meager/3M1/CoherenceMatrix.csv") ∧
  _insar_pair_csv "Garibaldi" = Raise ValueError.
Proof.
  split.
  - apply (proj1 (csv_paths "Mt_Meager" "3M1")). reflexivity.
  - apply (proj1 (proj2 (csv_paths "" "")) "Garibaldi"); [reflexivity|discriminate].
Defined.

Lemma selector_unmatched_beam_witness :
  populate_beam_selector sum_from_left (Api.Items [stray_beam; garibaldi_beam])
                         (Api.Items [garibaldi_target])
    = Raise UnboundLocalError ∧
  ∃ beam_dict,
    populate_beam_selector sum_from_left (Api.Items [garibaldi_beam; stray_beam])
                           (Api.Items [garibaldi_target]) = Ok beam_dict ∧
    beam_dict !! "Garibaldi_3M2" = Some [Float.of_Z 50; Float.of_Z (-123)].
Proof.
  split.
  - apply (proj1 (selector_unmatched_beam sum_from_left)
             stray_beam [garibaldi_beam] [garibaldi_target]).
    intros t ->%list_elem_of_singleton. discriminate.
  - eexists. split.
    + apply (proj2 (selector_unmatched_beam sum_from_left)
               [] garibaldi_beam [] stray_beam [] garibaldi_target []
               garibaldi_ring []).
      * vm_compute; reflexivity.
      * reflexivity.
      * intros t Ht. by apply elem_of_nil in Ht.
      * intros beam t ->%list_elem_of_singleton ->%list_elem_of_singleton.
        discriminate.
      * reflexivity.
      * vm_compute; reflexivity.
    + vm_compute; reflexivity.
Defined.

Lemma selector_entries_witness :
  ∃ beam_dict v,
    populate_beam_selector sum_from_left (Api.Items [garibaldi_beam])
                           (Api.Items [garibaldi_target]) = Ok beam_dict ∧
    beam_dict !! "Garibaldi_3M1" = Some v ∧
    selector_entry sum_from_left [garibaldi_beam] [garibaldi_target] "Garibaldi_3M1" v.
Proof.
  eexists _, _. split; [vm_compute; reflexivity|].
  split; [vm_compute; reflexivity|].
  eapply (selector_entries sum_from_left [garibaldi_beam] [garibaldi_target] _
            "Garibaldi_3M1" _);
    vm_compute; reflexivity.
Defined.

Lemma config_has_no_queue_witness :
  getitem (get_config_params {[ "API_VRRC_IP" := "10.0.0.1" ]}) "API_VRRC_IP"
    = Ok (Some "10.0.0.1") ∧
  getitem (get_config_params {[ "API_VRRC_IP" := "10.0.0.1" ]}) "AWS_INSAR_PROCESS_QUEUE"
    = Raise KeyError.
Proof.
  split.
  - transitivity (Ok (({[ "API_VRRC_IP" := "10.0.0.1" ]} : gmap string string)
                        !! "API_VRRC_IP") : result (option string));
      [|vm_compute; reflexivity].
    apply (proj1 (@config_has_no_queue unit {[ "API_VRRC_IP" := "10.0.0.1" ]}
                    (Sqs.mkArgs "Garibaldi" "3M1" "20220821" "20220914")
                    (λ _, Ok tt) "API_VRRC_IP")).
    apply list_elem_of_In. simpl. tauto.
  - apply (proj1 (proj2 (@config_has_no_queue unit {[ "API_VRRC_IP" := "10.0.0.1" ]}
                    (Sqs.mkArgs "Garibaldi" "3M1" "20220821" "20220914")
                    (λ _, Ok tt) "AWS_INSAR_PROCESS_QUEUE"))).
    intros Hin%list_elem_of_In. simpl in Hin. intuition discriminate.
Defined.

Lemma fetch_downloads_witness :
  let fs' := get_latest_insar_pairs garibaldi_bucket garibaldi_beams empty_disk in
  files fs' !! "app/Data/Garibaldi/3M1/InSAR_Pair_All.csv" = Some single_insar_pair ∧
  path_exists "app/Data/Garibaldi/3M1" fs' = true.
Proof.
  apply (fetch_downloads garibaldi_bucket garibaldi_beams empty_disk
           "Garibaldi" "3M1" ["3M1"] single_insar_pair);
    [by left|by left|reflexivity].
Defined.

Lemma fetch_keeps_witness :
  files (get_latest_insar_pairs garibaldi_bucket garibaldi_beams empty_disk)
    !! "app/Data/Garibaldi/3M2/InSAR_Pair_All.csv" = None.
Proof.
  apply (proj2 (fetch_keeps garibaldi_bucket garibaldi_beams empty_disk)
           "Garibaldi" "3M2").
  reflexivity.
Defined.

Lemma fetch_then_read_witness :
  (insar_pair_csv ← _insar_pair_csv "Garibaldi_3M1";
   _read_insar_pair
     (λ path, files (get_latest_insar_pairs garibaldi_bucket garibaldi_beams empty_disk)
                !! path)
     insar_pair_csv)
  = Ok (Some single_insar_pair).
Proof.
  apply (fetch_then_read garibaldi_bucket garibaldi_beams empty_disk
           "Garibaldi" "3M1" ["3M1"] single_insar_pair);
    [by left|by left|reflexivity|reflexivity|exact single_insar_pair_ordered].
Defined.

Lemma markers_by_unrest_witness :
  ∃ green_markers red_markers,
    get_green_volcanoes [("Garibaldi", false)] (λ _, TargetConnectionFailed) 0
                        (λ _, Ok 0) (GeoJson [garibaldi]) = Ok green_markers ∧
    get_red_volcanoes [("Garibaldi", false)] (λ _, TargetConnectionFailed) 0
                      (λ _, Ok 0) (GeoJson [garibaldi]) = Ok red_markers ∧
    marker_id <$> green_markers = ["marker_Garibaldi"] ∧ red_markers = [].
Proof.
  edestruct (markers_by_unrest [("Garibaldi", false)] (λ _, TargetConnectionFailed)
               0 (λ _, Ok 0) [garibaldi]) as [Hgreen Hred].
  - intros s. discriminate.
  - apply NoDup_singleton.
  - vm_compute; reflexivity.
  - vm_compute; reflexivity.
  - eexists _, _. split; [exact Hgreen|]. split; [exact Hred|].
    split; vm_compute; reflexivity.
Defined.

Lemma unlisted_volcano_red_witness :
  ∃ red_markers,
    get_red_volcanoes [] (λ _, TargetConnectionFailed) 0 (λ _, Ok 0)
                      (GeoJson [garibaldi]) = Ok red_markers ∧
    children <$> red_markers = [FeatureTooltip (mkTooltip "A001" false)].
Proof.
  edestruct (unlisted_volcano_red [] (λ _, TargetConnectionFailed) 0 (λ _, Ok 0)
               [garibaldi]) as (red_markers & Hred & _).
  - intros s. discriminate.
  - constructor.
  - vm_compute; reflexivity.
  - vm_compute; reflexivity.
  - by left.
  - reflexivity.
  - by intros ?%elem_of_nil.
  - exists red_markers. split; [exact Hred|].
    assert (Ok red_markers
              = get_red_volcanoes [] (λ _, TargetConnectionFailed) 0 (λ _, Ok 0)
                                  (GeoJson [garibaldi])) as Heq by done.
    vm_compute in Heq. by injection Heq as ->.
Defined.

Lemma markers_fallback_witness :
  get_green_volcanoes [] (λ _, TargetConnectionFailed) 0 (λ _, Ok 0)
    (GeoJson [mkFeature "A001" "Garibaldi"
                (mkGeometry "Point"
                   (Position [PyFloat (Float.of_Z (-123)); PyFloat (Float.of_Z 50)]))])
    = Raise TypeError.
Proof.
  apply (proj2 (markers_fallback [] (λ _, TargetConnectionFailed) 0 (λ _, Ok 0))).
  reflexivity.
Defined.

Lemma markers_no_image_witness :
  get_green_volcanoes [] (λ _, TargetInfo None "3M1") 0 (λ _, Ok 0) (GeoJson [garibaldi])
    = Raise KeyError ∧
  get_red_volcanoes [] (λ _, TargetInfo None "3M1") 0 (λ _, Ok 0) (GeoJson [garibaldi])
    = Raise KeyError.
Proof.
  eapply (markers_no_image [] (λ _, TargetInfo None "3M1") 0 (λ _, Ok 0) [garibaldi]).
  - vm_compute; reflexivity.
  - intros f _ _. exists "3M1". reflexivity.
Defined.

Lemma null_pair_not_valued : ¬ has_valued_pair null_pair.
Proof. intros (r & ->%list_elem_of_singleton & Hv & _). by destruct Hv. Qed.

Lemma single_pair_has_value : has_valued_pair single_pair.
Proof. eexists. split; [by left|]. split; done. Qed.

Lemma plot_coherence_outcome_witness :
  plot_coherence 3 (Qc_of_Z 150) (Qc_of_Z 365) (Qc_of_Z 5)
                 (Some null_pair) (Some single_insar_pair) = Raise TypeError ∧
  plot_coherence 3 (Qc_of_Z 150) (Qc_of_Z 365) (Qc_of_Z 5)
                 (Some single_pair) (Some null_pair) = Raise IndexError.
Proof.
  split.
  - apply (proj1 (proj2 (plot_coherence_outcome 3 (Qc_of_Z 150) (Qc_of_Z 365) (Qc_of_Z 5)
                           null_pair [] (Some single_insar_pair))));
      [exact null_pair_distinct|discriminate|exact null_pair_not_valued].
  - apply (proj2 (proj2 (plot_coherence_outcome 3 (Qc_of_Z 150) (Qc_of_Z 365) (Qc_of_Z 5)
                           single_pair null_pair None)));
      [exact single_pair_distinct|exact single_pair_has_value|exact null_pair_distinct
      |discriminate|exact null_pair_not_valued].
Defined.

Lemma plot_coherence_rows_witness :
  ∃ fig,
    plot_coherence 3 (Qc_of_Z 150) (Qc_of_Z 365) (Qc_of_Z 5)
                   (Some single_pair) (Some single_insar_pair) = Ok fig ∧
    length fig = 3%nat.
Proof.
  edestruct (plot_coherence_rows 3 (Qc_of_Z 150) (Qc_of_Z 365) (Qc_of_Z 5) single_pair)
    as (date_wide & first_column & last_column & _ & _ & _ & _ & Hinsar).
  - vm_compute; reflexivity.
  - edestruct (Hinsar single_insar_pair) as (insar_date_wide & _ & Hfig).
    + vm_compute; reflexivity.
    + eexists. split; [exact Hfig|]. reflexivity.
Defined.
